(** * Portfolio back end: the Project resource

    A shallow embedding of the project routes ([routes/projects.js]), the
    bearer-token check ([middleware/auth.js]) and the error handler of
    [app.js], with the properties of the specification proved about it.

    Conventions of the embedding.
    - A JavaScript string is a [string]: a sequence of code units below 256.
    - A JavaScript value that a JSON or multipart body can carry is a
      [value]; a number is a double, printed and read as JavaScript does.
    - A function that can throw returns a [res].
    - The document store is a list of records in insertion order, threaded
      through every handler together with the log of the calls made to it. *)

From Stdlib Require Import Bool Arith NArith ZArith List Ascii String Lia.
From Stdlib Require Import Permutation Sorted.
From Stdlib Require Import Numbers.DecimalString Strings.Byte.
Import ListNotations.

Set Warnings "-register-all".

Local Open Scope string_scope.
Local Open Scope list_scope.

(* ================================================================== *)
(** ** Exceptions and fallible results *)

Inductive exn : Type :=
| TypeError (msg : string)
| MulterError (code : string)
| Error (msg : string).

Inductive res (A : Type) : Type :=
| Ok (a : A)
| Throw (e : exn).

Arguments Ok {A} a.
Arguments Throw {A} e.

Definition bind {A B : Type} (m : res A) (k : A -> res B) : res B :=
  match m with
  | Ok a => k a
  | Throw e => Throw e
  end.

Notation "x <- m ;; k" := (bind m (fun x => k))
  (at level 61, m at next level, right associativity).

Fixpoint mapM {A B : Type} (f : A -> res B) (l : list A) : res (list B) :=
  match l with
  | [] => Ok []
  | x :: rest => y <- f x ;; ys <- mapM f rest ;; Ok (y :: ys)
  end.

(* ================================================================== *)
(** ** Strings *)

(** [String.prototype.trim] removes white space and line terminators; in the
    code-unit range of the embedding these are TAB, LF, VT, FF, CR, SP and
    NBSP. *)
Definition is_space (c : ascii) : bool :=
  let n := nat_of_ascii c in
  (((9 <=? n) && (n <=? 13)) || (n =? 32) || (n =? 160))%nat.

Fixpoint ltrim (s : string) : string :=
  match s with
  | EmptyString => EmptyString
  | String c rest => if is_space c then ltrim rest else s
  end.

Fixpoint rtrim (s : string) : string :=
  match s with
  | EmptyString => EmptyString
  | String c rest =>
      match rtrim rest with
      | EmptyString => if is_space c then EmptyString else String c EmptyString
      | kept => String c kept
      end
  end.

Definition trim (s : string) : string := rtrim (ltrim s).

(** [Boolean(s)] on a string: the empty string is the only falsy one. *)
Definition nonempty (s : string) : bool :=
  match s with
  | EmptyString => false
  | String _ _ => true
  end.

(** [s] is the empty string. *)
Definition empty (s : string) : bool := negb (nonempty s).

(** [s.split(",")]: the segments between commas; never an empty array. *)
Fixpoint split_on (sep : ascii) (s : string) : list string :=
  match s with
  | EmptyString => [EmptyString]
  | String c rest =>
      if Ascii.eqb c sep then EmptyString :: split_on sep rest
      else match split_on sep rest with
           | seg :: segs => String c seg :: segs
           | [] => [String c EmptyString]
           end
  end.

(** [segs.join(sep)] on strings. *)
Fixpoint join (sep : string) (segs : list string) : string :=
  match segs with
  | [] => EmptyString
  | [seg] => seg
  | seg :: rest => (seg ++ sep ++ join sep rest)%string
  end.

Fixpoint mem_char (c : ascii) (s : string) : bool :=
  match s with
  | EmptyString => false
  | String d rest => Ascii.eqb c d || mem_char c rest
  end.

Definition comma : ascii := ","%char.

(* ================================================================== *)
(** ** JavaScript values *)

(** A number is a double: an integer, a fraction [m / 2^e] with [m] odd,
    [NaN] or an infinity.  The two zeros are one, [Int 0]: they print alike,
    both are falsy and both are finite. *)
Inductive number : Type :=
| Int (z : Z)
| Dyadic (m : Z) (e : positive)
| NaN
| Infinity (negative : bool).

Inductive value : Type :=
| VUndefined
| VNull
| VBool (b : bool)
| VNumber (n : number)
| VString (s : string)
| VArray (elems : list value)
| VObject (props : list (string * value)).

(** Own property lookup. *)
Fixpoint lookup {A : Type} (k : string) (props : list (string * A)) : option A :=
  match props with
  | [] => None
  | (k', v) :: rest => if String.eqb k k' then Some v else lookup k rest
  end.

Definition has_key {A : Type} (k : string) (props : list (string * A)) : bool :=
  match lookup k props with
  | Some _ => true
  | None => false
  end.

(** [obj.k] on a plain object: the own property, else [undefined]. *)
Definition get (k : string) (props : list (string * value)) : value :=
  match lookup k props with
  | Some v => v
  | None => VUndefined
  end.

(** Truthiness ([!!v]). *)
Definition truthy (v : value) : bool :=
  match v with
  | VUndefined | VNull => false
  | VBool b => b
  | VNumber (Int z) => negb (z =? 0)%Z
  | VNumber NaN => false
  | VNumber (Dyadic _ _) | VNumber (Infinity _) => true
  | VString s => nonempty s
  | VArray _ | VObject _ => true
  end.

(** The decimal digits of a natural number. *)
Definition decimal (z : Z) : string := NilZero.string_of_int (Z.to_int z).

(** The double nearest to an integer, ties to the even mantissa; an
    integer of magnitude [2^1024 - 2^970] or more rounds to an infinity. *)
Definition nearest_double (z : Z) : number :=
  let a := Z.abs z in
  if (a <? 2 ^ 53)%Z then Int z
  else
    let e := (Z.log2 a - 52)%Z in
    let q := (a / 2 ^ e)%Z in
    let r := (a mod 2 ^ e)%Z in
    let half := (2 ^ (e - 1))%Z in
    let m := (if (r <? half) then q
              else if (half <? r) then q + 1
              else if Z.even q then q else q + 1)%Z in
    let d := (m * 2 ^ e)%Z in
    if (2 ^ 1024 <=? d)%Z then Infinity (z <? 0)%Z
    else Int (if (z <? 0) then - d else d)%Z.

(** Is the number a double?  A fraction [m / 2^e] with [m] odd is one when
    [m] has at most 53 bits and [e] is at most 1074. *)
Definition is_double (n : number) : bool :=
  match n with
  | Int z => match nearest_double z with
             | Int z' => (z =? z')%Z
             | _ => false
             end
  | Dyadic m e => Z.odd m && (Z.abs m <? 2 ^ 53)%Z && (Z.pos e <=? 1074)%Z
  | NaN | Infinity _ => true
  end.

(** Rounding of [a / b] to the nearest integer, ties to even; [0 < b]. *)
Definition round_div (a b : Z) : Z :=
  let q := (a / b)%Z in
  let r := (a mod b)%Z in
  if (2 * r <? b)%Z then q
  else if (b <? 2 * r)%Z then (q + 1)%Z
  else if Z.even q then q else (q + 1)%Z.

(** The shortest decimal [s * 10^p] that denotes the double [num / 2^q]
    ([0 < num]): the least number of digits for which some decimal lies
    within half a gap of the double, and of these the nearest to it. *)
Fixpoint shortest_from (fuel : nat) (p : Z) (lo v hi unit_ : Z) (closed : bool)
    : Z * Z :=
  let scale := if (p <? 0)%Z then (10 ^ (- p))%Z else 1%Z in
  let u := if (p <? 0)%Z then unit_ else (10 ^ p * unit_)%Z in
  let lo' := (lo * scale)%Z in
  let hi' := (hi * scale)%Z in
  let s_min := (if (lo' mod u =? 0) && closed then lo' / u else lo' / u + 1)%Z in
  let s_max := (if (hi' mod u =? 0) && negb closed then hi' / u - 1 else hi' / u)%Z in
  if (s_min <=? s_max)%Z then
    (Z.max s_min (Z.min s_max (round_div (v * scale) u)), p)
  else
    match fuel with
    | O => (round_div (v * scale) u, p)
    | S k => shortest_from k (p - 1) lo v hi unit_ closed
    end.

Definition shortest (num q : Z) : Z * Z :=
  let e2 := (Z.log2 num - q)%Z in
  let e := Z.max (e2 - 52) (-1074) in
  let d := Z.max q (2 - e) in
  let v := (num * 2 ^ (d - q))%Z in
  let up := (2 ^ (e - 1 + d))%Z in
  let power := (num =? 2 ^ Z.log2 num)%Z && (-1074 <? e)%Z in
  let down := if power then (2 ^ (e - 2 + d))%Z else up in
  let mantissa := (v / 2 ^ (e + d))%Z in
  let p0 := ((e2 + 1) * 30103 / 100000 + 2)%Z in
  shortest_from 30 p0 (v - down) v (v + up) (2 ^ d) (Z.even mantissa).

Fixpoint zeros (n : nat) : string :=
  match n with
  | O => EmptyString
  | S k => String "0" (zeros k)
  end.

(** [Number::toString] of a positive double, from its digits [s] and the
    place [n] of its decimal point. *)
Definition place_digits (s n : Z) : string :=
  let ds := decimal s in
  let k := Z.of_nat (String.length ds) in
  if ((k <=? n) && (n <=? 21))%Z then (ds ++ zeros (Z.to_nat (n - k)))%string
  else if ((0 <? n) && (n <=? 21))%Z then
    (substring 0 (Z.to_nat n) ds ++ "."
     ++ substring (Z.to_nat n) (Z.to_nat (k - n)) ds)%string
  else if ((-6 <? n) && (n <=? 0))%Z then
    ("0." ++ zeros (Z.to_nat (- n)) ++ ds)%string
  else
    let exponent :=
      ((if (0 <=? n - 1)%Z then "e+" else "e-") ++ decimal (Z.abs (n - 1)))%string in
    if (k =? 1)%Z then (ds ++ exponent)%string
    else (substring 0 1 ds ++ "." ++ substring 1 (Z.to_nat (k - 1)) ds
          ++ exponent)%string.

Definition positive_to_string (num q : Z) : string :=
  let (s, p) := shortest num q in
  place_digits s (Z.of_nat (String.length (decimal s)) + p).

(** [String(n)], which is [Number::toString(n, 10)]. *)
Definition number_to_string (n : number) : string :=
  match n with
  | Int 0 => "0"
  | Int z =>
      ((if (z <? 0)%Z then "-" else "") ++ positive_to_string (Z.abs z) 0)%string
  | Dyadic m e =>
      ((if (m <? 0)%Z then "-" else "")
       ++ positive_to_string (Z.abs m) (Z.pos e))%string
  | NaN => "NaN"
  | Infinity false => "Infinity"
  | Infinity true => "-Infinity"
  end.

(** [String(v)].  A plain object goes through [OrdinaryToPrimitive]: an own
    [toString] property shadows [Object.prototype.toString], and since a body
    value is never callable no method is left that returns a primitive, which
    is a [TypeError]; otherwise the result is the inherited ["[object Object]"].
    An array is joined with commas, [null] and [undefined] elements printing as
    nothing. *)
Fixpoint js_String (v : value) : res string :=
  match v with
  | VUndefined => Ok "undefined"
  | VNull => Ok "null"
  | VBool true => Ok "true"
  | VBool false => Ok "false"
  | VNumber n => Ok (number_to_string n)
  | VString s => Ok s
  | VArray elems =>
      segs <- (fix each (l : list value) : res (list string) :=
                 match l with
                 | [] => Ok []
                 | x :: rest =>
                     s <- match x with
                          | VUndefined | VNull => Ok EmptyString
                          | _ => js_String x
                          end ;;
                     ss <- each rest ;;
                     Ok (s :: ss)
                 end) elems ;;
      Ok (join "," segs)
  | VObject props =>
      if has_key "toString" props
      then Throw (TypeError "Cannot convert object to primitive value")
      else Ok "[object Object]"
  end.

(** What a client reads of a value given to [res.json], which sends
    [JSON.stringify] of it: a property whose value is [undefined] is left
    out, an [undefined] element of an array is [null], and so is a number
    that is not finite. *)
Fixpoint wire (v : value) : value :=
  match v with
  | VNumber NaN | VNumber (Infinity _) => VNull
  | VArray elems =>
      VArray ((fix each (l : list value) : list value :=
                 match l with
                 | [] => []
                 | VUndefined :: rest => VNull :: each rest
                 | x :: rest => wire x :: each rest
                 end) elems)
  | VObject props =>
      VObject ((fix each (l : list (string * value)) : list (string * value) :=
                  match l with
                  | [] => []
                  | (_, VUndefined) :: rest => each rest
                  | (k, x) :: rest => (k, wire x) :: each rest
                  end) props)
  | _ => v
  end.

(** An array of strings as a value. *)
Definition strings_value (l : list string) : value := VArray (map VString l).

(* ================================================================== *)
(** ** Normalizer *)

(** [normalizeTech] of [routes/projects.js]. *)
Definition normalizeTech (v : value) : res (list string) :=
  match v with
  | VArray elems =>
      strs <- mapM js_String elems ;;
      Ok (filter nonempty (map trim strs))
  | VString s => Ok (filter nonempty (map trim (split_on comma s)))
  | _ => Ok []
  end.

(* ================================================================== *)
(** ** Regular expressions

    The routes hand two patterns to a regular-expression engine: the upload
    filter tests the declared content type against a JavaScript literal, and
    the search passes the query text to the store's [$regex] operator (PCRE).
    The engine below covers the fragment made of literals, [.], escaped
    punctuation, [^], [$], [|], groups, and the quantifiers [*], [+], [?];
    character classes, counted repetition, letter escapes and lazy or
    possessive quantifiers are outside it, and [parse] returns [None] on them
    as it does on an ill-formed pattern.  Patterns are matched by
    derivatives; [matches] says what a pattern matches, and the matcher is
    proved to decide it ([search_matches]). *)

Inductive regex : Type :=
| Empty
| Eps
| Chr (c : ascii)
| Dot
| Bol
| Eol
| Cat (r1 r2 : regex)
| Alt (r1 r2 : regex)
| Star (r : regex).

(** The two options that vary between the uses: [i] and the engine. *)
Record flags : Type := Flags {
  ignore_case : bool;
  pcre : bool
}.

(** A parsing frame: the finished alternatives and the pieces of the current
    one, both most recent first; a piece is marked when a quantifier may
    follow it. *)
Definition frame : Type := (list regex * list (regex * bool))%type.

Definition seq_regex (seq : list (regex * bool)) : regex :=
  fold_left (fun acc p => Cat (fst p) acc) seq Eps.

Definition frame_regex (f : frame) : regex :=
  fold_left (fun acc a => Alt a acc) (fst f) (seq_regex (snd f)).

Definition push (p : regex * bool) (f : frame) : frame :=
  (fst f, p :: snd f).

Definition quantify (q : regex -> regex) (f : frame) : option frame :=
  match snd f with
  | (r, true) :: seq => Some (fst f, (q r, false) :: seq)
  | _ => None
  end.

Definition is_digit (c : ascii) : bool :=
  let n := nat_of_ascii c in ((48 <=? n) && (n <=? 57))%nat.

Definition is_upper (c : ascii) : bool :=
  let n := nat_of_ascii c in ((65 <=? n) && (n <=? 90))%nat.

Definition is_lower (c : ascii) : bool :=
  let n := nat_of_ascii c in ((97 <=? n) && (n <=? 122))%nat.

Definition is_alnum (c : ascii) : bool :=
  is_digit c || is_upper c || is_lower c.

(** The characters a pattern does not read as themselves. *)
Definition is_meta (c : ascii) : bool :=
  mem_char c "\^$.|?*+()[]{}".

Fixpoint parse (s : string) (cur : frame) (stack : list frame) : option regex :=
  match s with
  | EmptyString =>
      match stack with
      | [] => Some (frame_regex cur)
      | _ :: _ => None
      end
  | String c rest =>
      if Ascii.eqb c "\" then
        match rest with
        | String d rest' =>
            if is_alnum d then None
            else parse rest' (push (Chr d, true) cur) stack
        | EmptyString => None
        end
      else if Ascii.eqb c "(" then
        match rest with
        | String "?" _ => None
        | _ => parse rest ([], []) (cur :: stack)
        end
      else if Ascii.eqb c ")" then
        match stack with
        | parent :: stack' =>
            parse rest (push (frame_regex cur, true) parent) stack'
        | [] => None
        end
      else if Ascii.eqb c "|" then
        parse rest (seq_regex (snd cur) :: fst cur, []) stack
      else if Ascii.eqb c "*" then
        match quantify Star cur with
        | Some cur' => parse rest cur' stack
        | None => None
        end
      else if Ascii.eqb c "+" then
        match quantify (fun r => Cat r (Star r)) cur with
        | Some cur' => parse rest cur' stack
        | None => None
        end
      else if Ascii.eqb c "?" then
        match quantify (fun r => Alt r Eps) cur with
        | Some cur' => parse rest cur' stack
        | None => None
        end
      else if Ascii.eqb c "." then parse rest (push (Dot, true) cur) stack
      else if Ascii.eqb c "^" then parse rest (push (Bol, false) cur) stack
      else if Ascii.eqb c "$" then parse rest (push (Eol, false) cur) stack
      else if is_meta c then None
      else parse rest (push (Chr c, true) cur) stack
  end.

Definition compile (pattern : string) : option regex :=
  parse pattern ([], []) [].

(** Case folding of the ASCII letters. *)
Definition to_lower (c : ascii) : ascii :=
  if is_upper c then ascii_of_nat (nat_of_ascii c + 32) else c.

Fixpoint lower (s : string) : string :=
  match s with
  | EmptyString => EmptyString
  | String c rest => String (to_lower c) (lower rest)
  end.

Definition char_match (F : flags) (c d : ascii) : bool :=
  if ignore_case F then Ascii.eqb (to_lower c) (to_lower d) else Ascii.eqb c d.

Definition newline : ascii := ascii_of_nat 10.

(** Matching by derivatives.  [bol] says that the position is the start of
    the subject, [eol] that [$] holds at it. *)
Fixpoint nullable (bol eol : bool) (r : regex) : bool :=
  match r with
  | Empty | Chr _ | Dot => false
  | Eps | Star _ => true
  | Bol => bol
  | Eol => eol
  | Cat r1 r2 => nullable bol eol r1 && nullable bol eol r2
  | Alt r1 r2 => nullable bol eol r1 || nullable bol eol r2
  end.

Definition cat (r1 r2 : regex) : regex :=
  match r1 with
  | Empty => Empty
  | Eps => r2
  | _ => match r2 with
         | Empty => Empty
         | _ => Cat r1 r2
         end
  end.

Definition alt (r1 r2 : regex) : regex :=
  match r1 with
  | Empty => r2
  | _ => match r2 with
         | Empty => r1
         | _ => Alt r1 r2
         end
  end.

Fixpoint deriv (F : flags) (bol eol : bool) (c : ascii) (r : regex) : regex :=
  match r with
  | Empty | Eps | Bol | Eol => Empty
  | Chr d => if char_match F c d then Eps else Empty
  | Dot => if Ascii.eqb c newline then Empty else Eps
  | Cat r1 r2 =>
      alt (cat (deriv F bol eol c r1) r2)
          (if nullable bol eol r1 then deriv F bol eol c r2 else Empty)
  | Alt r1 r2 => alt (deriv F bol eol c r1) (deriv F bol eol c r2)
  | Star r1 => cat (deriv F bol eol c r1) (Star r1)
  end.

(** [$] holds at the end of the subject and, for PCRE, before a newline that
    ends it. *)
Definition at_end (F : flags) (s : string) : bool :=
  match s with
  | EmptyString => true
  | String c EmptyString => pcre F && Ascii.eqb c newline
  | _ => false
  end.

(** What a pattern matches.  [matches F bol r w rest]: at a position that
    is the start of the subject when [bol] holds, [r] matches the text [w],
    after which [rest] is left of the subject. *)
Inductive matches (F : flags) : bool -> regex -> string -> string -> Prop :=
| MEps bol rest : matches F bol Eps EmptyString rest
| MChr bol c d rest :
    char_match F d c = true -> matches F bol (Chr c) (String d EmptyString) rest
| MDot bol d rest :
    Ascii.eqb d newline = false -> matches F bol Dot (String d EmptyString) rest
| MBol rest : matches F true Bol EmptyString rest
| MEol bol rest : at_end F rest = true -> matches F bol Eol EmptyString rest
| MCat bol r1 r2 w1 w2 rest :
    matches F bol r1 w1 (w2 ++ rest)%string ->
    matches F (bol && empty w1) r2 w2 rest ->
    matches F bol (Cat r1 r2) (w1 ++ w2)%string rest
| MAltL bol r1 r2 w rest : matches F bol r1 w rest -> matches F bol (Alt r1 r2) w rest
| MAltR bol r1 r2 w rest : matches F bol r2 w rest -> matches F bol (Alt r1 r2) w rest
| MStar0 bol r rest : matches F bol (Star r) EmptyString rest
| MStarS bol r c w1 w2 rest :
    matches F bol r (String c w1) (w2 ++ rest)%string ->
    matches F false (Star r) w2 rest ->
    matches F bol (Star r) (String c w1 ++ w2)%string rest.

(** Does [r] match a prefix of [s]? *)
Fixpoint prefix_match (F : flags) (bol : bool) (r : regex) (s : string) : bool :=
  nullable bol (at_end F s) r ||
  match s with
  | EmptyString => false
  | String c rest => prefix_match F false (deriv F bol (at_end F s) c r) rest
  end.

(** Does [r] match somewhere in [s]? *)
Fixpoint search (F : flags) (bol : bool) (r : regex) (s : string) : bool :=
  prefix_match F bol r s ||
  match s with
  | EmptyString => false
  | String _ rest => search F false r rest
  end.

(** [/pattern/flags.test(s)] and [{$regex: pattern, $options: flags}]. *)
Definition regex_test (F : flags) (pattern s : string) : option bool :=
  match compile pattern with
  | Some r => Some (search F true r s)
  | None => None
  end.

(** Containment of [needle] in [hay] up to the case of ASCII letters: the
    literal-substring reading of the search. *)
Fixpoint ci_prefix (needle hay : string) : bool :=
  match needle, hay with
  | EmptyString, _ => true
  | String _ _, EmptyString => false
  | String c needle', String d hay' =>
      Ascii.eqb (to_lower c) (to_lower d) && ci_prefix needle' hay'
  end.

Fixpoint ci_contains (needle hay : string) : bool :=
  ci_prefix needle hay ||
  match hay with
  | EmptyString => false
  | String _ hay' => ci_contains needle hay'
  end.

(* ================================================================== *)
(** ** ImageIngestor *)

(** A file part of a multipart body, as multer presents it. *)
Record upload : Type := Upload {
  fieldname : string;
  mimetype : string;
  buffer : list byte
}.

Definition b64_digit (n : N) : ascii :=
  if (n <? 26)%N then ascii_of_N (65 + n)
  else if (n <? 52)%N then ascii_of_N (97 + (n - 26))
  else if (n <? 62)%N then ascii_of_N (48 + (n - 52))
  else if (n =? 62)%N then "+"%char
  else "/"%char.

Definition sextet (n : N) (shift : N) : ascii :=
  b64_digit (N.land (N.shiftr n shift) 63).

(** [buf.toString("base64")]. *)
Fixpoint base64 (bs : list byte) : string :=
  match bs with
  | [] => EmptyString
  | [a] =>
      let n := N.shiftl (Byte.to_N a) 16 in
      String (sextet n 18) (String (sextet n 12) "==")
  | [a; b] =>
      let n := N.lor (N.shiftl (Byte.to_N a) 16) (N.shiftl (Byte.to_N b) 8) in
      String (sextet n 18) (String (sextet n 12) (String (sextet n 6) "="))
  | a :: b :: c :: rest =>
      let n := N.lor (N.lor (N.shiftl (Byte.to_N a) 16)
                            (N.shiftl (Byte.to_N b) 8)) (Byte.to_N c) in
      String (sextet n 18) (String (sextet n 12)
        (String (sextet n 6) (String (sextet n 0) (base64 rest))))
  end.

(** [limits.fileSize]: 4 Mo. *)
Definition fileSize : N := 4 * 1024 * 1024.

(** The [fileFilter] of the multer instance; multer calls it with the file
    part it is reading, so its first test never holds. *)
Definition fileFilter (file : upload) : res unit :=
  match regex_test (Flags true false) "^image\/(jpe?g|png|webp)$" (mimetype file) with
  | Some true => Ok tt
  | _ => Throw (Error "Format image invalide (JPEG/PNG/WebP)")
  end.

(** [bufferToDataUrl]; [None] is JavaScript's [null]. *)
Definition bufferToDataUrl (file : option upload) : option string :=
  match file with
  | None => None
  | Some f =>
      let mime := if nonempty (mimetype f) then mimetype f else "image/jpeg" in
      let b64 := base64 (buffer f) in
      Some ("data:" ++ mime ++ ";base64," ++ b64)%string
  end.

(* ================================================================== *)
(** ** Requests, responses and the collaborators *)

(** What the application is linked with and started under: the secret of
    the environment, the token verification of [jsonwebtoken] ([None] when it
    throws, else the decoded claims) and the URL test of [validator]. *)
Record env : Type := Env {
  JWT_SECRET : option string;
  jwt_verify : string -> string -> option (list (string * value));
  isURL : string -> bool
}.

(** A request as it reaches the router, after the middlewares of [app.js]:
    the [Authorization] header, the [:id] of the path, the [q] of the query,
    the fields of the body as the body parsers (or multer, for a multipart
    body) present them, the file part of a multipart body, and the subject
    that [verifyToken] attaches. *)
Record request : Type := Request {
  authorization : option string;
  params_id : string;
  query_q : option string;
  body : list (string * value);
  file : option upload;
  user : option value
}.

(** Modelled from the spec: the Project document of [models/Project.js]
    (section 3 of the specification), with the identifier and the creation
    time the store assigns. *)
Record project : Type := Project {
  _id : string;
  title : string;
  description : string;
  tech : list string;
  githubUrl : string;
  demoUrl : string;
  featured : bool;
  order : Z;
  coverImage : option string;
  createdAt : Z
}.

Inductive payload : Type :=
| JSON (v : value)
| Doc (p : project)
| Docs (ps : list project).

Record response : Type := Response {
  status : nat;
  sent : payload
}.

Definition message (msg : string) : payload :=
  JSON (VObject [("message", VString msg)]).

(** What a middleware does: call [next()], answer, or call [next(err)]. *)
Inductive outcome (A : Type) : Type :=
| Continue (a : A)
| Done (r : response)
| Raised (e : exn).

Arguments Continue {A} a.
Arguments Done {A} r.
Arguments Raised {A} e.

Definition exn_message (e : exn) : string :=
  match e with
  | TypeError msg => msg
  | Error msg => msg
  | MulterError code =>
      if String.eqb code "LIMIT_FILE_SIZE" then "File too large"
      else if String.eqb code "LIMIT_UNEXPECTED_FILE" then "Unexpected field"
      else code
  end.

(** The error handler of [app.js]: no error of the embedding carries a
    [status], so the answer is 500. *)
Definition error_handler (e : exn) : response :=
  let msg := exn_message e in
  Response 500 (message (if nonempty msg then msg else "Server error")).

(** [upload.single(name)]: the field name is checked, then the filter, and
    the size limit while the part is read. *)
Definition upload_single (name : string) (req : request) : outcome request :=
  match file req with
  | None => Continue req
  | Some f =>
      if negb (String.eqb (fieldname f) name)
      then Raised (MulterError "LIMIT_UNEXPECTED_FILE")
      else match fileFilter f with
           | Throw e => Raised e
           | Ok _ =>
               if (fileSize <? N.of_nat (List.length (buffer f)))%N
               then Raised (MulterError "LIMIT_FILE_SIZE")
               else Continue req
           end
  end.

(* ================================================================== *)
(** ** AuthGate *)

(** [s.slice(n)]. *)
Fixpoint slice (n : nat) (s : string) : string :=
  match n, s with
  | O, _ => s
  | S n', String _ rest => slice n' rest
  | S _, EmptyString => EmptyString
  end.

(** [a || b]. *)
Definition or_else (a b : value) : value := if truthy a then a else b.

Definition set_user (u : value) (req : request) : request :=
  Request (authorization req) (params_id req) (query_q req) (body req)
          (file req) (Some u).

(** [verifyToken] of [middleware/auth.js]. *)
Definition verifyToken (E : env) (req : request) : outcome request :=
  let auth := match authorization req with
              | Some a => a
              | None => EmptyString
              end in
  let token := if String.prefix "Bearer " auth then Some (slice 7 auth) else None in
  match token with
  | None | Some EmptyString => Done (Response 401 (message "Token manquant"))
  | Some t =>
      let secret := match JWT_SECRET E with
                    | Some s => if nonempty s then s else "dev_secret"
                    | None => "dev_secret"
                    end in
      match jwt_verify E t secret with
      | Some decoded =>
          let id := or_else (or_else (or_else (get "id" decoded) (get "_id" decoded))
                                     (get "sub" decoded)) VNull in
          Continue (set_user id req)
      | None => Done (Response 401 (message "Token invalide"))
      end
  end.

(* ================================================================== *)
(** ** Validator

    The rule sets of [routes/projects.js] are chains of [express-validator];
    a chain is kept as the source declares it and run by [run_chain], which
    follows the library's runner: every item of a chain is run in turn on the
    current value of the field, a validator that fails records an error and
    the chain goes on, a sanitizer replaces the value in the request. *)

Inductive location : Type :=
| LBody
| LParams.

Inductive item : Type :=
| IsString
| IsLength (min max : nat)
| IsURL
| IsMongoId
| Trim
| ToBoolean
| ToInt
| CustomSanitizer (f : value -> res (list string)).

Inductive optionality : Type :=
| Required
| Optional (checkFalsy : bool).

Record chain : Type := Chain {
  ch_location : location;
  ch_field : string;
  ch_optional : optionality;
  ch_stack : list item
}.

(** An error of the library's result: [{type, value, msg, path, location}]. *)
Record verror : Type := VError {
  ve_value : value;
  ve_msg : string;
  ve_path : string;
  ve_location : location
}.

Definition location_name (l : location) : string :=
  match l with
  | LBody => "body"
  | LParams => "params"
  end.

(** The element of [errors.array()] for an error. *)
Definition verror_json (e : verror) : value :=
  VObject [("type", VString "field");
           ("value", ve_value e);
           ("msg", VString (ve_msg e));
           ("path", VString (ve_path e));
           ("location", VString (location_name (ve_location e)))].

(** The text a standard validator or sanitizer is given for a value: [""]
    for [undefined], [null] and [NaN], the first element for a non-empty
    array, the object's own conversion otherwise. *)
Definition ev_toString_shallow (v : value) : res string :=
  match v with
  | VUndefined | VNull | VNumber NaN => Ok EmptyString
  | VObject props =>
      match lookup "toString" props with
      | None => Ok "[object Object]"
      | Some t =>
          if truthy t then Ok "[object Object]"
          else Throw (TypeError "Cannot convert object to primitive value")
      end
  | _ => js_String v
  end.

Definition ev_toString (v : value) : res string :=
  match v with
  | VArray (x :: _) => ev_toString_shallow x
  | _ => ev_toString_shallow v
  end.

(** [validator.isLength(str, {min, max})]. *)
Definition isLength (min max : nat) (s : string) : bool :=
  ((min <=? String.length s) && (String.length s <=? max))%nat.

Definition is_hex (c : ascii) : bool :=
  let n := nat_of_ascii c in
  (is_digit c || ((65 <=? n) && (n <=? 70)) || ((97 <=? n) && (n <=? 102)))%nat.

Fixpoint all_chars (p : ascii -> bool) (s : string) : bool :=
  match s with
  | EmptyString => true
  | String c rest => p c && all_chars p rest
  end.

(** [validator.isHexadecimal]: [/^(0x|0h)?[0-9A-F]+$/i]. *)
Definition isHexadecimal (s : string) : bool :=
  nonempty s && all_chars is_hex s
  || match s with
     | String "0" (String c rest) =>
         (Ascii.eqb (to_lower c) "x" || Ascii.eqb (to_lower c) "h")
         && nonempty rest && all_chars is_hex rest
     | _ => false
     end.

(** [validator.isMongoId]: [isHexadecimal(str) && str.length === 24]. *)
Definition isMongoId (s : string) : bool :=
  isHexadecimal s && (String.length s =? 24)%nat.

(** The strings that denote an object id: twenty-four hexadecimal digits. *)
Definition object_id (s : string) : bool :=
  (String.length s =? 24)%nat && all_chars is_hex s.

(** [validator.toBoolean(str)], not strict. *)
Definition toBoolean (s : string) : bool :=
  negb (String.eqb s "0") && negb (String.eqb (lower s) "false")
  && negb (String.eqb s EmptyString).

Fixpoint digits_prefix (s : string) (acc : option Z) : option Z :=
  match s with
  | EmptyString => acc
  | String c rest =>
      if is_digit c then
        let d := Z.of_nat (nat_of_ascii c - 48) in
        digits_prefix rest
          (Some (match acc with Some n => 10 * n + d | None => d end)%Z)
      else acc
  end.

(** [parseInt(str, 10)], which is [validator.toInt(str)]: the integer that
    the leading digits denote, as the double nearest to it. *)
Definition parseInt (s : string) : number :=
  let t := ltrim s in
  let signed := match t with
                | String "-" rest => (true, rest)
                | String "+" rest => (false, rest)
                | _ => (false, t)
                end in
  match digits_prefix (snd signed) None with
  | Some n => nearest_double (if fst signed then - n else n)%Z
  | None => NaN
  end.

(** Is the field left alone by an optional chain? *)
Definition skipped (o : optionality) (v : value) : bool :=
  match o with
  | Required => false
  | Optional false => match v with VUndefined => true | _ => false end
  | Optional true => negb (truthy v)
  end.

Definition elements (v : value) : list value :=
  match v with
  | VArray l => l
  | _ => [v]
  end.

(** A standard validator is applied to the text of the value, or of each of
    its elements when it is an array. *)
Fixpoint std_validation (pred : string -> bool) (loc : location) (path : string)
    (vals : list value) : res (list verror) :=
  match vals with
  | [] => Ok []
  | x :: rest =>
      s <- ev_toString x ;;
      errs <- std_validation pred loc path rest ;;
      Ok (if pred s then errs else VError x "Invalid value" path loc :: errs)
  end.

(** A standard sanitizer likewise. *)
Definition std_sanitization (f : string -> value) (v : value) : res value :=
  match v with
  | VArray l => strs <- mapM ev_toString l ;; Ok (VArray (map f strs))
  | _ => s <- ev_toString v ;; Ok (f s)
  end.

Definition run_item (E : env) (loc : location) (path : string) (it : item)
    (v : value) : res (value * list verror) :=
  match it with
  | IsString =>
      Ok (v, match v with
             | VString _ => []
             | _ => [VError v "Invalid value" path loc]
             end)
  | IsLength min max =>
      errs <- std_validation (isLength min max) loc path (elements v) ;; Ok (v, errs)
  | IsURL =>
      errs <- std_validation (isURL E) loc path (elements v) ;; Ok (v, errs)
  | IsMongoId =>
      errs <- std_validation isMongoId loc path (elements v) ;; Ok (v, errs)
  | Trim =>
      v' <- std_sanitization (fun s => VString (trim s)) v ;; Ok (v', [])
  | ToBoolean =>
      v' <- std_sanitization (fun s => VBool (toBoolean s)) v ;; Ok (v', [])
  | ToInt =>
      v' <- std_sanitization (fun s => VNumber (parseInt s)) v ;; Ok (v', [])
  | CustomSanitizer f =>
      l <- f v ;; Ok (strings_value l, [])
  end.

Fixpoint run_stack (E : env) (loc : location) (path : string) (o : optionality)
    (stack : list item) (v : value) : res (value * list verror) :=
  match stack with
  | [] => Ok (v, [])
  | it :: rest =>
      if skipped o v then Ok (v, [])
      else
        r <- run_item E loc path it v ;;
        r' <- run_stack E loc path o rest (fst r) ;;
        Ok (fst r', snd r ++ snd r')
  end.

Fixpoint set_prop (k : string) (v : value) (props : list (string * value))
    : list (string * value) :=
  match props with
  | [] => [(k, v)]
  | (k', v') :: rest =>
      if String.eqb k k' then (k, v) :: rest else (k', v') :: set_prop k v rest
  end.

Definition read (loc : location) (path : string) (req : request) : value :=
  match loc with
  | LBody => get path (body req)
  | LParams => if String.eqb path "id" then VString (params_id req) else VUndefined
  end.

(** The sanitized value is written back to the request. *)
Definition write (loc : location) (path : string) (v : value) (req : request)
    : request :=
  match loc with
  | LBody =>
      match v, has_key path (body req) with
      | VUndefined, false => req
      | _, _ =>
          Request (authorization req) (params_id req) (query_q req)
                  (set_prop path v (body req)) (file req) (user req)
      end
  | LParams =>
      match v with
      | VString s =>
          if String.eqb path "id"
          then Request (authorization req) s (query_q req) (body req)
                       (file req) (user req)
          else req
      | _ => req
      end
  end.

Definition run_chain (E : env) (c : chain) (req : request)
    : res (request * list verror) :=
  r <- run_stack E (ch_location c) (ch_field c) (ch_optional c) (ch_stack c)
         (read (ch_location c) (ch_field c) req) ;;
  Ok (write (ch_location c) (ch_field c) (fst r) req, snd r).

(** The chains of a route run in order; [validationResult(req)] is the
    errors of all of them. *)
Fixpoint run_chains (E : env) (cs : list chain) (req : request)
    : res (request * list verror) :=
  match cs with
  | [] => Ok (req, [])
  | c :: rest =>
      r <- run_chain E c req ;;
      r' <- run_chains E rest (fst r) ;;
      Ok (fst r', snd r ++ snd r')
  end.

Definition body_field (f : string) (o : optionality) (stack : list item) : chain :=
  Chain LBody f o stack.

Definition param_field (f : string) (o : optionality) (stack : list item) : chain :=
  Chain LParams f o stack.

(** [createRules]. *)
Definition createRules : list chain :=
  [ body_field "title" Required [IsString; Trim; IsLength 2 120];
    body_field "description" Required [IsString; Trim; IsLength 10 3000];
    body_field "tech" (Optional true) [CustomSanitizer normalizeTech];
    body_field "githubUrl" (Optional true) [IsURL];
    body_field "demoUrl" (Optional true) [IsURL];
    body_field "featured" (Optional false) [ToBoolean];
    body_field "order" (Optional false) [ToInt] ].

(** [updateRules]. *)
Definition updateRules : list chain :=
  [ param_field "id" Required [IsMongoId];
    body_field "title" (Optional false) [IsString; Trim; IsLength 2 120];
    body_field "description" (Optional false) [IsString; Trim; IsLength 10 3000];
    body_field "tech" (Optional true) [CustomSanitizer normalizeTech];
    body_field "githubUrl" (Optional true) [IsURL];
    body_field "demoUrl" (Optional true) [IsURL];
    body_field "featured" (Optional false) [ToBoolean];
    body_field "order" (Optional false) [ToInt] ].

Definition idRules : list chain :=
  [ param_field "id" Required [IsMongoId] ].

(** [handleValidation]: the answer it sends, if any. *)
Definition handleValidation (errors : list verror) : option response :=
  match errors with
  | [] => None
  | _ :: _ =>
      Some (Response 400
              (JSON (VObject [("message", VString "Validation error");
                              ("errors", VArray (map verror_json errors))])))
  end.

(* ================================================================== *)
(** ** The document store

    The collection is the list of its documents in insertion order; every
    call of the model's interface is logged.  A query by an identifier that
    is no object id fails with a cast error; no other failure of the store
    (connection, time-out) is modelled. *)

Inductive db_call : Type :=
| CallFind (filter : option string)
| CallFindById (id : string)
| CallCreate
| CallSave (id : string)
| CallFindByIdAndDelete (id : string).

Record world : Type := World {
  docs : list project;
  calls : list db_call;
  next_oid : N;
  now : Z
}.

Definition logged (c : db_call) (w : world) : world :=
  World (docs w) (calls w ++ [c]) (next_oid w) (now w).

(** The filter of the search: [$regex] with [$options: "i"] on the title,
    the description, or some entry of [tech]. *)
Definition matches_query (r : regex) (p : project) : bool :=
  let F := Flags true true in
  search F true r (title p)
  || search F true r (description p)
  || existsb (search F true r) (tech p).

(** [sort({featured: -1, order: 1, createdAt: -1})]: may [a] stand before
    [b]? *)
Definition precedes (a b : project) : bool :=
  if Bool.eqb (featured a) (featured b) then
    if (order a =? order b)%Z then (createdAt b <=? createdAt a)%Z
    else (order a <? order b)%Z
  else featured a.

Fixpoint insert_sorted (p : project) (l : list project) : list project :=
  match l with
  | [] => [p]
  | x :: rest => if precedes p x then p :: l else x :: insert_sorted p rest
  end.

Definition sort_projects (l : list project) : list project :=
  fold_right insert_sorted [] l.

(** [Project.find(filter).sort(...)]; [None] when the pattern of the filter
    is outside the fragment of [parse]. *)
Definition db_find (filter : option string) (w : world)
    : option (list project * world) :=
  let w' := logged (CallFind filter) w in
  match filter with
  | None => Some (sort_projects (docs w), w')
  | Some q =>
      match compile q with
      | Some r => Some (sort_projects (List.filter (matches_query r) (docs w)), w')
      | None => None
      end
  end.

(** Identifiers are compared as the object ids they denote. *)
Definition same_id (id : string) (p : project) : bool :=
  String.eqb (lower (_id p)) (lower id).

Definition quote : string := String (ascii_of_nat 34) EmptyString.

(** The error of the model when the identifier of a query is no object id:
    mongoose casts the identifier before it queries, and throws. *)
Definition cast_error (id : string) : exn :=
  Error ("Cast to ObjectId failed for value " ++ quote ++ id ++ quote
         ++ " (type string) at path " ++ quote ++ "_id" ++ quote
         ++ " for model " ++ quote ++ "Project" ++ quote)%string.

(** [Project.findById(id)]; [None] is [null].  The identifiers that reach
    the store have passed [isMongoId], hence have 24 characters; the cast of
    a string of another length is not modelled apart. *)
Definition db_findById (id : string) (w : world)
    : res (option project) * world :=
  (if object_id id then Ok (find (same_id id) (docs w))
   else Throw (cast_error id),
   logged (CallFindById id) w).

Fixpoint replace_doc (p : project) (l : list project) : list project :=
  match l with
  | [] => []
  | d :: rest =>
      if same_id (_id p) d then p :: rest else d :: replace_doc p rest
  end.

(** [proj.save()]. *)
Definition db_save (p : project) (w : world) : res project * world :=
  (Ok p, World (replace_doc p (docs w)) (calls w ++ [CallSave (_id p)])
               (next_oid w) (now w)).

Fixpoint remove_doc (id : string) (l : list project) : list project :=
  match l with
  | [] => []
  | d :: rest => if same_id id d then rest else d :: remove_doc id rest
  end.

(** [Project.findByIdAndDelete(id)]. *)
Definition db_findByIdAndDelete (id : string) (w : world)
    : res (option project) * world :=
  if object_id id
  then (Ok (find (same_id id) (docs w)),
        World (remove_doc id (docs w)) (calls w ++ [CallFindByIdAndDelete id])
              (next_oid w) (now w))
  else (Throw (cast_error id), logged (CallFindByIdAndDelete id) w).

Definition hex_digit (n : N) : ascii :=
  if (n <? 10)%N then ascii_of_N (48 + n) else ascii_of_N (87 + n).

Fixpoint hex (width : nat) (n : N) (acc : string) : string :=
  match width with
  | O => acc
  | S k => hex k (n / 16)%N (String (hex_digit (n mod 16)%N) acc)
  end.

Definition cast_string (v : value) : res string :=
  match v with
  | VString s => Ok s
  | _ => Throw (Error "Project validation failed")
  end.

Definition cast_bool (v : value) : res bool :=
  match v with
  | VBool b => Ok b
  | _ => Throw (Error "Project validation failed")
  end.

Definition cast_number (v : value) : res Z :=
  match v with
  | VNumber (Int z) => Ok z
  | _ => Throw (Error "Project validation failed")
  end.

Definition cast_strings (v : value) : res (list string) :=
  match v with
  | VArray l => mapM cast_string l
  | _ => Throw (Error "Project validation failed")
  end.

(** Modelled from the spec: [Project.create] of the missing model.  Fields
    of the types of section 3 are stored as they are given, and the new
    document gets a fresh identifier and the time of its creation.  What the
    store does with a field of another type the specification does not say:
    here the creation fails, and nothing is stated further on of such a
    request but that it is answered with an error. *)
Definition db_create (fields : list (string * value)) (cover : option string)
    (w : world) : res project * world :=
  let w' := logged CallCreate w in
  match (t <- cast_string (get "title" fields) ;;
         d <- cast_string (get "description" fields) ;;
         te <- cast_strings (get "tech" fields) ;;
         g <- cast_string (get "githubUrl" fields) ;;
         dm <- cast_string (get "demoUrl" fields) ;;
         f <- cast_bool (get "featured" fields) ;;
         o <- cast_number (get "order" fields) ;;
         Ok (Project (hex 24 (next_oid w) EmptyString) t d te g dm f o cover (now w)))
  with
  | Ok p =>
      (Ok p, World (docs w ++ [p]) (calls w') (N.succ (next_oid w)) (Z.succ (now w)))
  | Throw e => (Throw e, w')
  end.

(* ================================================================== *)
(** ** ProjectResource: the routes *)

Definition handler : Type := world -> response * world.

(** A middleware before the rest of the route. *)
Definition through (m : outcome request) (k : request -> handler) : handler :=
  fun w =>
    match m with
    | Continue req => k req w
    | Done r => (r, w)
    | Raised e => (error_handler e, w)
    end.

(** The chains of a route, then [handleValidation] at the head of its
    handler. *)
Definition validated (E : env) (rules : list chain) (req : request)
    (k : request -> handler) : handler :=
  fun w =>
    match run_chains E rules req with
    | Throw e => (error_handler e, w)
    | Ok (req', errors) =>
        match handleValidation errors with
        | Some r => (r, w)
        | None => k req' w
        end
    end.

(** [GET /api/projects]. *)
Definition get_projects (req : request) (w : world) : option (response * world) :=
  let q := trim (match query_q req with
                 | Some s => s
                 | None => EmptyString
                 end) in
  let find := if nonempty q then Some q else None in
  match db_find find w with
  | Some (projects, w') => Some (Response 200 (Docs projects), w')
  | None => None
  end.

(** [GET /api/projects/:id]. *)
Definition get_project (E : env) (req : request) : handler :=
  validated E idRules req (fun req w =>
    match db_findById (params_id req) w with
    | (Throw e, w') => (error_handler e, w')
    | (Ok None, w') => (Response 404 (message "Projet introuvable"), w')
    | (Ok (Some proj), w') => (Response 200 (Doc proj), w')
    end).

(** [x = d] in a destructuring pattern: the default replaces [undefined]. *)
Definition default (d v : value) : value :=
  match v with
  | VUndefined => d
  | _ => v
  end.

(** [POST /api/projects]. *)
Definition post_project (E : env) (req : request) : handler :=
  through (verifyToken E req) (fun req =>
  through (upload_single "image" req) (fun req =>
  validated E createRules req (fun req w =>
    let b := body req in
    let fields :=
      [("title", get "title" b);
       ("description", get "description" b);
       ("tech", default (VArray []) (get "tech" b));
       ("githubUrl", default (VString EmptyString) (get "githubUrl" b));
       ("demoUrl", default (VString EmptyString) (get "demoUrl" b));
       ("featured", default (VBool false) (get "featured" b));
       ("order", default (VNumber (Int 0)) (get "order" b))] in
    let cover := match file req with
                 | Some _ => bufferToDataUrl (file req)
                 | None => None
                 end in
    match db_create fields cover w with
    | (Ok proj, w') => (Response 201 (Doc proj), w')
    | (Throw e, w') => (error_handler e, w')
    end))).

(** The entries of an array assigned to [tech]; after the sanitizer they are
    strings already. *)
Definition as_strings (l : list value) : list string :=
  map (fun v => match js_String v with
                | Ok s => s
                | Throw _ => EmptyString
                end) l.

(** The assignments of the update handler, field by field.  [toInt] runs
    before the handler, so the [order] it sees is an integer, [NaN] or an
    infinity; a fraction, which [Number.isFinite] would let through, has no
    place in the integer field of the data model and is left out. *)
Definition merge (b : list (string * value)) (f : option upload) (proj : project)
    : project :=
  Project (_id proj)
    (match get "title" b with VString s => trim s | _ => title proj end)
    (match get "description" b with VString s => trim s | _ => description proj end)
    (match get "tech" b with VArray l => as_strings l | _ => tech proj end)
    (match get "githubUrl" b with VString s => trim s | _ => githubUrl proj end)
    (match get "demoUrl" b with VString s => trim s | _ => demoUrl proj end)
    (match get "featured" b with VBool x => x | _ => featured proj end)
    (match get "order" b with VNumber (Int z) => z | _ => order proj end)
    (match f with Some _ => bufferToDataUrl f | None => coverImage proj end)
    (createdAt proj).

(** The [catch] of the update handler. *)
Definition put_catch (e : exn) : response :=
  let multer := match e with MulterError _ => true | _ => false end in
  let format := match regex_test (Flags true false) "Format image invalide"
                        (exn_message e) with
                | Some t => t
                | None => false
                end in
  if multer || format then Response 400 (message (exn_message e))
  else error_handler e.

(** [PUT /api/projects/:id]. *)
Definition put_project (E : env) (req : request) : handler :=
  through (verifyToken E req) (fun req =>
  through (upload_single "image" req) (fun req =>
  validated E updateRules req (fun req w =>
    match db_findById (params_id req) w with
    | (Throw e, w') => (put_catch e, w')
    | (Ok None, w') => (Response 404 (message "Projet introuvable"), w')
    | (Ok (Some proj), w') =>
        match db_save (merge (body req) (file req) proj) w' with
        | (Ok saved, w'') => (Response 200 (Doc saved), w'')
        | (Throw e, w'') => (put_catch e, w'')
        end
    end))).

(** [DELETE /api/projects/:id]. *)
Definition delete_project (E : env) (req : request) : handler :=
  through (verifyToken E req) (fun req =>
  validated E idRules req (fun req w =>
    match db_findByIdAndDelete (params_id req) w with
    | (Throw e, w') => (error_handler e, w')
    | (Ok None, w') => (Response 404 (message "Projet introuvable"), w')
    | (Ok (Some _), w') =>
        (Response 200 (JSON (VObject [("ok", VBool true);
                                      ("id", VString (params_id req))])), w')
    end)).

(* ================================================================== *)
(** ** The specification's words

    The definitions below follow the specification rather than the code;
    the theorems compare the two. *)

(** "Each element is stringified, trimmed, and empty results dropped,
    preserving order." *)
Fixpoint normalized_sequence (strs : list string) : list string :=
  match strs with
  | [] => []
  | s :: rest =>
      match trim s with
      | EmptyString => normalized_sequence rest
      | t => t :: normalized_sequence rest
      end
  end.

(** A value whose conversion to a string meets no object that shadows
    [toString]. *)
Fixpoint convertible (v : value) : bool :=
  match v with
  | VArray elems =>
      (fix all (l : list value) : bool :=
         match l with
         | [] => true
         | x :: rest => convertible x && all rest
         end) elems
  | VObject props => negb (has_key "toString" props)
  | _ => true
  end.

Definition convertible_input (v : value) : bool :=
  match v with
  | VArray elems => forallb convertible elems
  | _ => true
  end.

(** The bearer token of a request: the text after ["Bearer "], when there is
    some. *)
Definition bearer (req : request) : option string :=
  match authorization req with
  | Some a =>
      if String.prefix "Bearer " a
      then match slice 7 a with
           | EmptyString => None
           | t => Some t
           end
      else None
  | None => None
  end.

Definition secret (E : env) : string :=
  match JWT_SECRET E with
  | Some s => if nonempty s then s else "dev_secret"
  | None => "dev_secret"
  end.

(** The order of a listing: featured first, then ascending [order], then
    latest first. *)
Definition listed_before (a b : project) : Prop :=
  (featured b = true -> featured a = true) /\
  (featured a = featured b -> (order a <= order b)%Z) /\
  (featured a = featured b -> order a = order b ->
   (createdAt b <= createdAt a)%Z).

(** The literal reading of a search: [q] occurs, up to case, in the title,
    the description or an entry of [tech]. *)
Definition contains_query (q : string) (p : project) : bool :=
  ci_contains q (title p) || ci_contains q (description p)
  || existsb (ci_contains q) (tech p).

(** A query with no character that a pattern reads specially. *)
Definition literal (q : string) : bool :=
  all_chars (fun c => negb (is_meta c)) q.


(** The errors of a validation answer and the keys of each. *)
Definition errors_of (r : response) : list value :=
  match sent r with
  | JSON (VObject props) =>
      match get "errors" props with
      | VArray l => l
      | _ => []
      end
  | _ => []
  end.

Definition keys (v : value) : list string :=
  match v with
  | VObject props => map fst props
  | _ => []
  end.

(** The answer to a request that fails validation. *)
Definition validation_answer (errors : list verror) : response :=
  Response 400
    (JSON (VObject [("message", VString "Validation error");
                    ("errors", VArray (map verror_json errors))])).

(** The errors a chain reports on a request when run on its own. *)
Definition chain_errors (E : env) (c : chain) (req : request) : list verror :=
  match run_chain E c req with
  | Ok (_, errs) => errs
  | Throw _ => []
  end.

(** The value of a letter of the base64 alphabet (RFC 4648, table 1). *)
Definition b64_value (c : ascii) : option N :=
  let n := N_of_ascii c in
  if ((65 <=? n) && (n <=? 90))%N then Some (n - 65)%N
  else if ((97 <=? n) && (n <=? 122))%N then Some (n - 71)%N
  else if ((48 <=? n) && (n <=? 57))%N then Some (n + 4)%N
  else if (n =? 43)%N then Some 62%N
  else if (n =? 47)%N then Some 63%N
  else None.

Definition octets (l : list N) : option (list byte) :=
  fold_right (fun n acc =>
                match Byte.of_N n, acc with
                | Some b, Some bs => Some (b :: bs)
                | _, _ => None
                end) (Some []) l.

Definition is_pad (c : ascii) : bool := Ascii.eqb c "=".

(** The bytes that a base64 text denotes (RFC 4648, section 4): four
    letters give three bytes; the last group may end in one or two [=],
    and then gives two bytes or one, its unused bits being zero. *)
Fixpoint b64_decode (s : string) : option (list byte) :=
  match s with
  | EmptyString => Some []
  | String c1 (String c2 (String c3 (String c4 rest))) =>
      match b64_value c1, b64_value c2, b64_value c3, b64_value c4 with
      | Some v1, Some v2, Some v3, Some v4 =>
          match octets [v1 * 4 + v2 / 16; (v2 mod 16) * 16 + v3 / 4;
                        (v3 mod 4) * 64 + v4]%N,
                b64_decode rest with
          | Some bs, Some tail => Some (bs ++ tail)
          | _, _ => None
          end
      | Some v1, Some v2, Some v3, None =>
          match rest with
          | EmptyString =>
              if is_pad c4 && (v3 mod 4 =? 0)%N
              then octets [v1 * 4 + v2 / 16; (v2 mod 16) * 16 + v3 / 4]%N
              else None
          | _ => None
          end
      | Some v1, Some v2, None, None =>
          match rest with
          | EmptyString =>
              if is_pad c3 && is_pad c4 && (v2 mod 16 =? 0)%N
              then octets [v1 * 4 + v2 / 16]%N
              else None
          | _ => None
          end
      | _, _, _, _ => None
      end
  | _ => None
  end.

(** "A single self-describing string of the form
    [data:<declared-mime-type>;base64,<encoded-bytes>]". *)
Definition data_url (mime : string) (bytes : list byte) (s : string) : Prop :=
  exists t, s = ("data:" ++ mime ++ ";base64," ++ t)%string /\
            b64_decode t = Some bytes.

(** The partial update, read on the request as it came: a text field is
    overwritten by a string of the request, trimmed; [tech], [featured] and
    [order] by what the sanitizers of the rule set make of the request's
    value; the cover by an attached upload; any other field is left as it
    was stored. *)
Definition update_policy (raw : list (string * value)) (f : option upload)
    (proj saved : project) : Prop :=
  _id saved = _id proj /\
  createdAt saved = createdAt proj /\
  match get "title" raw with
  | VString s => title saved = trim s
  | _ => title saved = title proj
  end /\
  match get "description" raw with
  | VString s => description saved = trim s
  | _ => description saved = description proj
  end /\
  (if truthy (get "tech" raw)
   then normalizeTech (get "tech" raw) = Ok (tech saved)
   else tech saved = tech proj) /\
  match get "githubUrl" raw with
  | VString s => githubUrl saved = trim s
  | _ => githubUrl saved = githubUrl proj
  end /\
  match get "demoUrl" raw with
  | VString s => demoUrl saved = trim s
  | _ => demoUrl saved = demoUrl proj
  end /\
  match get "featured" raw with
  | VUndefined | VArray _ => featured saved = featured proj
  | v => exists s, ev_toString v = Ok s /\ featured saved = toBoolean s
  end /\
  match get "order" raw with
  | VUndefined | VArray _ => order saved = order proj
  | v => exists s, ev_toString v = Ok s /\
                   match parseInt s with
                   | Int z => order saved = z
                   | _ => order saved = order proj
                   end
  end /\
  match f with
  | Some u => exists s, coverImage saved = Some s /\
                        data_url (mimetype u) (buffer u) s
  | None => coverImage saved = coverImage proj
  end.

(** A request that is turned down with the world left as it was. *)
Definition refused (r : response * world) (w : world) : Prop :=
  snd r = w /\ (status (fst r) = 401 \/ status (fst r) = 500).

(** A document with another title. *)
Definition with_title (t : string) (p : project) : project :=
  Project (_id p) t (description p) (tech p) (githubUrl p) (demoUrl p)
          (featured p) (order p) (coverImage p) (createdAt p).


Definition same_location (l l' : location) : bool :=
  match l, l' with
  | LBody, LBody | LParams, LParams => true
  | _, _ => false
  end.

(** Do two chains address the same field of the request? *)
Definition same_field (c c' : chain) : bool :=
  same_location (ch_location c) (ch_location c')
  && String.eqb (ch_field c) (ch_field c').

Fixpoint distinct_fields (cs : list chain) : bool :=
  match cs with
  | [] => true
  | c :: rest => forallb (fun c' => negb (same_field c c')) rest && distinct_fields rest
  end.

(** The document an answer carries. *)
Definition document (r : response) : option project :=
  match sent r with
  | Doc p => Some p
  | _ => None
  end.

(* ================================================================== *)
(** ** Fixtures for the examples *)

Definition sample_env : env :=
  Env None
      (fun token _ =>
         if String.eqb token "admin-token" then Some [("id", VString "admin")]
         else if String.eqb token "anonymous-token" then Some [("role", VString "editor")]
         else None)
      (String.prefix "http").

Definition sample_project : project :=
  Project "0123456789abcdef01234567" "abc" "A first description"
          ["node"; "C++"] "" "" false 2 None 10.

Definition sample_world : world :=
  World [sample_project;
         Project "0123456789abcdef01234568" "Zed" "A second description"
                 ["react"] "" "" true 5 (Some "data:image/png;base64,AAAA") 11]
        [] 100 1000.

Definition sample_request (auth : option string) (id : string)
    (b : list (string * value)) (f : option upload) : request :=
  Request auth id None b f None.

Definition search_request (q : option string) : request :=
  Request None EmptyString q [] None None.

(* ================================================================== *)
(** ** Auxiliary definitions of the proofs *)

(** A string that does not begin with white space. *)
Definition starts_clean (s : string) : bool :=
  match s with
  | EmptyString => true
  | String c _ => negb (is_space c)
  end.

(** The text of an array element in a join. *)
Definition elem_String (x : value) : res string :=
  match x with
  | VUndefined | VNull => Ok EmptyString
  | _ => js_String x
  end.

(** Induction on values, through the elements of arrays. *)
Section ValueInduction.
Variable P : value -> Prop.
Hypothesis Hundefined : P VUndefined.
Hypothesis Hnull : P VNull.
Hypothesis Hbool : forall b, P (VBool b).
Hypothesis Hnumber : forall n, P (VNumber n).
Hypothesis Hstring : forall s, P (VString s).
Hypothesis Harray : forall elems, Forall P elems -> P (VArray elems).
Hypothesis Hobject : forall props, P (VObject props).

Fixpoint value_nested_ind (v : value) : P v :=
  match v with
  | VUndefined => Hundefined
  | VNull => Hnull
  | VBool b => Hbool b
  | VNumber n => Hnumber n
  | VString s => Hstring s
  | VArray elems =>
      Harray elems
        ((fix all (l : list value) : Forall P l :=
            match l with
            | [] => Forall_nil P
            | x :: rest => Forall_cons x (value_nested_ind x) (all rest)
            end) elems)
  | VObject props => Hobject props
  end.
End ValueInduction.

(** The pattern that reads the characters of [s] one after the other, then
    goes on as [k]. *)
Fixpoint lits (s : string) (k : regex) : regex :=
  match s with
  | EmptyString => k
  | String c rest => Cat (Chr c) (lits rest k)
  end.

Fixpoint lit_pieces (s : string) (seq : list (regex * bool))
    : list (regex * bool) :=
  match s with
  | EmptyString => seq
  | String c rest => lit_pieces rest ((Chr c, true) :: seq)
  end.

(** Induction on a list of bytes, three at a time. *)
Section ByThree.
Variable P : list byte -> Prop.
Hypothesis P0 : P [].
Hypothesis P1 : forall a, P [a].
Hypothesis P2 : forall a b, P [a; b].
Hypothesis P3 : forall a b c rest, P rest -> P (a :: b :: c :: rest).

Fixpoint by_three (l : list byte) : P l :=
  match l with
  | [] => P0
  | [a] => P1 a
  | [a; b] => P2 a b
  | a :: b :: c :: rest => P3 a b c rest (by_three rest)
  end.
End ByThree.

Ltac inv H := inversion H; subst; clear H.

(** Arithmetic with quotients and remainders. *)
Ltac arith := zify; Z.to_euclidean_division_equations; lia.

(** Case analysis on the comparisons of the sort keys. *)
Ltac compare_keys :=
  repeat match goal with
         | H : context [(?a =? ?b)%Z] |- _ => destruct (Z.eqb_spec a b)
         | H : context [(?a <? ?b)%Z] |- _ => destruct (Z.ltb_spec a b)
         | H : context [(?a <=? ?b)%Z] |- _ => destruct (Z.leb_spec a b)
         | |- context [(?a =? ?b)%Z] => destruct (Z.eqb_spec a b)
         | |- context [(?a <? ?b)%Z] => destruct (Z.ltb_spec a b)
         | |- context [(?a <=? ?b)%Z] => destruct (Z.leb_spec a b)
         end.

(** Two payloads: the first bytes of a PNG file, and 4 MiB and one byte. *)
Definition png_signature : list byte := [x89; x50; x4e; x47; x0d; x0a; x1a; x0a].

Definition oversized : list byte := repeat x00 (N.to_nat (fileSize + 1)).

(* ================================================================== *)
(** ** The application: allowed origins

    The [origin] option that [app.js] gives to the CORS middleware, and the
    list it reads once from [ALLOWED_ORIGINS]. *)

Definition allowed_origins (ALLOWED_ORIGINS : option string) : list string :=
  List.filter nonempty
    (map trim
       (split_on comma
          (match ALLOWED_ORIGINS with
           | Some s => s
           | None => EmptyString
           end))).

(** [origin(origin, cb)]: [Ok true] is [cb(null, true)], [Throw] the error
    given to [cb]. *)
Definition cors_origin (allowed : list string) (origin : option string)
    : res bool :=
  match origin with
  | None | Some EmptyString => Ok true
  | Some o =>
      if (List.length allowed =? 0)%nat || existsb (String.eqb o) allowed
      then Ok true
      else Throw (Error "Not allowed by CORS")
  end.

(* ================================================================== *)
(** ** Start-up: [connectDB] and [server.js]

    The start of the process is the list of what it does, in order; the
    connection of mongoose and the [listen] of the HTTP server are
    collaborators that return or throw ([listen] throws on a port out of
    range).  The texts that are logged are left out, but for the message of
    an error; an error that the server emits after [listen] has returned is
    not modelled. *)

Record connect_options : Type := ConnectOptions {
  serverSelectionTimeoutMS : Z;
  socketTimeoutMS : Z;
  family : Z
}.

Record process_env : Type := ProcessEnv {
  MONGODB_URI : option string;
  PORT : option string;
  HOST : option string
}.

Inductive startup_event : Type :=
| SetStrictQuery
| MongooseConnect (uri : string) (opts : connect_options)
| ConsoleLog
| ConsoleError (detail : string)
| ConnectionOn (event : string)
| Listen (port : value) (host : string)
| ProcessExit (code : Z).

Definition opts : connect_options := ConnectOptions 10000 45000 4.

(** [connectDB] of [config/db.js]: what it does, and whether it returns or
    throws. *)
Definition connectDB (P : process_env)
    (connect : string -> connect_options -> res unit)
    : list startup_event * res unit :=
  match MONGODB_URI P with
  | None | Some EmptyString =>
      ([], Throw (Error "MONGODB_URI manquant dans .env"))
  | Some uri =>
      match connect uri opts with
      | Ok _ =>
          ([SetStrictQuery; MongooseConnect uri opts; ConsoleLog;
            ConnectionOn "error"; ConnectionOn "disconnected"], Ok tt)
      | Throw err =>
          ([SetStrictQuery; MongooseConnect uri opts;
            ConsoleError (exn_message err)], Throw err)
      end
  end.

(** [process.env.PORT || 4000] and [process.env.HOST || "0.0.0.0"]. *)
Definition listen_port (P : process_env) : value :=
  match PORT P with
  | Some p => if nonempty p then VString p else VNumber (Int 4000)
  | None => VNumber (Int 4000)
  end.

Definition listen_host (P : process_env) : string :=
  match HOST P with
  | Some h => if nonempty h then h else "0.0.0.0"
  | None => "0.0.0.0"
  end.

(** [server.js]: [Listen] is the call of [listen], the [ConsoleLog] after
    it the callback of a server that listens. *)
Definition start (P : process_env)
    (connect : string -> connect_options -> res unit)
    (listen : value -> string -> res unit) : list startup_event :=
  match connectDB P connect with
  | (done, Ok _) =>
      match listen (listen_port P) (listen_host P) with
      | Ok _ => done ++ [Listen (listen_port P) (listen_host P); ConsoleLog]
      | Throw err =>
          done ++ [Listen (listen_port P) (listen_host P);
                   ConsoleError (exn_message err); ProcessExit 1]
      end
  | (done, Throw err) => done ++ [ConsoleError (exn_message err); ProcessExit 1]
  end.

(* ================================================================== *)
(** ** Further words of the properties *)

(** The subject that the claims of a token give: the first of [id], [_id]
    and [sub] that is truthy, and null when none is. *)
Definition attributed (decoded : list (string * value)) (u : value) : Prop :=
  (truthy (get "id" decoded) = true /\ u = get "id" decoded) \/
  (truthy (get "id" decoded) = false /\
   truthy (get "_id" decoded) = true /\ u = get "_id" decoded) \/
  (truthy (get "id" decoded) = false /\
   truthy (get "_id" decoded) = false /\
   truthy (get "sub" decoded) = true /\ u = get "sub" decoded) \/
  (truthy (get "id" decoded) = false /\
   truthy (get "_id" decoded) = false /\
   truthy (get "sub" decoded) = false /\ u = VNull).

(** No two documents have the same identifier. *)
Definition unique_ids (l : list project) : Prop :=
  NoDup (map (fun p => lower (_id p)) l).

(** Entries that are neither empty nor padded with white space. *)
Definition tidy (l : list string) : Prop :=
  Forall (fun s => nonempty s = true /\ trim s = s) l.

(** A document as the rules of the routes let it be written. *)
Definition well_formed (p : project) : Prop :=
  isLength 2 120 (title p) = true /\ trim (title p) = title p /\
  isLength 10 3000 (description p) = true /\
  trim (description p) = description p /\
  tidy (tech p).

(** The content types of the upload filter, in lower case. *)
Definition image_types : list string :=
  ["image/jpeg"; "image/jpg"; "image/png"; "image/webp"].

(** The calls that a route added to the log of the store. *)
Definition new_calls (w w' : world) (added : list db_call) : Prop :=
  calls w' = calls w ++ added.

(** An answer that leaves the world as it was and carries no document. *)
Definition turned_down (r : response * world) (w : world) : Prop :=
  snd r = w /\
  document (fst r) = None /\
  (status (fst r) = 400 \/ status (fst r) = 401 \/ status (fst r) = 500).

(** The ways a route ends before it reaches the store: the token is refused
    (401), a middleware or a rule throws (500), or the rules report a
    violation (400).  The world is then as it was. *)
Inductive stopped (w : world) : response * world -> Prop :=
| stopped_token (r : response) :
    status r = 401 -> document r = None -> stopped w (r, w)
| stopped_error (e : exn) : stopped w (error_handler e, w)
| stopped_rules (errs : list verror) :
    errs <> [] -> stopped w (validation_answer errs, w).

(** One step of the analysis of a match of a pattern given by its syntax. *)
Ltac match_step :=
  match goal with
  | H : matches _ _ (Cat _ _) _ _ |- _ => inversion H; subst; clear H
  | H : matches _ _ (Alt _ _) _ _ |- _ => inversion H; subst; clear H
  | H : matches _ _ (Chr _) _ _ |- _ => inversion H; subst; clear H
  | H : matches _ _ Eps _ _ |- _ => inversion H; subst; clear H
  | H : matches _ _ Eol _ _ |- _ => inversion H; subst; clear H
  | H : matches _ _ Bol _ _ |- _ => inversion H; subst; clear H
  end.

(* ================================================================== *)
(** * Properties *)

(** ** Strings *)

Lemma ltrim_starts_clean (s : string) : starts_clean (ltrim s) = true.
Proof.
  induction s as [|c rest IH]; simpl; [reflexivity|].
  destruct (is_space c) eqn:Hc; [exact IH|].
  simpl. now rewrite Hc.
Qed.

Lemma ltrim_clean (s : string) : starts_clean s = true -> ltrim s = s.
Proof.
  destruct s as [|c rest]; simpl; [reflexivity|].
  destruct (is_space c); [discriminate|reflexivity].
Qed.

Lemma rtrim_keeps_clean (s : string) :
  starts_clean s = true -> starts_clean (rtrim s) = true.
Proof.
  destruct s as [|c rest]; simpl; [reflexivity|].
  intros Hc. destruct (rtrim rest); simpl.
  - destruct (is_space c) eqn:Hsp; [discriminate|].
    simpl. now rewrite Hsp.
  - exact Hc.
Qed.

Lemma rtrim_idempotent (s : string) : rtrim (rtrim s) = rtrim s.
Proof.
  induction s as [|c rest IH]; simpl; [reflexivity|].
  destruct (rtrim rest) as [|d kept] eqn:Hr.
  - destruct (is_space c) eqn:Hc; simpl; [reflexivity|now rewrite Hc].
  - simpl. simpl in IH. rewrite IH. reflexivity.
Qed.

Lemma trim_idempotent (s : string) : trim (trim s) = trim s.
Proof.
  unfold trim.
  rewrite (ltrim_clean (rtrim (ltrim s))).
  - apply rtrim_idempotent.
  - apply rtrim_keeps_clean, ltrim_starts_clean.
Qed.

Lemma split_on_nonempty (sep : ascii) (s : string) : split_on sep s <> [].
Proof.
  destruct s as [|c rest]; simpl; [discriminate|].
  destruct (Ascii.eqb c sep); [discriminate|].
  destruct (split_on sep rest); discriminate.
Qed.

Lemma join_cons (sep seg : string) (segs : list string) :
  segs <> [] -> join sep (seg :: segs) = (seg ++ sep ++ join sep segs)%string.
Proof.
  destruct segs; [congruence|reflexivity].
Qed.

(** Splitting on commas is the inverse of joining with commas. *)
Lemma join_split_on (s : string) : join "," (split_on comma s) = s.
Proof.
  induction s as [|c rest IH]; simpl; [reflexivity|].
  destruct (Ascii.eqb c comma) eqn:Hc.
  - apply Ascii.eqb_eq in Hc. subst c.
    rewrite join_cons by apply split_on_nonempty.
    simpl. now rewrite IH.
  - pose proof (split_on_nonempty comma rest) as Hne.
    destruct (split_on comma rest) as [|seg segs]; [congruence|].
    destruct segs as [|seg' segs].
    + simpl in *. now rewrite IH.
    + change (join "," (String c seg :: seg' :: segs))
        with (String c (seg ++ "," ++ join "," (seg' :: segs)))%string.
      f_equal. exact IH.
Qed.

Lemma split_on_comma_free (s : string) :
  Forall (fun seg => mem_char comma seg = false) (split_on comma s).
Proof.
  induction s as [|c rest IH]; simpl.
  - constructor; [reflexivity|constructor].
  - destruct (Ascii.eqb c comma) eqn:Hc.
    + constructor; [reflexivity|exact IH].
    + destruct (split_on comma rest) as [|seg segs].
      * constructor; [|constructor]. cbn [mem_char].
        rewrite Ascii.eqb_sym, Hc. reflexivity.
      * inversion IH as [|? ? Hseg Hsegs]; subst.
        constructor; [|exact Hsegs]. cbn [mem_char].
        rewrite Ascii.eqb_sym, Hc. exact Hseg.
Qed.

(** ** Numbers *)

(** [String(n)] on some doubles: integers up to [1e21] are written out,
    larger ones and small fractions in exponent notation, always with the
    fewest digits that denote the double. *)
Example number_to_string_vectors :
  map number_to_string
      [Int 0; Int (-7); Int 123456789012345680000; Int (10 ^ 21); Int (2 ^ 70);
       Dyadic 1 1; Dyadic (-3) 1; Dyadic 3602879701896397 55;
       Dyadic 5404319552844595 54; Dyadic 1 1074;
       Int ((2 ^ 53 - 1) * 2 ^ 971); NaN; Infinity false; Infinity true]
  = ["0"; "-7"; "123456789012345680000"; "1e+21"; "1.1805916207174113e+21";
     "0.5"; "-1.5"; "0.1"; "0.3"; "5e-324"; "1.7976931348623157e+308";
     "NaN"; "Infinity"; "-Infinity"].
Proof. vm_compute. reflexivity. Qed.

(** [parseInt] reads the leading digits and rounds to a double; past the
    largest double the result is an infinity. *)
Example parseInt_vectors :
  map parseInt ["42"; " -17px"; "1e+21"; "0.5"; "abc"; "";
                "9007199254740993"; "1" ++ zeros 400; "-1" ++ zeros 400]%string
  = [Int 42; Int (-17); Int 1; Int 0; NaN; NaN;
     Int 9007199254740992; Infinity false; Infinity true].
Proof. vm_compute. reflexivity. Qed.

(** ** Normalizer *)

Lemma filter_map_trim (strs : list string) :
  List.filter nonempty (map trim strs) = normalized_sequence strs.
Proof.
  induction strs as [|s rest IH]; simpl; [reflexivity|].
  destruct (trim s); simpl; now rewrite IH.
Qed.

Lemma mapM_Forall2 {A B : Type} (f : A -> res B) (l : list A) (l' : list B) :
  mapM f l = Ok l' <-> Forall2 (fun a b => f a = Ok b) l l'.
Proof.
  revert l'. induction l as [|a rest IH]; intros l'; simpl.
  - split.
    + intros H. injection H as <-. constructor.
    + intros H. inversion H. reflexivity.
  - split.
    + destruct (f a) as [b|e] eqn:Hfa; simpl; [|discriminate].
      destruct (mapM f rest) as [bs|e] eqn:Hrest; simpl; [|discriminate].
      intros H. injection H as <-. constructor; [exact Hfa|].
      now apply IH.
    + intros H. inversion H as [|? b ? bs Hfa Hrest]; subst.
      rewrite Hfa. simpl. apply IH in Hrest. rewrite Hrest. reflexivity.
Qed.

Lemma mapM_strings (l : list string) : mapM js_String (map VString l) = Ok l.
Proof.
  induction l as [|s rest IH]; simpl; [reflexivity|].
  rewrite IH. reflexivity.
Qed.

Lemma normalized_sequence_fixed (strs : list string) :
  normalized_sequence (normalized_sequence strs) = normalized_sequence strs.
Proof.
  induction strs as [|s rest IH]; simpl; [reflexivity|].
  destruct (trim s) as [|c t] eqn:Hs; [exact IH|].
  simpl. rewrite <- Hs, trim_idempotent, Hs, IH. reflexivity.
Qed.

Lemma js_String_array (elems : list value) :
  js_String (VArray elems) =
  (segs <- mapM elem_String elems ;; Ok (join "," segs)).
Proof.
  simpl. f_equal.
  induction elems as [|x rest IH]; [reflexivity|].
  rewrite IH. reflexivity.
Qed.

Lemma convertible_array (elems : list value) :
  convertible (VArray elems) = forallb convertible elems.
Proof.
  simpl. induction elems as [|x rest IH]; [reflexivity|].
  rewrite IH. reflexivity.
Qed.

(** [String(v)] returns exactly on the convertible values. *)
Lemma js_String_convertible (v : value) :
  (exists s, js_String v = Ok s) <-> convertible v = true.
Proof.
  induction v as [| |b|n|s|elems IH|props] using value_nested_ind;
    try (simpl; split; [reflexivity|intros _; eexists; reflexivity]).
  - destruct b; simpl; split; eauto.
  - rewrite js_String_array, convertible_array.
    induction IH as [|x rest Hx Hrest IHrest]; simpl.
    + split; eauto.
    + assert (Helem : (exists s, elem_String x = Ok s) <-> convertible x = true).
      { destruct x; try exact Hx; simpl; split; eauto. }
      split.
      * intros [s Hs].
        destruct (elem_String x) as [sx|e] eqn:Hex; simpl in Hs; [|discriminate].
        destruct (mapM elem_String rest) as [ss|e] eqn:Hss; simpl in Hs; [|discriminate].
        apply andb_true_intro. split.
        -- apply Helem. eauto.
        -- apply IHrest. simpl. eauto.
      * intros H. apply andb_prop in H as [H1 H2].
        apply Helem in H1 as [sx Hsx]. apply IHrest in H2 as [s Hs].
        rewrite Hsx. simpl.
        destruct (mapM elem_String rest) as [ss|e]; simpl in Hs; [|discriminate].
        simpl. eauto.
  - simpl. destruct (has_key "toString" props); simpl; split;
      try discriminate; eauto.
    intros [s Hs]. discriminate.
Qed.

Lemma mapM_js_String_convertible (elems : list value) :
  (exists strs, mapM js_String elems = Ok strs) <->
  forallb convertible elems = true.
Proof.
  induction elems as [|x rest IH]; simpl.
  - split; eauto.
  - split.
    + intros [strs H].
      destruct (js_String x) as [s|e] eqn:Hx; simpl in H; [|discriminate].
      destruct (mapM js_String rest) as [ss|e] eqn:Hss; simpl in H; [|discriminate].
      apply andb_true_intro. split.
      * apply js_String_convertible. eauto.
      * apply IH. eauto.
    + intros H. apply andb_prop in H as [H1 H2].
      apply js_String_convertible in H1 as [s Hs]. apply IH in H2 as [ss Hss].
      rewrite Hs, Hss. simpl. eauto.
Qed.

(** C8. [normalizeTech] on the two examples of the specification; on a
    sequence, every element is stringified, trimmed and dropped when empty,
    in order; on a string, the same is done to its comma-separated segments;
    on a value of any other type the result is the empty sequence. *)
Theorem normalizeTech_spec :
  normalizeTech (VString "a, b ,,c") = Ok ["a"; "b"; "c"] /\
  normalizeTech (VArray [VString "x "; VString " y"]) = Ok ["x"; "y"] /\
  (forall elems strs,
     Forall2 (fun v s => js_String v = Ok s) elems strs ->
     normalizeTech (VArray elems) = Ok (normalized_sequence strs)) /\
  (forall s, exists segs,
     join "," segs = s /\
     Forall (fun seg => mem_char comma seg = false) segs /\
     normalizeTech (VString s) = Ok (normalized_sequence segs)) /\
  (forall v,
     match v with
     | VArray _ | VString _ => True
     | _ => normalizeTech v = Ok []
     end).
Proof.
  split; [reflexivity|].
  split; [reflexivity|].
  split; [|split].
  - intros elems strs H. apply mapM_Forall2 in H.
    simpl. rewrite H. simpl. now rewrite filter_map_trim.
  - intros s. exists (split_on comma s).
    split; [apply join_split_on|].
    split; [apply split_on_comma_free|].
    simpl. now rewrite filter_map_trim.
  - intros v. destruct v; simpl; auto.
Qed.

Lemma normalizeTech_spec_witness :
  normalizeTech (VArray [VNumber (Int (10 ^ 21)); VNumber (Dyadic 1 1);
                         VString " b "; VNull; VArray [VNumber (Int 7); VNull]])
  = Ok ["1e+21"; "0.5"; "b"; "null"; "7,"].
Proof.
  destruct normalizeTech_spec as (_ & _ & Hseq & _).
  apply (Hseq [VNumber (Int (10 ^ 21)); VNumber (Dyadic 1 1);
               VString " b "; VNull; VArray [VNumber (Int 7); VNull]]
              ["1e+21"; "0.5"; " b "; "null"; "7,"]).
  repeat constructor.
Defined.

(** C9. The claim fails on the code: on an array that holds an object with
    an own [toString] property, which a JSON body can carry, [normalizeTech]
    throws; a create that carries it is answered 500. *)
Theorem normalizeTech_throws :
  normalizeTech (VArray [VObject [("toString", VNumber (Int 1))]])
  = Throw (TypeError "Cannot convert object to primitive value") /\
  post_project sample_env
    (sample_request (Some "Bearer admin-token") ""
       [("title", VString "A title");
        ("description", VString "A long description");
        ("tech", VArray [VObject [("toString", VNumber (Int 1))]])] None)
    sample_world
  = (Response 500 (message "Cannot convert object to primitive value"),
     sample_world).
Proof. split; reflexivity. Qed.

(** Where [normalizeTech] returns, that is on every input but an array with
    an entry that cannot be converted to a string, it is idempotent:
    normalizing the sequence it returned gives that sequence. *)
Lemma normalizeTech_idempotent :
  (forall v, (exists l, normalizeTech v = Ok l) <-> convertible_input v = true) /\
  (forall v l, normalizeTech v = Ok l -> normalizeTech (strings_value l) = Ok l).
Proof.
  split.
  - intros v. destruct v; simpl; try (split; [reflexivity|intros _; eexists; reflexivity]).
    rewrite <- mapM_js_String_convertible. split.
    + intros [l H]. destruct (mapM js_String elems); simpl in H; [eauto|discriminate].
    + intros [strs H]. rewrite H. simpl. eauto.
  - intros v l H.
    assert (Hl : exists strs, l = normalized_sequence strs).
    { destruct v; simpl in H; try (injection H as <-; now exists []).
      - injection H as <-. eexists. apply filter_map_trim.
      - destruct (mapM js_String elems); simpl in H; [|discriminate].
        injection H as <-. eexists. apply filter_map_trim. }
    destruct Hl as [strs ->].
    unfold strings_value. simpl. rewrite mapM_strings. simpl.
    now rewrite filter_map_trim, normalized_sequence_fixed.
Qed.

Example normalizeTech_twice :
  normalizeTech (strings_value ["a"; "b"; "c"]) = Ok ["a"; "b"; "c"].
Proof.
  destruct normalizeTech_idempotent as [_ Hidem].
  apply (Hidem (VString "a, b ,,c")).
  reflexivity.
Defined.

(** ** Identifiers *)

Lemma length_24_nonempty (s : string) :
  (String.length s =? 24)%nat = true -> nonempty s = true.
Proof. destruct s; [discriminate|reflexivity]. Qed.

(** An object id passes [isMongoId]. *)
Lemma object_id_isMongoId (s : string) :
  object_id s = true -> isMongoId s = true.
Proof.
  unfold object_id, isMongoId, isHexadecimal. intros H.
  apply andb_prop in H as [Hlen Hhex].
  now rewrite Hlen, Hhex, (length_24_nonempty s Hlen).
Qed.

Lemma put_catch_status (e : exn) :
  status (put_catch e) = 400 \/ status (put_catch e) = 500.
Proof.
  unfold put_catch. destruct (_ || _); [left|right]; reflexivity.
Qed.

Lemma put_catch_document (e : exn) : document (put_catch e) = None.
Proof. unfold put_catch. destruct (_ || _); reflexivity. Qed.

(** ** AuthGate *)

Lemma verifyToken_bearer (E : env) (req : request) :
  verifyToken E req =
  match bearer req with
  | None => Done (Response 401 (message "Token manquant"))
  | Some t =>
      match jwt_verify E t (secret E) with
      | Some decoded =>
          Continue (set_user
                      (or_else (or_else (or_else (get "id" decoded) (get "_id" decoded))
                                        (get "sub" decoded)) VNull) req)
      | None => Done (Response 401 (message "Token invalide"))
      end
  end.
Proof.
  unfold verifyToken, bearer, secret.
  destruct (authorization req) as [a|]; [|reflexivity].
  destruct (String.prefix "Bearer " a); [|reflexivity].
  destruct (slice 7 a); reflexivity.
Qed.

Lemma verifyToken_rejects (E : env) (req : request) :
  bearer req = None \/
  (exists t, bearer req = Some t /\ jwt_verify E t (secret E) = None) ->
  exists msg, verifyToken E req = Done (Response 401 (message msg)).
Proof.
  rewrite verifyToken_bearer.
  intros [H | (t & H & Hv)]; rewrite H; [|rewrite Hv]; eauto.
Qed.

(** C4. A create, update or delete request with no bearer token, or with
    one that the verification refuses, is answered 401 and leaves the world,
    the log of the calls to the store included, as it was. *)
Theorem unauthenticated_request_rejected (E : env) (req : request) (w : world) :
  bearer req = None \/
  (exists t, bearer req = Some t /\ jwt_verify E t (secret E) = None) ->
  (status (fst (post_project E req w)) = 401 /\ snd (post_project E req w) = w) /\
  (status (fst (put_project E req w)) = 401 /\ snd (put_project E req w) = w) /\
  (status (fst (delete_project E req w)) = 401 /\ snd (delete_project E req w) = w).
Proof.
  intros H. apply verifyToken_rejects in H as [msg H].
  unfold post_project, put_project, delete_project, through.
  rewrite H. simpl. repeat split.
Qed.

Lemma unauthenticated_request_rejected_witness :
  (status (fst (post_project sample_env
                  (sample_request (Some "Bearer forged") "" [] None) sample_world)) = 401
   /\ snd (post_project sample_env
             (sample_request (Some "Bearer forged") "" [] None) sample_world)
      = sample_world) /\
  (status (fst (put_project sample_env
                  (sample_request (Some "Bearer forged") "" [] None) sample_world)) = 401
   /\ snd (put_project sample_env
             (sample_request (Some "Bearer forged") "" [] None) sample_world)
      = sample_world) /\
  (status (fst (delete_project sample_env
                  (sample_request (Some "Bearer forged") "" [] None) sample_world)) = 401
   /\ snd (delete_project sample_env
             (sample_request (Some "Bearer forged") "" [] None) sample_world)
      = sample_world).
Proof.
  apply (unauthenticated_request_rejected sample_env
           (sample_request (Some "Bearer forged") "" [] None) sample_world).
  right. exists "forged". split; reflexivity.
Defined.

Lemma upload_single_not_done (name : string) (req : request) (r : response) :
  upload_single name req <> Done r.
Proof.
  unfold upload_single.
  destruct (file req) as [f|]; [|discriminate].
  destruct (negb (String.eqb (fieldname f) name)); [discriminate|].
  destruct (fileFilter f); [|discriminate].
  destruct (fileSize <? N.of_nat (List.length (buffer f)))%N; discriminate.
Qed.

Lemma handleValidation_status (errors : list verror) (r : response) :
  handleValidation errors = Some r -> status r = 400.
Proof.
  destruct errors; simpl; [discriminate|].
  intros H. injection H as <-. reflexivity.
Qed.

(** Past the token check, no route answers 401. *)
Lemma validated_not_401 (E : env) (rules : list chain) (req : request)
    (k : request -> handler) (w : world) :
  (forall req' w', status (fst (k req' w')) <> 401) ->
  status (fst (validated E rules req k w)) <> 401.
Proof.
  intros Hk. unfold validated.
  destruct (run_chains E rules req) as [[req' errors]|e]; [|simpl; discriminate].
  destruct (handleValidation errors) as [r|] eqn:Hv; [|apply Hk].
  apply handleValidation_status in Hv. simpl. rewrite Hv. discriminate.
Qed.

Lemma uploaded_not_401 (req : request) (k : request -> handler) (w : world) :
  (forall req' w', status (fst (k req' w')) <> 401) ->
  status (fst (through (upload_single "image" req) k w)) <> 401.
Proof.
  intros Hk. unfold through.
  destruct (upload_single "image" req) as [req'|r|e] eqn:Hu.
  - apply Hk.
  - now apply upload_single_not_done in Hu.
  - simpl. discriminate.
Qed.

(** C10. A token that verifies and whose claims hold none of [id], [_id]
    and [sub] passes the check: the request goes on as it came, but for the
    subject attached to it, which is null; and no mutating route answers it
    401. *)
Theorem valid_token_without_subject (E : env) (req : request) (w : world)
    (t : string) (decoded : list (string * value)) :
  bearer req = Some t ->
  jwt_verify E t (secret E) = Some decoded ->
  lookup "id" decoded = None ->
  lookup "_id" decoded = None ->
  lookup "sub" decoded = None ->
  (exists req',
     verifyToken E req = Continue req' /\
     user req' = Some VNull /\
     authorization req' = authorization req /\
     params_id req' = params_id req /\
     query_q req' = query_q req /\
     body req' = body req /\
     file req' = file req) /\
  status (fst (post_project E req w)) <> 401 /\
  status (fst (put_project E req w)) <> 401 /\
  status (fst (delete_project E req w)) <> 401.
Proof.
  intros Hb Hv Hid H_id Hsub.
  assert (Hauth : verifyToken E req = Continue (set_user VNull req)).
  { rewrite verifyToken_bearer, Hb, Hv. unfold get.
    rewrite Hid, H_id, Hsub. reflexivity. }
  split.
  { exists (set_user VNull req). split; [exact Hauth|]. repeat split. }
  unfold post_project, put_project, delete_project.
  rewrite Hauth. unfold through at 1 3 5.
  repeat split.
  - apply uploaded_not_401. intros req1 w1.
    apply validated_not_401. intros req2 w2.
    destruct (db_create _ _ w2) as [[p|e] w3]; simpl; discriminate.
  - apply uploaded_not_401. intros req1 w1.
    apply validated_not_401. intros req2 w2.
    unfold db_findById, db_save.
    destruct (object_id _); [destruct (find _ _); simpl; discriminate|].
    cbn [fst]. destruct (put_catch_status (cast_error (params_id req2)))
      as [-> | ->]; discriminate.
  - apply validated_not_401. intros req2 w2.
    unfold db_findByIdAndDelete.
    destruct (object_id _); [destruct (find _ _)|]; simpl; discriminate.
Qed.

Lemma valid_token_without_subject_witness :
  exists req',
    verifyToken sample_env
      (sample_request (Some "Bearer anonymous-token") "" [] None)
    = Continue req' /\
    user req' = Some VNull.
Proof.
  destruct (valid_token_without_subject sample_env
              (sample_request (Some "Bearer anonymous-token") "" [] None)
              sample_world "anonymous-token" [("role", VString "editor")]
              eq_refl eq_refl eq_refl eq_refl eq_refl)
    as [(req' & Hv & Hu & _) _].
  exists req'. split; [exact Hv|exact Hu].
Defined.

(** ** Get by id *)

Lemma run_chains_idRules (E : env) (req : request) :
  run_chains E idRules req =
  Ok (req, if isMongoId (params_id req) then []
           else [VError (VString (params_id req)) "Invalid value" "id" LParams]).
Proof.
  destruct req as [auth id q b f u].
  unfold idRules, run_chains, run_chain, param_field. cbn -[isMongoId].
  destruct (isMongoId id); reflexivity.
Qed.

(** What a fetch by identifier answers: 400 with no call to the store when
    the identifier does not pass [isMongoId]; 404 when it is an object id
    that no document has; 500, after the call to the store, when it passes
    [isMongoId] and is no object id. *)
Lemma get_by_id_status (E : env) (req : request) (w : world) :
  (isMongoId (params_id req) = false ->
   status (fst (get_project E req w)) = 400 /\ snd (get_project E req w) = w) /\
  (object_id (params_id req) = true ->
   find (same_id (params_id req)) (docs w) = None ->
   status (fst (get_project E req w)) = 404) /\
  (isMongoId (params_id req) = true ->
   object_id (params_id req) = false ->
   status (fst (get_project E req w)) = 500 /\
   snd (get_project E req w) = logged (CallFindById (params_id req)) w).
Proof.
  unfold get_project, validated, db_findById. rewrite run_chains_idRules.
  split; [|split].
  - intros H. rewrite H. simpl. split; reflexivity.
  - intros H Hnone. rewrite (object_id_isMongoId _ H), H. simpl.
    rewrite Hnone. reflexivity.
  - intros H Hno. rewrite H, Hno. simpl. split; reflexivity.
Qed.

(** C6. The claim fails on the code: the identifier
    [0x0123456789abcdef012345] is no object id, yet it passes the rule of
    the route, the store is called with it, and the answer is 500, not
    400. *)
Theorem get_by_id_prefixed_id :
  let req := sample_request None "0x0123456789abcdef012345" [] None in
  object_id (params_id req) = false /\
  isMongoId (params_id req) = true /\
  status (fst (get_project sample_env req sample_world)) = 500 /\
  calls (snd (get_project sample_env req sample_world))
  = [CallFindById "0x0123456789abcdef012345"] /\
  status (fst (get_project sample_env
                 (sample_request None "not-an-id" [] None) sample_world)) = 400 /\
  status (fst (get_project sample_env
                 (sample_request None "0123456789abcdef01234560" [] None)
                 sample_world)) = 404.
Proof. vm_compute. repeat split. Qed.

(** ** Sorting of a listing *)

Lemma precedes_total (a b : project) :
  precedes a b = false -> precedes b a = true.
Proof.
  unfold precedes.
  destruct (featured a), (featured b); simpl; intros H;
    try discriminate; try reflexivity;
    compare_keys; try discriminate; try reflexivity; lia.
Qed.

Lemma precedes_trans (a b c : project) :
  precedes a b = true -> precedes b c = true -> precedes a c = true.
Proof.
  unfold precedes.
  destruct (featured a), (featured b), (featured c); simpl; intros H1 H2;
    try discriminate; try reflexivity;
    compare_keys; try discriminate; try reflexivity; lia.
Qed.

Lemma precedes_listed_before (a b : project) :
  precedes a b = true -> listed_before a b.
Proof.
  unfold precedes, listed_before.
  destruct (featured a), (featured b); simpl; intros H;
    try discriminate;
    compare_keys; try discriminate;
    repeat split; intros; try discriminate; try reflexivity; lia.
Qed.

Lemma insert_sorted_perm (p : project) (l : list project) :
  Permutation (p :: l) (insert_sorted p l).
Proof.
  induction l as [|x rest IH]; simpl; [reflexivity|].
  destruct (precedes p x); [reflexivity|].
  rewrite perm_swap. now constructor.
Qed.

Lemma sort_projects_perm (l : list project) : Permutation l (sort_projects l).
Proof.
  induction l as [|p rest IH]; simpl; [constructor|].
  rewrite <- insert_sorted_perm. now constructor.
Qed.

Lemma insert_sorted_sorted (p : project) (l : list project) :
  StronglySorted (fun a b => precedes a b = true) l ->
  StronglySorted (fun a b => precedes a b = true) (insert_sorted p l).
Proof.
  induction l as [|x rest IH]; simpl; intros Hs.
  - repeat constructor.
  - inversion Hs as [|? ? Hrest Hall]; subst.
    destruct (precedes p x) eqn:Hpx.
    + constructor; [exact Hs|].
      constructor; [exact Hpx|].
      eapply Forall_impl; [|exact Hall].
      intros b Hxb. now apply (precedes_trans p x b).
    + constructor; [now apply IH|].
      apply (Permutation_Forall (insert_sorted_perm p rest)).
      constructor; [now apply precedes_total|exact Hall].
Qed.

Lemma sort_projects_sorted (l : list project) :
  StronglySorted (fun a b => precedes a b = true) (sort_projects l).
Proof.
  induction l as [|p rest IH]; simpl; [constructor|].
  now apply insert_sorted_sorted.
Qed.

Lemma StronglySorted_nth {A : Type} (R : A -> A -> Prop) (l : list A) :
  StronglySorted R l ->
  forall i j a b, i < j -> nth_error l i = Some a -> nth_error l j = Some b -> R a b.
Proof.
  induction 1 as [|x rest Hrest IH Hall]; intros i j a b Hij Hi Hj.
  - destruct i; discriminate.
  - destruct j as [|j]; [lia|].
    destruct i as [|i]; simpl in Hi, Hj.
    + injection Hi as <-.
      rewrite Forall_forall in Hall. apply Hall.
      now apply nth_error_In in Hj.
    + apply (IH i j); [lia|assumption|assumption].
Qed.

Lemma get_projects_listing (req : request) (w : world) (resp : response)
    (w' : world) :
  get_projects req w = Some (resp, w') ->
  exists keep, resp = Response 200 (Docs (sort_projects (List.filter keep (docs w)))).
Proof.
  unfold get_projects, db_find.
  destruct (nonempty _).
  - destruct (compile _) as [r|]; [|discriminate].
    intros H. injection H as <- _. now exists (matches_query r).
  - intros H. injection H as <- _. exists (fun _ => true).
    f_equal. f_equal. f_equal. symmetry.
    apply forallb_filter_id. now apply forallb_forall.
Qed.

(** C3. Whatever the stored projects, a listing is sorted: a featured
    project stands before every project that is not, projects of equal
    [featured] are in ascending [order], and those of equal [featured] and
    [order] are latest first.  A listing with no query is always answered,
    with all the stored projects. *)
Theorem listing_sorted (w : world) :
  (forall req resp w',
     get_projects req w = Some (resp, w') ->
     exists ps, resp = Response 200 (Docs ps) /\
       forall i j a b, i < j -> nth_error ps i = Some a -> nth_error ps j = Some b ->
                       listed_before a b) /\
  (exists ps w',
     get_projects (search_request None) w = Some (Response 200 (Docs ps), w') /\
     Permutation (docs w) ps).
Proof.
  split.
  - intros req resp w' H. apply get_projects_listing in H as [keep ->].
    eexists. split; [reflexivity|].
    intros i j a b Hij Hi Hj. apply precedes_listed_before.
    exact (StronglySorted_nth _ _ (sort_projects_sorted _) i j a b Hij Hi Hj).
  - eexists. eexists. split; [reflexivity|]. apply sort_projects_perm.
Qed.

Lemma listing_sorted_witness :
  exists ps,
    Response 200 (Docs (sort_projects (docs sample_world))) = Response 200 (Docs ps) /\
    forall i j a b, i < j -> nth_error ps i = Some a -> nth_error ps j = Some b ->
                    listed_before a b.
Proof.
  destruct (listing_sorted sample_world) as [Hsorted _].
  apply (Hsorted (search_request None) _ (logged (CallFind None) sample_world)).
  reflexivity.
Defined.

(** ** Search *)

Lemma parse_literal (s : string) :
  forall cur stack,
    literal s = true ->
    parse s cur stack = parse EmptyString (fst cur, lit_pieces s (snd cur)) stack.
Proof.
  induction s as [|c rest IH]; intros cur stack Hlit.
  - destruct cur. reflexivity.
  - unfold literal in Hlit. cbn [all_chars] in Hlit.
    apply andb_prop in Hlit as [Hc Hrest].
    apply negb_true_iff in Hc. pose proof Hc as Hmeta.
    unfold is_meta in Hc. cbn [mem_char] in Hc.
    repeat match type of Hc with
           | (_ || _)%bool = false => apply orb_false_elim in Hc as [? Hc]
           end.
    cbn [parse].
    repeat match goal with
           | H : Ascii.eqb c _ = false |- _ => rewrite H; clear H
           end.
    rewrite Hmeta.
    rewrite (IH (push (Chr c, true) cur) stack Hrest). reflexivity.
Qed.

Lemma seq_regex_lit_pieces (s : string) :
  forall seq acc,
    fold_left (fun acc p => Cat (fst p) acc) (lit_pieces s seq) acc =
    fold_left (fun acc p => Cat (fst p) acc) seq (lits s acc).
Proof.
  induction s as [|c rest IH]; intros seq acc; simpl; [reflexivity|].
  rewrite IH. reflexivity.
Qed.

Lemma compile_literal (q : string) :
  literal q = true -> compile q = Some (lits q Eps).
Proof.
  intros H. unfold compile. rewrite (parse_literal q _ _ H).
  cbn [parse fst snd]. unfold frame_regex, seq_regex. cbn [fst snd fold_left].
  rewrite seq_regex_lit_pieces. reflexivity.
Qed.

Lemma prefix_match_Empty (F : flags) (s : string) :
  forall bol, prefix_match F bol Empty s = false.
Proof.
  induction s as [|c rest IH]; intros bol; [reflexivity|].
  cbn [prefix_match nullable deriv orb]. apply IH.
Qed.

Lemma deriv_lits (F : flags) (bol eol : bool) (c d : ascii) (rest : string) :
  deriv F bol eol c (lits (String d rest) Eps) =
  if char_match F c d then lits rest Eps else Empty.
Proof.
  cbn [lits deriv nullable]. destruct (char_match F c d).
  - destruct rest; reflexivity.
  - reflexivity.
Qed.

Lemma prefix_match_lits (p : bool) (needle : string) :
  forall hay bol,
    prefix_match (Flags true p) bol (lits needle Eps) hay = ci_prefix needle hay.
Proof.
  induction needle as [|d needle' IH]; intros hay bol.
  - destruct hay; reflexivity.
  - destruct hay as [|c hay'].
    + reflexivity.
    + cbn [prefix_match ci_prefix]. rewrite deriv_lits.
      cbn [lits nullable andb orb].
      unfold char_match. cbn [ignore_case].
      rewrite (Ascii.eqb_sym (to_lower d) (to_lower c)).
      destruct (Ascii.eqb (to_lower c) (to_lower d)).
      * apply IH.
      * apply prefix_match_Empty.
Qed.

Lemma search_lits (p : bool) (needle hay : string) :
  forall bol,
    search (Flags true p) bol (lits needle Eps) hay = ci_contains needle hay.
Proof.
  induction hay as [|c hay' IH]; intros bol; cbn [search ci_contains];
    rewrite prefix_match_lits; [reflexivity|].
  now rewrite IH.
Qed.

Lemma matches_query_literal (q : string) (p : project) :
  matches_query (lits q Eps) p = contains_query q p.
Proof.
  unfold matches_query, contains_query.
  rewrite !search_lits. f_equal.
  induction (tech p) as [|t rest IH]; simpl; [reflexivity|].
  now rewrite search_lits, IH.
Qed.

(** *** The matcher and what a pattern matches *)

Lemma append_empty (a b : string) :
  (a ++ b)%string = EmptyString -> a = EmptyString /\ b = EmptyString.
Proof. destruct a; simpl; [auto|discriminate]. Qed.

Lemma append_assoc (a b c : string) :
  ((a ++ b) ++ c)%string = (a ++ (b ++ c))%string.
Proof. induction a as [|x a IH]; simpl; [reflexivity|now rewrite IH]. Qed.

Lemma nullable_matches (F : flags) (r : regex) :
  forall bol rest,
    nullable bol (at_end F rest) r = true <-> matches F bol r EmptyString rest.
Proof.
  induction r as [| |c| | | |r1 IH1 r2 IH2|r1 IH1 r2 IH2|r IH]; intros bol rest; simpl.
  - split; [discriminate|]. intros H. inversion H.
  - split; [constructor|reflexivity].
  - split; [discriminate|]. intros H. inversion H.
  - split; [discriminate|]. intros H. inversion H.
  - split.
    + intros ->. constructor.
    + intros H. inversion H. reflexivity.
  - split.
    + intros H. now constructor.
    + intros H. now inversion H.
  - rewrite andb_true_iff, IH1, IH2. split.
    + intros [H1 H2]. change EmptyString with (EmptyString ++ EmptyString)%string.
      constructor; [exact H1|]. simpl. now rewrite andb_true_r.
    + intros H. inversion H; subst.
      match goal with
      | Hw : (_ ++ _)%string = EmptyString |- _ =>
          apply append_empty in Hw as [-> ->]
      end.
      match goal with
      | H2 : matches _ (_ && _) _ _ _ |- _ =>
          simpl in H2; rewrite andb_true_r in H2
      end.
      auto.
  - rewrite orb_true_iff, IH1, IH2. split.
    + intros [H|H]; [now apply MAltL|now apply MAltR].
    + intros H. inversion H; subst; auto.
  - split; [constructor|reflexivity].
Qed.

Lemma cat_matches (F : flags) (r1 r2 : regex) (bol : bool) (w rest : string) :
  matches F bol (cat r1 r2) w rest <-> matches F bol (Cat r1 r2) w rest.
Proof.
  assert (Hempty : forall r, matches F bol (Cat r Empty) w rest -> False).
  { intros r H. inversion H as [| | | | |? ? ? w1 w2 ? H1 H2| | | |]; subst.
    inversion H2. }
  destruct r1; simpl;
    try (destruct r2; simpl; try reflexivity;
         split; [intros H; inversion H|intros H; now apply Hempty in H]).
  - split; [intros H; inversion H|].
    intros H. inversion H as [| | | | |? ? ? w1 w2 ? H1 H2| | | |]; subst.
    inversion H1.
  - split.
    + intros H. change w with (EmptyString ++ w)%string.
      constructor; [constructor|]. simpl. now rewrite andb_true_r.
    + intros H. inversion H as [| | | | |? ? ? w1 w2 ? H1 H2| | | |]; subst.
      inversion H1; subst. simpl in *. now rewrite andb_true_r in H2.
Qed.

Lemma alt_matches (F : flags) (r1 r2 : regex) (bol : bool) (w rest : string) :
  matches F bol (alt r1 r2) w rest <-> matches F bol (Alt r1 r2) w rest.
Proof.
  assert (HL : matches F bol (Alt Empty r2) w rest <-> matches F bol r2 w rest).
  { split; [|now apply MAltR].
    intros H. inversion H as [| | | | | |? ? ? ? ? H1|? ? ? ? ? H1| |]; subst;
      [inversion H1|exact H1]. }
  assert (HR : matches F bol (Alt r1 Empty) w rest <-> matches F bol r1 w rest).
  { split; [|now apply MAltL].
    intros H. inversion H as [| | | | | |? ? ? ? ? H1|? ? ? ? ? H1| |]; subst;
      [exact H1|inversion H1]. }
  destruct r1; simpl; try (symmetry; exact HL);
    destruct r2; simpl; try reflexivity; symmetry; exact HR.
Qed.

(** One step of matching: the derivative by [c] matches [w] when the
    pattern matches [c] followed by [w]. *)
Lemma deriv_matches_at (F : flags) (c : ascii) (r : regex) :
  forall bol eol w rest,
    eol = at_end F (String c (w ++ rest)) ->
    matches F false (deriv F bol eol c r) w rest <->
    matches F bol r (String c w) rest.
Proof.
  induction r as [| |d| | | |r1 IH1 r2 IH2|r1 IH1 r2 IH2|r IH];
    intros bol eol w rest Heol; cbn [deriv].
  - split; intros H; inv H.
  - split; intros H; inv H.
  - destruct (char_match F c d) eqn:Hc; split; intros H; inv H.
    + now constructor.
    + constructor.
    + congruence.
  - destruct (Ascii.eqb c newline) eqn:Hc; split; intros H; inv H.
    + congruence.
    + now constructor.
    + constructor.
  - split; intros H; inv H.
  - split; intros H; inv H.
  - rewrite alt_matches. split.
    + intros H. inversion H as [| | | | | |? ? ? ? ? HL|? ? ? ? ? HR| |]; subst; clear H.
      * apply cat_matches in HL.
        inversion HL as [| | | | |? ? ? w1 w2 ? H1 H2| | | |]; subst; clear HL.
        apply (IH1 bol _ w1 (w2 ++ rest)%string) in H1;
          [|now rewrite append_assoc].
        change (String c (w1 ++ w2)) with (String c w1 ++ w2)%string.
        constructor; [exact H1|]. simpl. now rewrite andb_false_r.
      * destruct (nullable bol (at_end F (String c (w ++ rest))) r1) eqn:Hn;
          [|inversion HR].
        apply (nullable_matches F r1 bol (String c (w ++ rest))) in Hn.
        apply (IH2 bol _ w rest eq_refl) in HR.
        change (String c w) with (EmptyString ++ String c w)%string.
        constructor; [exact Hn|]. simpl. now rewrite andb_true_r.
    + intros H.
      inversion H as [| | | | |? ? ? w1 w2 ? H1 H2| | | |]; subst; clear H.
      match goal with Heq : (_ ++ _)%string = String c w |- _ => rename Heq into Hw end.
      destruct w1 as [|c' w1]; simpl in Hw.
      * subst w2. apply MAltR.
        apply nullable_matches in H1.
        change (String c w ++ rest)%string with (String c (w ++ rest)) in H1.
        rewrite H1.
        apply (IH2 bol _ w rest eq_refl).
        simpl in H2. now rewrite andb_true_r in H2.
      * injection Hw as -> <-.
        apply MAltL. apply cat_matches. constructor.
        -- apply (IH1 bol _ w1 (w2 ++ rest)%string); [now rewrite append_assoc|].
           exact H1.
        -- simpl in H2. now rewrite andb_false_r in H2.
  - rewrite alt_matches. split.
    + intros H. inversion H; subst.
      * apply MAltL. now apply (IH1 bol _ w rest eq_refl).
      * apply MAltR. now apply (IH2 bol _ w rest eq_refl).
    + intros H. inversion H; subst.
      * apply MAltL. now apply (IH1 bol _ w rest eq_refl).
      * apply MAltR. now apply (IH2 bol _ w rest eq_refl).
  - rewrite cat_matches. split.
    + intros H.
      inversion H as [| | | | |? ? ? w1 w2 ? H1 H2| | | |]; subst; clear H.
      apply (IH bol _ w1 (w2 ++ rest)%string) in H1; [|now rewrite append_assoc].
      change (String c (w1 ++ w2)) with (String c w1 ++ w2)%string.
      constructor; assumption.
    + intros H.
      inversion H as [| | | | | | | | |? ? c' w1 w2 ? H1 H2]; subst; clear H.
      constructor.
      * apply (IH bol _ w1 (w2 ++ rest)%string); [now rewrite append_assoc|].
        exact H1.
      * exact H2.
Qed.

Lemma deriv_matches (F : flags) (c : ascii) (r : regex) (bol : bool)
    (w rest : string) :
  matches F false (deriv F bol (at_end F (String c (w ++ rest))) c r) w rest <->
  matches F bol r (String c w) rest.
Proof. now apply deriv_matches_at. Qed.

(** [prefix_match] decides whether the pattern matches a prefix of the
    subject. *)
Lemma prefix_match_matches (F : flags) (s : string) :
  forall bol r,
    prefix_match F bol r s = true <->
    exists w rest, s = (w ++ rest)%string /\ matches F bol r w rest.
Proof.
  induction s as [|c s' IH]; intros bol r; cbn [prefix_match].
  - rewrite orb_false_r, nullable_matches. split.
    + intros H. exists EmptyString, EmptyString. auto.
    + intros (w & rest & Heq & H). symmetry in Heq.
      apply append_empty in Heq as [-> ->]. exact H.
  - rewrite orb_true_iff, nullable_matches, IH. split.
    + intros [H | (w & rest & -> & H)].
      * exists EmptyString, (String c s'). auto.
      * apply deriv_matches in H. exists (String c w), rest. auto.
    + intros (w & rest & Heq & H). destruct w as [|c' w]; simpl in Heq.
      * left. now subst.
      * injection Heq as <- ->. right. exists w, rest.
        split; [reflexivity|]. now apply deriv_matches.
Qed.

(** [search] decides whether the pattern matches somewhere in the subject. *)
Lemma search_matches (F : flags) (s : string) :
  forall bol r,
    search F bol r s = true <->
    exists pre w rest,
      s = (pre ++ w ++ rest)%string /\ matches F (bol && empty pre) r w rest.
Proof.
  induction s as [|c s' IH]; intros bol r; cbn [search].
  - rewrite orb_false_r, prefix_match_matches. split.
    + intros (w & rest & Heq & H). exists EmptyString, w, rest.
      simpl. rewrite andb_true_r. auto.
    + intros (pre & w & rest & Heq & H). symmetry in Heq.
      apply append_empty in Heq as [-> Heq].
      simpl in H. rewrite andb_true_r in H. exists w, rest. auto.
  - rewrite orb_true_iff, prefix_match_matches, IH. split.
    + intros [(w & rest & Heq & H) | (pre & w & rest & -> & H)].
      * exists EmptyString, w, rest. simpl. rewrite andb_true_r. auto.
      * exists (String c pre), w, rest. simpl in *. rewrite andb_false_r. auto.
    + intros (pre & w & rest & Heq & H). destruct pre as [|c' pre]; simpl in Heq, H.
      * left. rewrite andb_true_r in H. exists w, rest. auto.
      * injection Heq as <- ->. right. rewrite andb_false_r in H.
        exists pre, w, rest. simpl. auto.
Qed.

(** *** Occurrence of a text *)

Lemma ci_prefix_occurs (needle hay : string) :
  ci_prefix needle hay = true <->
  exists mid post, hay = (mid ++ post)%string /\ lower mid = lower needle.
Proof.
  revert hay. induction needle as [|c needle' IH]; intros hay.
  - split; [|reflexivity]. intros _. exists EmptyString, hay. split; reflexivity.
  - destruct hay as [|d hay']; cbn [ci_prefix].
    + split; [discriminate|].
      intros (mid & post & Heq & Hlow).
      destruct mid; [discriminate Hlow|discriminate Heq].
    + rewrite andb_true_iff, Ascii.eqb_eq, IH. split.
      * intros (Hc & mid & post & -> & Hlow).
        exists (String d mid), post. split; [reflexivity|].
        cbn [lower]. now rewrite Hlow, Hc.
      * intros (mid & post & Heq & Hlow).
        destruct mid as [|m mid]; [discriminate Hlow|].
        cbn [lower] in Hlow. injection Hlow as Hm Hlow.
        cbn in Heq. injection Heq as -> ->.
        split; [now symmetry|]. exists mid, post. split; [reflexivity|exact Hlow].
Qed.

(** [ci_contains] is occurrence as a substring, up to the case of letters. *)
Lemma ci_contains_occurs (needle hay : string) :
  ci_contains needle hay = true <->
  exists pre mid post,
    hay = (pre ++ mid ++ post)%string /\ lower mid = lower needle.
Proof.
  induction hay as [|d hay' IH]; cbn [ci_contains].
  - rewrite orb_false_r, ci_prefix_occurs. split.
    + intros (mid & post & Heq & Hlow). exists EmptyString, mid, post. auto.
    + intros (pre & mid & post & Heq & Hlow).
      destruct pre; [|discriminate Heq]. exists mid, post. auto.
  - rewrite orb_true_iff, ci_prefix_occurs, IH. split.
    + intros [(mid & post & Heq & Hlow) | (pre & mid & post & -> & Hlow)].
      * exists EmptyString, mid, post. auto.
      * exists (String d pre), mid, post. auto.
    + intros (pre & mid & post & Heq & Hlow).
      destruct pre as [|p pre].
      * left. exists mid, post. auto.
      * right. cbn in Heq. injection Heq as -> ->. exists pre, mid, post. auto.
Qed.

(** C1, the counterexample: the query [a.c] finds the project titled [abc],
    in which the text [a.c] does not occur. *)
Lemma search_reads_a_pattern :
  get_projects (search_request (Some "a.c")) sample_world
  = Some (Response 200 (Docs [sample_project]),
          logged (CallFind (Some "a.c")) sample_world) /\
  contains_query "a.c" sample_project = false.
Proof. split; reflexivity. Qed.

(** C1, as amended. With no query, or a blank one, the listing holds all
    the stored projects; with a query whose trimmed text has no character
    that a regular expression reads specially, it holds exactly the projects
    in which that text occurs, up to case, in the title, the description or
    an entry of [tech]. *)
Theorem search_by_literal_query (req : request) (w : world) :
  let q := trim (match query_q req with
                 | Some s => s
                 | None => EmptyString
                 end) in
  (q = EmptyString ->
   get_projects req w
   = Some (Response 200 (Docs (sort_projects (docs w))), logged (CallFind None) w)
   /\ Permutation (docs w) (sort_projects (docs w))) /\
  (q <> EmptyString -> literal q = true ->
   exists ps,
     get_projects req w
     = Some (Response 200 (Docs ps), logged (CallFind (Some q)) w) /\
     forall p, In p ps <-> In p (docs w) /\ contains_query q p = true).
Proof.
  intros q. unfold get_projects, db_find. fold q. split.
  - intros Hq. rewrite Hq. simpl. split; [reflexivity|apply sort_projects_perm].
  - intros Hq Hlit.
    destruct q as [|c q'] eqn:Eq; [congruence|]. rewrite <- Eq in *.
    replace (nonempty q) with true by (now rewrite Eq).
    rewrite (compile_literal q Hlit).
    eexists. split; [reflexivity|].
    intros p. split.
    + intros Hin.
      apply (Permutation_in _ (Permutation_sym (sort_projects_perm _))) in Hin.
      apply filter_In in Hin as [Hin Hm].
      now rewrite matches_query_literal in Hm.
    + intros [Hin Hm].
      apply (Permutation_in _ (sort_projects_perm _)).
      apply filter_In. split; [exact Hin|].
      now rewrite matches_query_literal.
Qed.

Lemma search_by_literal_query_witness :
  exists ps,
    get_projects (search_request (Some " Node ")) sample_world
    = Some (Response 200 (Docs ps), logged (CallFind (Some "Node")) sample_world) /\
    forall p, In p ps <-> In p (docs sample_world) /\ contains_query "Node" p = true.
Proof.
  destruct (search_by_literal_query (search_request (Some " Node ")) sample_world)
    as [_ Hquery].
  apply Hquery; [discriminate|reflexivity].
Defined.

(** ** Validator *)

Lemma lookup_set_prop_same (k : string) (v : value) (props : list (string * value)) :
  lookup k (set_prop k v props) = Some v.
Proof.
  induction props as [|[k' v'] rest IH]; simpl.
  - now rewrite String.eqb_refl.
  - destruct (String.eqb k k') eqn:Hk; simpl.
    + now rewrite String.eqb_refl.
    + now rewrite Hk.
Qed.

Lemma lookup_set_prop_other (k k' : string) (v : value)
    (props : list (string * value)) :
  String.eqb k k' = false ->
  lookup k (set_prop k' v props) = lookup k props.
Proof.
  intros Hk. induction props as [|[k0 v0] rest IH]; simpl.
  - now rewrite Hk.
  - destruct (String.eqb k' k0) eqn:Hk0; simpl.
    + apply String.eqb_eq in Hk0. subst k0. now rewrite Hk.
    + destruct (String.eqb k k0); [reflexivity|exact IH].
Qed.

Lemma get_write_same (f : string) (v : value) (req : request) :
  get f (body (write LBody f v req)) = v.
Proof.
  unfold write, get, has_key.
  destruct (lookup f (body req)) as [old|] eqn:Hold.
  - destruct v; simpl; now rewrite lookup_set_prop_same.
  - destruct v; simpl; try now rewrite lookup_set_prop_same.
    now rewrite Hold.
Qed.

Lemma read_write_other (loc loc' : location) (f f' : string) (v : value)
    (req : request) :
  same_location loc loc' && String.eqb f f' = false ->
  read loc f (write loc' f' v req) = read loc f req.
Proof.
  intros Hne. destruct loc, loc'; simpl in Hne; unfold read, write.
  - unfold get.
    destruct v, (has_key f' (body req)); simpl;
      try reflexivity; now rewrite lookup_set_prop_other.
  - destruct v; try reflexivity.
    destruct (String.eqb f' "id"); reflexivity.
  - destruct v, (has_key f' (body req)); reflexivity.
  - destruct v; try reflexivity.
    destruct (String.eqb f' "id") eqn:Hf'; [|reflexivity].
    apply String.eqb_eq in Hf'. subst f'. simpl.
    now rewrite Hne.
Qed.

Lemma write_file (loc : location) (f : string) (v : value) (req : request) :
  file (write loc f v req) = file req.
Proof.
  destruct loc; unfold write.
  - destruct v, (has_key f (body req)); reflexivity.
  - destruct v; try reflexivity.
    destruct (String.eqb f "id"); reflexivity.
Qed.

Lemma write_body_params (f : string) (v : value) (req : request) :
  params_id (write LBody f v req) = params_id req.
Proof.
  unfold write. destruct v, (has_key f (body req)); reflexivity.
Qed.

(** What running a chain amounts to. *)
Lemma run_chain_inv (E : env) (c : chain) (req req' : request)
    (errs : list verror) :
  run_chain E c req = Ok (req', errs) ->
  exists v',
    run_stack E (ch_location c) (ch_field c) (ch_optional c) (ch_stack c)
      (read (ch_location c) (ch_field c) req) = Ok (v', errs) /\
    req' = write (ch_location c) (ch_field c) v' req.
Proof.
  unfold run_chain.
  destruct (run_stack _ _ _ _ _ _) as [[v' e]|x]; simpl; [|discriminate].
  intros H. injection H as <- <-. eauto.
Qed.

Lemma run_chains_cons_inv (E : env) (c : chain) (cs : list chain)
    (req req' : request) (errs : list verror) :
  run_chains E (c :: cs) req = Ok (req', errs) ->
  exists req1 e1 e2,
    run_chain E c req = Ok (req1, e1) /\
    run_chains E cs req1 = Ok (req', e2) /\
    errs = e1 ++ e2.
Proof.
  simpl.
  destruct (run_chain E c req) as [[req1 e1]|x]; simpl; [|discriminate].
  destruct (run_chains E cs req1) as [[req2 e2]|x] eqn:H2; simpl; [|discriminate].
  intros H. injection H as <- <-. exists req1, e1, e2. auto.
Qed.









(** A chain does not stop at its first failure: a title that is not a
    string and whose text is too short is reported twice. *)
Example title_reported_twice :
  chain_errors sample_env
    (body_field "title" Required [IsString; Trim; IsLength 2 120])
    (sample_request None "" [("title", VNumber (Int 5))] None)
  = [VError (VNumber (Int 5)) "Invalid value" "title" LBody;
     VError (VString "5") "Invalid value" "title" LBody].
Proof. reflexivity. Qed.



(** A create with no title: the record of the missing title is sent
    without the key [value]; past [trim], the value is the empty string. *)
Example missing_field_sent :
  map keys (map wire (errors_of (fst (post_project sample_env
     (sample_request (Some "Bearer admin-token") ""
        [("description", VString "A long description")] None) sample_world))))
  = [["type"; "msg"; "path"; "location"];
     ["type"; "value"; "msg"; "path"; "location"]].
Proof. reflexivity. Qed.

(** A request with a title that is too short and a [tech] on which the
    sanitizer throws is answered 500, with none of its violations. *)
Example sanitizer_throws :
  post_project sample_env
    (sample_request (Some "Bearer admin-token") ""
       [("title", VString "x");
        ("tech", VArray [VObject [("toString", VNumber (Int 1))]])] None)
    sample_world
  = (Response 500 (message "Cannot convert object to primitive value"),
     sample_world).
Proof. reflexivity. Qed.



(** ** Base64 *)

(** The test vectors of RFC 4648. *)
Example base64_vectors :
  map base64 [[]; [x66]; [x66; x6f]; [x66; x6f; x6f]; [x66; x6f; x6f; x62];
              [x66; x6f; x6f; x62; x61]; [x66; x6f; x6f; x62; x61; x72]]
  = [""; "Zg=="; "Zm8="; "Zm9v"; "Zm9vYg=="; "Zm9vYmE="; "Zm9vYmFy"].
Proof. reflexivity. Qed.

Lemma b64_value_digit (k : N) : (k < 64)%N -> b64_value (b64_digit k) = Some k.
Proof.
  intros H. destruct k as [|p]; [reflexivity|].
  do 6 (destruct p as [p|p|]; try reflexivity);
    exfalso; revert H; clear; intros H; lia.
Qed.

Lemma lor_shiftl_low (d c k : N) :
  (c < 2 ^ k)%N -> N.lor (N.shiftl d k) c = (d * 2 ^ k + c)%N.
Proof.
  intros Hc.
  assert (Hland : N.land (N.shiftl d k) c = 0%N).
  { apply N.bits_inj. intros i. rewrite N.land_spec, N.bits_0.
    destruct (N.lt_ge_cases i k) as [Hi | Hi].
    - now rewrite N.shiftl_spec_low.
    - replace c with (c mod 2 ^ k)%N by now apply N.mod_small.
      rewrite N.mod_pow2_bits_high by exact Hi. apply andb_false_r. }
  rewrite <- N.lxor_lor by exact Hland.
  rewrite <- N.add_nocarry_lxor by exact Hland.
  now rewrite N.shiftl_mul_pow2.
Qed.

Lemma byte_bound (b : byte) : (Byte.to_N b < 256)%N.
Proof. pose proof (Byte.to_N_bounded b). lia. Qed.

Lemma sextet_value (n shift : N) :
  sextet n shift = b64_digit ((n / 2 ^ shift) mod 64).
Proof.
  unfold sextet. change 63%N with (N.ones 6).
  now rewrite N.land_ones, N.shiftr_div_pow2.
Qed.

Lemma block3 (a b c : N) :
  (a < 256)%N -> (b < 256)%N -> (c < 256)%N ->
  let n := N.lor (N.lor (N.shiftl a 16) (N.shiftl b 8)) c in
  n = (a * 65536 + b * 256 + c)%N.
Proof.
  intros Ha Hb Hc n. subst n.
  replace (N.shiftl a 16) with (N.shiftl (N.shiftl a 8) 8)
    by (rewrite N.shiftl_shiftl; reflexivity).
  rewrite <- N.shiftl_lor.
  rewrite (lor_shiftl_low a b 8) by exact Hb.
  rewrite lor_shiftl_low by exact Hc.
  change (2 ^ 8)%N with 256%N. lia.
Qed.

Lemma octets_bytes (l : list byte) : octets (map Byte.to_N l) = Some l.
Proof.
  induction l as [|b rest IH]; [reflexivity|].
  cbn [map octets fold_right]. fold (octets (map Byte.to_N rest)).
  now rewrite Byte.of_to_N, IH.
Qed.

(** Decoding what [base64] wrote gives the bytes back. *)
Lemma b64_decode_base64 (bs : list byte) : b64_decode (base64 bs) = Some bs.
Proof.
  induction bs as [|a|a b|a b c rest IH] using by_three.
  - reflexivity.
  - pose proof (byte_bound a) as Ha.
    cbn [base64]. rewrite !sextet_value. cbn [b64_decode].
    rewrite N.shiftl_mul_pow2.
    rewrite !b64_value_digit by (apply N.mod_lt; discriminate).
    change (b64_value "=") with (@None N). cbn [is_pad Ascii.eqb Bool.eqb andb].
    change (2 ^ 16)%N with 65536%N. change (2 ^ 18)%N with 262144%N.
    change (2 ^ 12)%N with 4096%N.
    replace ((Byte.to_N a * 65536 / 4096) mod 64 mod 16 =? 0)%N with true
      by (symmetry; apply N.eqb_eq; arith).
    replace ((Byte.to_N a * 65536 / 262144) mod 64 * 4
             + (Byte.to_N a * 65536 / 4096) mod 64 / 16)%N
      with (Byte.to_N a) by arith.
    apply (octets_bytes [a]).
  - pose proof (byte_bound a) as Ha. pose proof (byte_bound b) as Hb.
    cbn [base64]. rewrite !sextet_value. cbn [b64_decode].
    replace (N.lor (N.shiftl (Byte.to_N a) 16) (N.shiftl (Byte.to_N b) 8))
      with (Byte.to_N a * 65536 + Byte.to_N b * 256)%N
      by (rewrite <- (N.add_0_r (_ + _)), <- (block3 _ _ 0%N Ha Hb eq_refl);
          now rewrite N.lor_0_r).
    rewrite !b64_value_digit by (apply N.mod_lt; discriminate).
    change (b64_value "=") with (@None N). cbn [is_pad Ascii.eqb Bool.eqb andb].
    change (2 ^ 6)%N with 64%N. change (2 ^ 18)%N with 262144%N.
    change (2 ^ 12)%N with 4096%N.
    set (n := (Byte.to_N a * 65536 + Byte.to_N b * 256)%N).
    replace ((n / 64) mod 64 mod 4 =? 0)%N with true
      by (symmetry; apply N.eqb_eq; subst n; arith).
    replace ((n / 262144) mod 64 * 4 + (n / 4096) mod 64 / 16)%N
      with (Byte.to_N a) by (subst n; arith).
    replace ((n / 4096) mod 64 mod 16 * 16 + (n / 64) mod 64 / 4)%N
      with (Byte.to_N b) by (subst n; arith).
    apply (octets_bytes [a; b]).
  - pose proof (byte_bound a) as Ha. pose proof (byte_bound b) as Hb.
    pose proof (byte_bound c) as Hc.
    cbn [base64]. rewrite !sextet_value. cbn [b64_decode].
    rewrite (block3 _ _ _ Ha Hb Hc).
    rewrite !b64_value_digit by (apply N.mod_lt; discriminate).
    rewrite IH.
    change (2 ^ 6)%N with 64%N. change (2 ^ 18)%N with 262144%N.
    change (2 ^ 12)%N with 4096%N. change (2 ^ 0)%N with 1%N.
    set (n := (Byte.to_N a * 65536 + Byte.to_N b * 256 + Byte.to_N c)%N).
    replace ((n / 262144) mod 64 * 4 + (n / 4096) mod 64 / 16)%N
      with (Byte.to_N a) by (subst n; arith).
    replace ((n / 4096) mod 64 mod 16 * 16 + (n / 64) mod 64 / 4)%N
      with (Byte.to_N b) by (subst n; arith).
    replace ((n / 64) mod 64 mod 4 * 64 + (n / 1) mod 64)%N
      with (Byte.to_N c) by (subst n; arith).
    pose proof (octets_bytes [a; b; c]) as Ho. cbn [map] in Ho.
    rewrite Ho. reflexivity.
Qed.

Lemma bufferToDataUrl_data_url (u : upload) :
  nonempty (mimetype u) = true ->
  exists s, bufferToDataUrl (Some u) = Some s /\
            data_url (mimetype u) (buffer u) s.
Proof.
  intros Hm. cbn [bufferToDataUrl]. rewrite Hm.
  eexists. split; [reflexivity|].
  eexists. split; [reflexivity|apply b64_decode_base64].
Qed.

(** ** Update *)

Lemma get_write_other (f f' : string) (v : value) (req : request) :
  String.eqb f f' = false ->
  get f (body (write LBody f' v req)) = get f (body req).
Proof.
  intros H. apply (read_write_other LBody LBody f f' v req). exact H.
Qed.

(** A run of chains on fields of the body: the identifier and the file stay,
    a field that no chain addresses stays, and the field of a chain holds
    what the chain's stack made of the value that came. *)
Lemma run_chains_body (E : env) (cs : list chain) :
  Forall (fun c => ch_location c = LBody) cs ->
  distinct_fields cs = true ->
  forall req req' errs,
    run_chains E cs req = Ok (req', errs) ->
    params_id req' = params_id req /\
    file req' = file req /\
    (forall f, forallb (fun c => negb (String.eqb f (ch_field c))) cs = true ->
               get f (body req') = get f (body req)) /\
    (forall c, In c cs ->
       exists v' e,
         run_stack E LBody (ch_field c) (ch_optional c) (ch_stack c)
           (get (ch_field c) (body req)) = Ok (v', e) /\
         get (ch_field c) (body req') = v' /\
         (errs = [] -> e = [])).
Proof.
  induction cs as [|c rest IH]; intros Hloc Hd req req' errs H.
  - simpl in H. injection H as <- <-.
    repeat split; try reflexivity. intros c [].
  - inversion Hloc as [|? ? Hc Hrest]; subst.
    simpl in Hd. apply andb_prop in Hd as [Hfresh Hd].
    apply run_chains_cons_inv in H as (req1 & e1 & e2 & H1 & H2 & ->).
    apply run_chain_inv in H1 as (v1 & H1 & ->).
    rewrite Hc in *.
    destruct (IH Hrest Hd _ _ _ H2) as (Hid & Hfile & Hkeep & Hfields).
    assert (Hc_kept : get (ch_field c) (body req') = v1).
    { rewrite Hkeep; [apply get_write_same|].
      rewrite forallb_forall in Hfresh. apply forallb_forall.
      intros c' Hin. specialize (Hfresh c' Hin).
      unfold same_field in Hfresh. rewrite Hc in Hfresh.
      rewrite Forall_forall in Hrest. rewrite (Hrest c' Hin) in Hfresh.
      exact Hfresh. }
    split; [now rewrite Hid, write_body_params|].
    split; [now rewrite Hfile, write_file|].
    split.
    + intros f Hf. simpl in Hf. apply andb_prop in Hf as [Hfc Hf].
      rewrite (Hkeep f Hf). apply get_write_other.
      now apply negb_true_iff in Hfc.
    + intros c' [<- | Hin].
      * exists v1, e1. split; [exact H1|]. split; [exact Hc_kept|].
        intros Hnil. now apply app_eq_nil in Hnil.
      * destruct (Hfields c' Hin) as (v' & e & Hrun & Hget & Hnil).
        exists v', e. split; [|split; [exact Hget|]].
        -- rewrite <- Hrun. f_equal. symmetry. apply get_write_other.
           rewrite forallb_forall in Hfresh. specialize (Hfresh c' Hin).
           unfold same_field in Hfresh. rewrite Hc in Hfresh.
           rewrite Forall_forall in Hrest. rewrite (Hrest c' Hin) in Hfresh.
           apply negb_true_iff in Hfresh. simpl in Hfresh.
           now rewrite String.eqb_sym.
        -- intros Happ. apply app_eq_nil in Happ as [_ Happ]. now apply Hnil.
Qed.

Lemma bind_inv {A B : Type} (m : res A) (k : A -> res B) (b : B) :
  bind m k = Ok b -> exists a, m = Ok a /\ k a = Ok b.
Proof.
  destruct m as [a|e]; simpl; [eauto|discriminate].
Qed.

(** A text field under [isString().trim().isLength(...)]. *)
Lemma stack_text (E : env) (f : string) (a b : nat) (v v' : value) :
  run_stack E LBody f (Optional false) [IsString; Trim; IsLength a b] v
  = Ok (v', []) ->
  match v with
  | VUndefined => v' = VUndefined
  | VString s => v' = VString (trim s)
  | _ => False
  end.
Proof.
  intros H. destruct v as [| |b0|n|s|elems|props]; cbn -[trim isLength] in H;
    try discriminate H;
    try (apply bind_inv in H as (r' & _ & H); discriminate H).
  - now injection H as <-.
  - destruct (isLength a b (trim s)); cbn in H; [|discriminate H].
    now injection H as <-.
Qed.

(** A chain made of a validator leaves the value as it came. *)
Lemma stack_validator (E : env) (f : string) (o : optionality) (v v' : value)
    (e : list verror) :
  run_stack E LBody f o [IsURL] v = Ok (v', e) -> v' = v.
Proof.
  cbn. destruct (skipped o v).
  - intros H. now injection H as <- _.
  - intros H. apply bind_inv in H as ([v1 e1] & H1 & H).
    cbn in H. injection H as <- _.
    apply bind_inv in H1 as (errs & _ & H1). now injection H1 as <- _.
Qed.

(** [tech] under [optional({checkFalsy: true}).customSanitizer(normalizeTech)]. *)
Lemma stack_tech (E : env) (f : string) (v v' : value) (e : list verror) :
  run_stack E LBody f (Optional true) [CustomSanitizer normalizeTech] v
  = Ok (v', e) ->
  if truthy v
  then exists l, normalizeTech v = Ok l /\ v' = strings_value l
  else v' = v.
Proof.
  cbn -[normalizeTech]. destruct (truthy v); cbn -[normalizeTech].
  - intros H. apply bind_inv in H as ([v1 e1] & H1 & H).
    cbn in H. injection H as <- _.
    apply bind_inv in H1 as (l & Hl & H1). injection H1 as <- _. eauto.
  - intros H. now injection H as <- _.
Qed.

(** A field under [optional()] and one standard sanitizer. *)
Lemma stack_sanitizer (E : env) (f : string) (it : item) (g : string -> value)
    (v v' : value) (e : list verror) :
  (forall x, run_item E LBody f it x
             = (y <- std_sanitization g x ;; Ok (y, []))) ->
  run_stack E LBody f (Optional false) [it] v = Ok (v', e) ->
  match v with
  | VUndefined => v' = VUndefined
  | VArray _ => exists l, v' = VArray l
  | _ => exists s, ev_toString v = Ok s /\ v' = g s
  end.
Proof.
  intros Hit. cbn -[run_item]. rewrite Hit.
  destruct v as [| |b0|n|s|elems|props]; cbn -[ev_toString]; intros H;
    try (now injection H as <- _);
    apply bind_inv in H as ([v1 e1] & H1 & H); cbn in H; injection H as <- _;
    apply bind_inv in H1 as (y & Hy & H1); injection H1 as <- _;
    apply bind_inv in Hy as (str & Hs & Hy); injection Hy as <-; eauto.
Qed.

Lemma run_chain_id (E : env) (req : request) :
  run_chain E (param_field "id" Required [IsMongoId]) req =
  Ok (req, if isMongoId (params_id req) then []
           else [VError (VString (params_id req)) "Invalid value" "id" LParams]).
Proof.
  destruct req as [auth id q b f u].
  unfold run_chain, param_field. cbn -[isMongoId].
  destruct (isMongoId id); reflexivity.
Qed.

(** What the update rules leave in the request when they report no error. *)
Lemma updateRules_sanitized (E : env) (req req' : request) :
  run_chains E updateRules req = Ok (req', []) ->
  params_id req' = params_id req /\
  file req' = file req /\
  match get "title" (body req) with
  | VUndefined => get "title" (body req') = VUndefined
  | VString s => get "title" (body req') = VString (trim s)
  | _ => False
  end /\
  match get "description" (body req) with
  | VUndefined => get "description" (body req') = VUndefined
  | VString s => get "description" (body req') = VString (trim s)
  | _ => False
  end /\
  (if truthy (get "tech" (body req))
   then exists l, normalizeTech (get "tech" (body req)) = Ok l /\
                  get "tech" (body req') = strings_value l
   else get "tech" (body req') = get "tech" (body req)) /\
  get "githubUrl" (body req') = get "githubUrl" (body req) /\
  get "demoUrl" (body req') = get "demoUrl" (body req) /\
  match get "featured" (body req) with
  | VUndefined => get "featured" (body req') = VUndefined
  | VArray _ => exists l, get "featured" (body req') = VArray l
  | v => exists s, ev_toString v = Ok s /\
                   get "featured" (body req') = VBool (toBoolean s)
  end /\
  match get "order" (body req) with
  | VUndefined => get "order" (body req') = VUndefined
  | VArray _ => exists l, get "order" (body req') = VArray l
  | v => exists s, ev_toString v = Ok s /\
                   get "order" (body req') = VNumber (parseInt s)
  end.
Proof.
  intros H. unfold updateRules in H.
  apply run_chains_cons_inv in H as (req1 & e1 & e2 & H1 & H2 & Happ).
  rewrite run_chain_id in H1. injection H1 as <- _.
  symmetry in Happ. apply app_eq_nil in Happ as [_ ->].
  apply run_chains_body in H2 as (Hid & Hfile & _ & Hfields);
    [|repeat constructor|reflexivity].
  split; [exact Hid|]. split; [exact Hfile|].
  repeat split.
  - destruct (Hfields (body_field "title" (Optional false)
                         [IsString; Trim; IsLength 2 120]))
      as (v' & e & Hrun & Hget & Hnil); [simpl; auto|].
    rewrite (Hnil eq_refl) in Hrun. apply stack_text in Hrun.
    cbn [ch_field body_field] in *. rewrite Hget.
    destruct (get "title" (body req)); auto.
  - destruct (Hfields (body_field "description" (Optional false)
                         [IsString; Trim; IsLength 10 3000]))
      as (v' & e & Hrun & Hget & Hnil); [simpl; auto|].
    rewrite (Hnil eq_refl) in Hrun. apply stack_text in Hrun.
    cbn [ch_field body_field] in *. rewrite Hget.
    destruct (get "description" (body req)); auto.
  - destruct (Hfields (body_field "tech" (Optional true)
                         [CustomSanitizer normalizeTech]))
      as (v' & e & Hrun & Hget & Hnil); [simpl; auto 10|].
    apply stack_tech in Hrun.
    cbn [ch_field body_field] in *. rewrite Hget. exact Hrun.
  - destruct (Hfields (body_field "githubUrl" (Optional true) [IsURL]))
      as (v' & e & Hrun & Hget & Hnil); [simpl; auto 10|].
    apply stack_validator in Hrun.
    cbn [ch_field body_field] in *. now rewrite Hget.
  - destruct (Hfields (body_field "demoUrl" (Optional true) [IsURL]))
      as (v' & e & Hrun & Hget & Hnil); [simpl; auto 10|].
    apply stack_validator in Hrun.
    cbn [ch_field body_field] in *. now rewrite Hget.
  - destruct (Hfields (body_field "featured" (Optional false) [ToBoolean]))
      as (v' & e & Hrun & Hget & Hnil); [simpl; auto 10|].
    apply (stack_sanitizer E _ _ (fun s => VBool (toBoolean s))) in Hrun;
      [|reflexivity].
    cbn [ch_field body_field] in *. rewrite Hget.
    destruct (get "featured" (body req)); exact Hrun.
  - destruct (Hfields (body_field "order" (Optional false) [ToInt]))
      as (v' & e & Hrun & Hget & Hnil); [simpl; auto 10|].
    apply (stack_sanitizer E _ _ (fun s => VNumber (parseInt s))) in Hrun;
      [|reflexivity].
    cbn [ch_field body_field] in *. rewrite Hget.
    destruct (get "order" (body req)); exact Hrun.
Qed.

Lemma verifyToken_inv (E : env) (req : request) :
  (exists msg, verifyToken E req = Done (Response 401 (message msg))) \/
  (exists u, verifyToken E req = Continue (set_user u req)).
Proof.
  rewrite verifyToken_bearer.
  destruct (bearer req) as [t|]; [|eauto].
  destruct (jwt_verify E t (secret E)); eauto.
Qed.

Lemma upload_single_inv (name : string) (req req' : request) :
  upload_single name req = Continue req' ->
  req' = req /\
  match file req with
  | None => True
  | Some u =>
      fieldname u = name /\ fileFilter u = Ok tt /\
      (N.of_nat (List.length (buffer u)) <= fileSize)%N
  end.
Proof.
  unfold upload_single.
  destruct (file req) as [u|].
  - destruct (String.eqb (fieldname u) name) eqn:Hn; simpl; [|discriminate].
    destruct (fileFilter u) as [[]|e]; [|discriminate].
    destruct (fileSize <? N.of_nat (List.length (buffer u)))%N eqn:Hs;
      [discriminate|].
    intros H. injection H as <-.
    apply String.eqb_eq in Hn. apply N.ltb_ge in Hs. auto.
  - intros H. injection H as <-. auto.
Qed.

Lemma upload_single_refuses (name : string) (req : request) (u : upload) :
  file req = Some u ->
  fileFilter u <> Ok tt \/ (fileSize < N.of_nat (List.length (buffer u)))%N ->
  exists e, upload_single name req = Raised e.
Proof.
  intros Hf Hbad. unfold upload_single. rewrite Hf.
  destruct (negb (String.eqb (fieldname u) name)); [eauto|].
  destruct (fileFilter u) as [[]|e]; [|eauto].
  destruct Hbad as [Hbad|Hbad]; [congruence|].
  apply N.ltb_lt in Hbad. rewrite Hbad. eauto.
Qed.

Lemma fileFilter_mimetype (u : upload) :
  fileFilter u = Ok tt -> nonempty (mimetype u) = true.
Proof.
  unfold fileFilter. destruct (mimetype u); [discriminate|reflexivity].
Qed.

Lemma run_chains_file (E : env) (cs : list chain) :
  forall req req' errs,
    run_chains E cs req = Ok (req', errs) -> file req' = file req.
Proof.
  induction cs as [|c rest IH]; intros req req' errs H.
  - simpl in H. now injection H as <- _.
  - apply run_chains_cons_inv in H as (req1 & e1 & e2 & H1 & H2 & _).
    apply run_chain_inv in H1 as (v' & _ & ->).
    rewrite (IH _ _ _ H2). apply write_file.
Qed.

Lemma as_strings_strings (l : list string) : as_strings (map VString l) = l.
Proof.
  unfold as_strings. induction l as [|s rest IH]; simpl; [reflexivity|].
  now rewrite IH.
Qed.

(** The outcomes of an update: nothing stored changes and no document is
    sent, or the addressed document is replaced by the merge of the
    sanitized request into it. *)
Lemma put_project_cases (E : env) (req : request) (w : world) :
  (document (fst (put_project E req w)) = None /\
   docs (snd (put_project E req w)) = docs w) \/
  (exists u req' proj,
     object_id (params_id req) = true /\
     upload_single "image" (set_user u req) = Continue (set_user u req) /\
     run_chains E updateRules (set_user u req) = Ok (req', []) /\
     find (same_id (params_id req)) (docs w) = Some proj /\
     fst (put_project E req w)
     = Response 200 (Doc (merge (body req') (file req) proj)) /\
     docs (snd (put_project E req w))
     = replace_doc (merge (body req') (file req) proj) (docs w)).
Proof.
  unfold put_project, through.
  destruct (verifyToken_inv E req) as [[msg ->] | [u ->]]; [left; auto|].
  destruct (upload_single "image" (set_user u req)) as [req1|r|e] eqn:Hup;
    [|now apply upload_single_not_done in Hup|left; auto].
  pose proof (upload_single_inv _ _ _ Hup) as [-> _].
  unfold validated.
  destruct (run_chains E updateRules (set_user u req)) as [[req' errs]|e] eqn:Hrun;
    [|left; auto].
  destruct errs as [|err errs]; [|left; auto].
  cbn [handleValidation].
  pose proof (updateRules_sanitized _ _ _ Hrun) as (Hid & Hfile & _).
  cbn [set_user params_id file] in Hid, Hfile.
  unfold db_findById. rewrite Hid, Hfile.
  destruct (object_id (params_id req)) eqn:Hoid;
    [|left; cbn [fst snd logged docs]; split;
      [apply put_catch_document|reflexivity]].
  destruct (find (same_id (params_id req)) (docs w)) as [proj|] eqn:Hfind;
    [|left; auto].
  right. exists u, req', proj. cbn. auto 7.
Qed.

Lemma merge_policy (E : env) (req req' : request) (u : value) (proj : project) :
  upload_single "image" (set_user u req) = Continue (set_user u req) ->
  run_chains E updateRules (set_user u req) = Ok (req', []) ->
  update_policy (body req) (file req) proj (merge (body req') (file req) proj).
Proof.
  intros Hup Hrun.
  apply updateRules_sanitized in Hrun
    as (_ & _ & Ht & Hd & Hte & Hg & Hdm & Hf & Ho).
  apply upload_single_inv in Hup as [_ Hup].
  cbn [set_user body file] in *.
  unfold update_policy, merge. cbn [_id createdAt title description tech
    githubUrl demoUrl featured order coverImage].
  repeat split.
  - destruct (get "title" (body req)); try contradiction; rewrite Ht;
      [reflexivity|apply trim_idempotent].
  - destruct (get "description" (body req)); try contradiction; rewrite Hd;
      [reflexivity|apply trim_idempotent].
  - destruct (truthy (get "tech" (body req))) eqn:Htr.
    + destruct Hte as (l & Hl & ->). unfold strings_value.
      now rewrite as_strings_strings.
    + rewrite Hte. destruct (get "tech" (body req)); try reflexivity.
      discriminate Htr.
  - rewrite Hg. destruct (get "githubUrl" (body req)); reflexivity.
  - rewrite Hdm. destruct (get "demoUrl" (body req)); reflexivity.
  - destruct (get "featured" (body req));
      try (destruct Hf as (s' & Hs & ->); exists s'; now split).
    + now rewrite Hf.
    + destruct Hf as (l & ->). reflexivity.
  - destruct (get "order" (body req));
      try (destruct Ho as (s' & Hs & ->); exists s'; split; [exact Hs|];
           destruct (parseInt s'); reflexivity).
    + now rewrite Ho.
    + destruct Ho as (l & ->). reflexivity.
  - destruct (file req) as [up|]; [|reflexivity].
    destruct Hup as (_ & Hfilter & _).
    apply bufferToDataUrl_data_url. now apply fileFilter_mimetype.
Qed.

(** A title alone, with a token that verifies, a well-formed identifier of
    a stored document and a trimmed length within bounds: the document is
    stored again with the new title. *)
Lemma update_title_only_stored (E : env) (req : request) (w : world)
    (tok t : string) (decoded : list (string * value)) (proj : project) :
  bearer req = Some tok ->
  jwt_verify E tok (secret E) = Some decoded ->
  file req = None ->
  body req = [("title", VString t)] ->
  object_id (params_id req) = true ->
  isLength 2 120 (trim t) = true ->
  find (same_id (params_id req)) (docs w) = Some proj ->
  fst (put_project E req w) = Response 200 (Doc (with_title (trim t) proj)) /\
  docs (snd (put_project E req w))
  = replace_doc (with_title (trim t) proj) (docs w).
Proof.
  intros Hb Hv Hfile Hbody Hid Hlen Hfind.
  unfold put_project, through.
  rewrite verifyToken_bearer, Hb, Hv.
  destruct req as [auth id q b f u]. cbn [file body params_id] in *. subst f b.
  unfold upload_single, set_user.
  cbn [file authorization params_id query_q body user].
  unfold validated, updateRules, run_chains.
  rewrite run_chain_id. cbn [params_id]. rewrite (object_id_isMongoId _ Hid).
  lazy -[trim isLength same_id find replace_doc docs with_title object_id].
  rewrite Hlen.
  lazy -[trim isLength same_id find replace_doc docs with_title object_id].
  rewrite Hid, Hfind.
  lazy -[trim same_id find replace_doc docs].
  rewrite trim_idempotent.
  split; reflexivity.
Qed.

(** C2, the counterexample: a request whose [tech] is the number 5 empties
    the stored [tech]. *)
Lemma update_overwrites_tech :
  get "tech" [("tech", VNumber (Int 5))] = VNumber (Int 5) /\
  tech sample_project = ["node"; "C++"] /\
  option_map tech
    (document (fst (put_project sample_env
                      (sample_request (Some "Bearer admin-token")
                         "0123456789abcdef01234567"
                         [("tech", VNumber (Int 5))] None)
                      sample_world)))
  = Some [].
Proof. repeat split. Qed.

(** The [order] of an update goes through [toInt] and [Number.isFinite]:
    the number [1e21] is written ["1e+21"] and read back as 1; digits past
    the largest double give an infinity, which is not stored. *)
Example update_order_conversions :
  map (fun v =>
         option_map order
           (document (fst (put_project sample_env
                             (sample_request (Some "Bearer admin-token")
                                "0123456789abcdef01234567" [("order", v)] None)
                             sample_world))))
      [VNumber (Int (10 ^ 21)); VString ("1" ++ zeros 400);
       VString "9007199254740993"; VNumber (Dyadic 15 1); VString "abc"]
  = [Some 1; Some 2; Some 9007199254740992; Some 7; Some 2]%Z.
Proof. vm_compute. reflexivity. Qed.

(** An update that only carries a title. *)
Example update_title_only :
  fst (put_project sample_env
         (sample_request (Some "Bearer admin-token") "0123456789ABCDEF01234567"
            [("title", VString " New title ")] None)
         sample_world)
  = Response 200 (Doc (with_title "New title" sample_project)).
Proof. reflexivity. Qed.

(** C2, as amended. An update either stores nothing, or replaces the
    addressed document by one that differs from it only as [update_policy]
    allows: a text field or the cover changes only when the request carries
    a string or an upload for it, while [tech], [featured] and [order]
    change when the value of the request, as converted by the sanitizers of
    the update rules, has the expected type.  A request whose body is a
    title alone changes the title alone, and it does so whenever it passes
    the token check and the rules and addresses a stored document. *)
Theorem update_merges_fields (E : env) (req : request) (w : world) :
  ((document (fst (put_project E req w)) = None /\
    docs (snd (put_project E req w)) = docs w) \/
   (exists proj saved,
      find (same_id (params_id req)) (docs w) = Some proj /\
      fst (put_project E req w) = Response 200 (Doc saved) /\
      docs (snd (put_project E req w)) = replace_doc saved (docs w) /\
      update_policy (body req) (file req) proj saved /\
      (forall t, body req = [("title", VString t)] -> file req = None ->
                 saved = with_title (trim t) proj))) /\
  (forall tok decoded t proj,
     bearer req = Some tok ->
     jwt_verify E tok (secret E) = Some decoded ->
     file req = None ->
     body req = [("title", VString t)] ->
     object_id (params_id req) = true ->
     isLength 2 120 (trim t) = true ->
     find (same_id (params_id req)) (docs w) = Some proj ->
     fst (put_project E req w) = Response 200 (Doc (with_title (trim t) proj)) /\
     docs (snd (put_project E req w))
     = replace_doc (with_title (trim t) proj) (docs w)).
Proof.
  split; [|intros tok decoded t proj; apply update_title_only_stored].
  destruct (put_project_cases E req w)
    as [Hnone | (u & req' & proj & _ & Hup & Hrun & Hfind & Hresp & Hdocs)];
    [now left|right].
  exists proj, (merge (body req') (file req) proj).
  pose proof (merge_policy E req req' u proj Hup Hrun) as Hpolicy.
  split; [exact Hfind|]. split; [exact Hresp|]. split; [exact Hdocs|].
  split; [exact Hpolicy|].
  intros t Hbody Hfile.
  rewrite Hbody in Hpolicy. rewrite Hfile in Hpolicy |- *. clear - Hpolicy.
  set (saved := merge (body req') None proj) in *. clearbody saved.
  destruct Hpolicy as (H1 & H2 & H3 & H4 & H5 & H6 & H7 & H8 & H9 & H10).
  destruct saved, proj. unfold with_title. cbn in *. congruence.
Qed.

Lemma update_merges_fields_witness :
  fst (put_project sample_env
         (sample_request (Some "Bearer admin-token") "0123456789abcdef01234567"
            [("title", VString " New title ")] None)
         sample_world)
  = Response 200 (Doc (with_title "New title" sample_project)) /\
  docs (snd (put_project sample_env
               (sample_request (Some "Bearer admin-token")
                  "0123456789abcdef01234567"
                  [("title", VString " New title ")] None)
               sample_world))
  = replace_doc (with_title "New title" sample_project) (docs sample_world).
Proof.
  apply (proj2 (update_merges_fields sample_env
                  (sample_request (Some "Bearer admin-token")
                     "0123456789abcdef01234567"
                     [("title", VString " New title ")] None)
                  sample_world)
               "admin-token" [("id", VString "admin")] " New title "
               sample_project);
    reflexivity.
Defined.

(** ** ImageIngestor *)

(** The content types that the filter lets through, and some it does not. *)
Example fileFilter_examples :
  map (fun m => fileFilter (Upload "image" m []))
      ["image/jpeg"; "image/jpg"; "image/png"; "image/webp"; "IMAGE/PNG"]
  = [Ok tt; Ok tt; Ok tt; Ok tt; Ok tt] /\
  Forall (fun m => fileFilter (Upload "image" m []) <> Ok tt)
         ["text/plain"; "image/gif"; "image/pngx"; "ximage/png"; "image/"; ""].
Proof.
  split; [reflexivity|].
  repeat constructor; discriminate.
Qed.

Lemma db_create_cover (fields : list (string * value)) (cover : option string)
    (w w' : world) (p : project) :
  db_create fields cover w = (Ok p, w') -> coverImage p = cover.
Proof.
  unfold db_create.
  destruct (cast_string (get "title" fields)); cbn [bind]; [|discriminate].
  destruct (cast_string (get "description" fields)); cbn [bind]; [|discriminate].
  destruct (cast_strings (get "tech" fields)); cbn [bind]; [|discriminate].
  destruct (cast_string (get "githubUrl" fields)); cbn [bind]; [|discriminate].
  destruct (cast_string (get "demoUrl" fields)); cbn [bind]; [|discriminate].
  destruct (cast_bool (get "featured" fields)); cbn [bind]; [|discriminate].
  destruct (cast_number (get "order" fields)); cbn [bind]; [|discriminate].
  intros H. injection H as <- _. reflexivity.
Qed.

(** The cover of a created document is the data URL of the upload. *)
Lemma post_project_cover (E : env) (req : request) (w : world) (p : project) :
  document (fst (post_project E req w)) = Some p ->
  coverImage p = bufferToDataUrl (file req).
Proof.
  unfold post_project, through.
  destruct (verifyToken_inv E req) as [[msg ->] | [u ->]]; [discriminate|].
  destruct (upload_single "image" (set_user u req)) as [req1|r|e] eqn:Hup;
    [|now apply upload_single_not_done in Hup|discriminate].
  apply upload_single_inv in Hup as [-> _].
  unfold validated.
  destruct (run_chains E createRules (set_user u req)) as [[req' errs]|e] eqn:Hrun;
    [|discriminate].
  destruct errs as [|err errs]; [|discriminate].
  cbn [handleValidation].
  apply run_chains_file in Hrun. cbn [set_user file] in Hrun. rewrite Hrun.
  destruct (db_create _ _ w) as [[p'|e] w'] eqn:Hc; [|discriminate].
  cbn. intros H. injection H as <-.
  apply db_create_cover in Hc. rewrite Hc.
  destruct (file req); reflexivity.
Qed.

Lemma put_project_cover (E : env) (req : request) (w : world) (p : project)
    (u : upload) :
  file req = Some u ->
  document (fst (put_project E req w)) = Some p ->
  coverImage p = bufferToDataUrl (file req).
Proof.
  intros Hf.
  destruct (put_project_cases E req w)
    as [[Hnone _] | (x & req' & proj & _ & _ & _ & _ & Hresp & _)].
  - rewrite Hnone. discriminate.
  - rewrite Hresp. cbn. intros H. injection H as <-.
    rewrite Hf. reflexivity.
Qed.

Lemma upload_refused (E : env) (req : request) (w : world) (u : upload) :
  file req = Some u ->
  fileFilter u <> Ok tt \/ (fileSize < N.of_nat (List.length (buffer u)))%N ->
  refused (post_project E req w) w /\ refused (put_project E req w) w.
Proof.
  intros Hf Hbad. unfold refused, post_project, put_project, through.
  destruct (verifyToken_inv E req) as [[msg ->] | [x ->]]; [cbn; auto|].
  destruct (upload_single_refuses "image" (set_user x req) u Hf Hbad) as [e ->].
  cbn. auto.
Qed.

(** C5. An upload declared [text/plain], and one of 4 MiB and one byte, are
    turned down with nothing stored and no call to the store; a PNG within
    the limit is accepted and its cover is ["data:image/png;base64,"]
    followed by a text that, read as base64, is the sequence of its bytes,
    in a created as in an updated document; the declared type of an accepted
    upload is kept as it is. *)
Theorem image_ingestion (E : env) (req : request) (w : world) (u : upload) :
  file req = Some u ->
  (mimetype u = "text/plain" ->
   refused (post_project E req w) w /\ refused (put_project E req w) w) /\
  (N.of_nat (List.length (buffer u)) = (fileSize + 1)%N ->
   refused (post_project E req w) w /\ refused (put_project E req w) w) /\
  (fieldname u = "image" -> mimetype u = "image/png" ->
   (N.of_nat (List.length (buffer u)) <= fileSize)%N ->
   upload_single "image" req = Continue req /\
   exists s,
     bufferToDataUrl (file req) = Some s /\
     data_url "image/png" (buffer u) s /\
     (forall p, document (fst (post_project E req w)) = Some p ->
                coverImage p = Some s) /\
     (forall p, document (fst (put_project E req w)) = Some p ->
                coverImage p = Some s)) /\
  (upload_single "image" req = Continue req ->
   exists s, bufferToDataUrl (file req) = Some s /\
             data_url (mimetype u) (buffer u) s).
Proof.
  intros Hf. split; [|split; [|split]].
  - intros Hm. apply (upload_refused E req w u Hf). left.
    unfold fileFilter. rewrite Hm. discriminate.
  - intros Hs. apply (upload_refused E req w u Hf). right.
    rewrite Hs. lia.
  - intros Hn Hm Hs.
    split.
    + unfold upload_single, fileFilter. rewrite Hf, Hn, Hm.
      apply N.ltb_ge in Hs. rewrite Hs. reflexivity.
    + destruct (bufferToDataUrl_data_url u) as (s & Hurl & Hdata);
        [now rewrite Hm|].
      rewrite Hm in Hdata. rewrite <- Hf in Hurl.
      exists s. split; [exact Hurl|]. split; [exact Hdata|]. split.
      * intros p Hp. rewrite <- Hurl. now apply (post_project_cover E req w).
      * intros p Hp. rewrite <- Hurl. now apply (put_project_cover E req w p u).
  - intros Hup. apply upload_single_inv in Hup as [_ Hup].
    rewrite Hf in Hup. destruct Hup as (_ & Hfilter & _).
    apply fileFilter_mimetype in Hfilter.
    rewrite Hf. now apply bufferToDataUrl_data_url.
Qed.

(** A create and an update that carry the first bytes of a PNG file. *)
Example create_with_cover :
  option_map coverImage
    (document (fst (post_project sample_env
                      (sample_request (Some "Bearer admin-token") ""
                         [("title", VString "A title");
                          ("description", VString "A long description")]
                         (Some (Upload "image" "image/png" png_signature)))
                      sample_world)))
  = Some (Some "data:image/png;base64,iVBORw0KGgo=").
Proof. reflexivity. Qed.

Example update_with_cover :
  option_map coverImage
    (document (fst (put_project sample_env
                      (sample_request (Some "Bearer admin-token")
                         "0123456789abcdef01234567" []
                         (Some (Upload "image" "image/png" png_signature)))
                      sample_world)))
  = Some (Some "data:image/png;base64,iVBORw0KGgo=").
Proof. reflexivity. Qed.

Lemma image_ingestion_witness :
  (refused (post_project sample_env
              (sample_request (Some "Bearer admin-token") ""
                 [] (Some (Upload "image" "text/plain" png_signature)))
              sample_world) sample_world /\
   refused (put_project sample_env
              (sample_request (Some "Bearer admin-token") ""
                 [] (Some (Upload "image" "text/plain" png_signature)))
              sample_world) sample_world) /\
  (refused (post_project sample_env
              (sample_request (Some "Bearer admin-token") ""
                 [] (Some (Upload "image" "image/png" oversized)))
              sample_world) sample_world /\
   refused (put_project sample_env
              (sample_request (Some "Bearer admin-token") ""
                 [] (Some (Upload "image" "image/png" oversized)))
              sample_world) sample_world) /\
  (exists s,
     bufferToDataUrl (Some (Upload "image" "image/png" png_signature)) = Some s /\
     data_url "image/png" png_signature s).
Proof.
  split; [|split].
  - apply (proj1 (image_ingestion sample_env
             (sample_request (Some "Bearer admin-token") ""
                [] (Some (Upload "image" "text/plain" png_signature)))
             sample_world (Upload "image" "text/plain" png_signature)
             eq_refl)).
    reflexivity.
  - apply (proj1 (proj2 (image_ingestion sample_env
             (sample_request (Some "Bearer admin-token") ""
                [] (Some (Upload "image" "image/png" oversized)))
             sample_world (Upload "image" "image/png" oversized)
             eq_refl))).
    unfold oversized. cbn [buffer]. rewrite repeat_length.
    apply N2Nat.id.
  - destruct (proj1 (proj2 (proj2 (image_ingestion sample_env
             (sample_request (Some "Bearer admin-token") ""
                [] (Some (Upload "image" "image/png" png_signature)))
             sample_world (Upload "image" "image/png" png_signature)
             eq_refl))) eq_refl eq_refl) as (_ & s & Hurl & Hdata & _);
      [discriminate|].
    exists s. split; [exact Hurl|exact Hdata].
Defined.

(* ================================================================== *)
(** * Further properties *)

(** ** AuthGate, in full *)

Lemma prefix_slice (p a : string) :
  String.prefix p a = true -> a = (p ++ slice (String.length p) a)%string.
Proof.
  revert a. induction p as [|c p IH]; intros a; [reflexivity|].
  destruct a as [|d a]; simpl; [discriminate|].
  destruct (ascii_dec c d) as [<-|]; [|discriminate].
  intros H. f_equal. now apply IH.
Qed.

Lemma prefix_append (p t : string) : String.prefix p (p ++ t) = true.
Proof.
  induction p as [|c p IH]; simpl; [now destruct t|].
  destruct (ascii_dec c c); [exact IH|congruence].
Qed.

Lemma slice_append (p t : string) : slice (String.length p) (p ++ t) = t.
Proof. induction p as [|c p IH]; simpl; [reflexivity|exact IH]. Qed.

Lemma bearer_token (req : request) (t : string) :
  bearer req = Some t <->
  authorization req = Some ("Bearer " ++ t)%string /\ t <> EmptyString.
Proof.
  unfold bearer. split.
  - destruct (authorization req) as [a|]; [|discriminate].
    destruct (String.prefix "Bearer " a) eqn:Hp; [|discriminate].
    apply prefix_slice in Hp.
    change (String.length "Bearer ") with 7 in Hp.
    destruct (slice 7 a) as [|c s] eqn:Hs; [discriminate|].
    intros H. injection H as <-. split; [now rewrite Hp at 1|discriminate].
  - intros [-> Hne].
    rewrite (prefix_append "Bearer " t).
    change 7 with (String.length "Bearer ").
    rewrite slice_append. destruct t; [congruence|reflexivity].
Qed.

Lemma attributed_subject (decoded : list (string * value)) (u : value) :
  attributed decoded u <->
  u = or_else (or_else (or_else (get "id" decoded) (get "_id" decoded))
                       (get "sub" decoded)) VNull.
Proof.
  unfold attributed, or_else.
  destruct (truthy (get "id" decoded)) eqn:H1;
    destruct (truthy (get "_id" decoded)) eqn:H2;
    destruct (truthy (get "sub" decoded)) eqn:H3;
    rewrite ?H1, ?H2, ?H3, ?H1, ?H2, ?H3; cbn [truthy];
    intuition congruence.
Qed.

(** X1. [verifyToken] lets a request through exactly when its header is
    ["Bearer "] followed by a non-empty token that verifies under the secret
    of the environment, or under ["dev_secret"] when there is none; the
    request then goes on with every field as it came but the subject, which
    is the first truthy claim among [id], [_id] and [sub], or null.  In
    every other case the answer is 401; the middleware never calls [next]
    with an error. *)
Theorem verifyToken_continues_iff (E : env) (req : request) :
  (forall req',
     verifyToken E req = Continue req' <->
     exists t decoded u,
       authorization req = Some ("Bearer " ++ t)%string /\
       t <> EmptyString /\
       jwt_verify E t
         (match JWT_SECRET E with
          | Some (String c s) => String c s
          | _ => "dev_secret"
          end) = Some decoded /\
       attributed decoded u /\
       req' = Request (authorization req) (params_id req) (query_q req)
                      (body req) (file req) (Some u)) /\
  (forall r, verifyToken E req = Done r -> status r = 401) /\
  (forall e, verifyToken E req <> Raised e).
Proof.
  assert (Hsecret : secret E = match JWT_SECRET E with
                               | Some (String c s) => String c s
                               | _ => "dev_secret"
                               end).
  { unfold secret. destruct (JWT_SECRET E) as [[|c s]|]; reflexivity. }
  rewrite <- Hsecret. rewrite verifyToken_bearer.
  split; [|split].
  - intros req'. split.
    + destruct (bearer req) as [t|] eqn:Hb; [|discriminate].
      apply bearer_token in Hb as [Ha Hne].
      destruct (jwt_verify E t (secret E)) as [decoded|] eqn:Hv; [|discriminate].
      intros H. injection H as <-. exists t, decoded. eexists.
      split; [exact Ha|]. split; [exact Hne|]. split; [exact Hv|].
      split; [|reflexivity]. now apply attributed_subject.
    + intros (t & decoded & u & Ha & Hne & Hv & Hu & ->).
      rewrite (proj2 (bearer_token req t) (conj Ha Hne)), Hv.
      apply attributed_subject in Hu. subst u. reflexivity.
  - intros r. destruct (bearer req) as [t|].
    + destruct (jwt_verify E t (secret E)); [discriminate|].
      intros H. now injection H as <-.
    + intros H. now injection H as <-.
  - intros e. destruct (bearer req) as [t|]; [|discriminate].
    destruct (jwt_verify E t (secret E)); discriminate.
Qed.

(** A token whose claims hold an empty [id] and a [sub]: the subject is the
    [sub]. *)
Example verifyToken_subject :
  let E := Env (Some "s")
               (fun t s => if String.eqb t "tok" && String.eqb s "s"
                           then Some [("id", VString ""); ("sub", VString "u1")]
                           else None)
               (fun _ => true) in
  verifyToken E (sample_request (Some "Bearer tok") "" [] None)
  = Continue (Request (Some "Bearer tok") "" None [] None (Some (VString "u1"))).
Proof. reflexivity. Qed.

(** ** Reading *)

(** X3. A fetch by identifier answers 200 exactly when the identifier is an
    object id and a stored document has it, letter case apart; the document
    it sends is that stored document, and no document changes. *)
Theorem get_by_id_finds (E : env) (req : request) (w : world) :
  (status (fst (get_project E req w)) = 200 <->
   object_id (params_id req) = true /\
   exists p, find (same_id (params_id req)) (docs w) = Some p) /\
  (forall p, document (fst (get_project E req w)) = Some p ->
             In p (docs w) /\ lower (_id p) = lower (params_id req)) /\
  docs (snd (get_project E req w)) = docs w.
Proof.
  unfold get_project, validated, db_findById. rewrite run_chains_idRules.
  destruct (object_id (params_id req)) eqn:Hoid.
  - rewrite (object_id_isMongoId _ Hoid). cbn [handleValidation].
    destruct (find (same_id (params_id req)) (docs w)) as [p|] eqn:Hfind; cbn.
    + split; [|split].
      * split; [eauto|reflexivity].
      * intros q Hq. injection Hq as <-. apply find_some in Hfind as [Hin Hid].
        apply String.eqb_eq in Hid. auto.
      * reflexivity.
    + split; [|split].
      * split; [discriminate|]. intros [_ [p Hp]]. discriminate.
      * discriminate.
      * reflexivity.
  - destruct (isMongoId (params_id req)); cbn; (split; [|split]);
      try discriminate; try reflexivity;
      (split; [discriminate|]); intros [Hf _]; discriminate.
Qed.

(** ** Delete *)

Lemma find_none_not_same (id : string) (l : list project) :
  find (same_id id) l = None <-> Forall (fun d => same_id id d = false) l.
Proof.
  induction l as [|d rest IH]; simpl.
  - split; [constructor|reflexivity].
  - destruct (same_id id d) eqn:Hd.
    + split; [discriminate|]. intros H. inversion H. congruence.
    + rewrite IH. split; [now constructor|]. intros H. now inversion H.
Qed.

Lemma remove_doc_none (id : string) (l : list project) :
  find (same_id id) l = None -> remove_doc id l = l.
Proof.
  induction l as [|d rest IH]; simpl; [reflexivity|].
  destruct (same_id id d); [discriminate|].
  intros H. now rewrite IH.
Qed.

Lemma remove_doc_split (id : string) (l : list project) (p : project) :
  find (same_id id) l = Some p ->
  exists l1 l2,
    l = l1 ++ p :: l2 /\ remove_doc id l = l1 ++ l2 /\
    Forall (fun d => same_id id d = false) l1.
Proof.
  induction l as [|d rest IH]; simpl; [discriminate|].
  destruct (same_id id d) eqn:Hd.
  - intros H. injection H as <-. exists [], rest. repeat split. constructor.
  - intros H. destruct (IH H) as (l1 & l2 & -> & -> & Hl1).
    exists (d :: l1), l2. repeat split. now constructor.
Qed.

Lemma unique_ids_find_none (id : string) (l1 l2 : list project) (p : project) :
  unique_ids (l1 ++ p :: l2) ->
  same_id id p = true ->
  find (same_id id) (l1 ++ l2) = None.
Proof.
  unfold unique_ids. intros Hu Hp.
  apply String.eqb_eq in Hp.
  rewrite map_app in Hu. cbn [map] in Hu.
  apply NoDup_remove_2 in Hu.
  apply find_none_not_same. apply Forall_forall. intros d Hd.
  unfold same_id. apply String.eqb_neq. intros Heq.
  apply Hu. rewrite <- map_app, Hp, <- Heq.
  now apply (in_map (fun q => lower (_id q))).
Qed.

Lemma unique_ids_remove (l1 l2 : list project) (p : project) :
  unique_ids (l1 ++ p :: l2) -> unique_ids (l1 ++ l2).
Proof.
  unfold unique_ids. rewrite !map_app. cbn [map]. apply NoDup_remove_1.
Qed.

(** The outcomes of a delete. *)
Lemma delete_project_cases (E : env) (req : request) (w : world) :
  (snd (delete_project E req w) = w /\
   (status (fst (delete_project E req w)) = 400 \/
    status (fst (delete_project E req w)) = 401)) \/
  (isMongoId (params_id req) = true /\
   object_id (params_id req) = false /\
   (exists u, verifyToken E req = Continue (set_user u req)) /\
   status (fst (delete_project E req w)) = 500 /\
   snd (delete_project E req w)
   = logged (CallFindByIdAndDelete (params_id req)) w) \/
  (object_id (params_id req) = true /\
   (exists u, verifyToken E req = Continue (set_user u req)) /\
   match find (same_id (params_id req)) (docs w) with
   | None =>
       fst (delete_project E req w) = Response 404 (message "Projet introuvable")
   | Some p =>
       fst (delete_project E req w)
       = Response 200 (JSON (VObject [("ok", VBool true);
                                      ("id", VString (params_id req))]))
   end /\
   snd (delete_project E req w)
   = World (remove_doc (params_id req) (docs w))
           (calls w ++ [CallFindByIdAndDelete (params_id req)])
           (next_oid w) (now w)).
Proof.
  unfold delete_project, through.
  destruct (verifyToken_inv E req) as [[msg Hv] | [u Hv]]; rewrite Hv.
  - left. cbn. auto.
  - unfold validated. rewrite run_chains_idRules.
    cbn [set_user params_id].
    destruct (isMongoId (params_id req)) eqn:Hid; cbn [handleValidation];
      [|left; cbn; auto].
    unfold db_findByIdAndDelete.
    destruct (object_id (params_id req)) eqn:Hoid.
    + right. right. split; [reflexivity|]. split; [eauto|].
      destruct (find (same_id (params_id req)) (docs w)); cbn; auto.
    + right. left. cbn. eauto 7.
Qed.

(** X4. A delete that passes the token check with an object id removes the
    first stored document with that identifier and nothing else, answering
    [{ok: true, id}]; when no document has it, the answer is 404 and the
    documents are as they were. *)
Theorem delete_removes_one (E : env) (req : request) (w : world) (u : value) :
  verifyToken E req = Continue (set_user u req) ->
  object_id (params_id req) = true ->
  match find (same_id (params_id req)) (docs w) with
  | None =>
      fst (delete_project E req w) = Response 404 (message "Projet introuvable") /\
      docs (snd (delete_project E req w)) = docs w
  | Some p =>
      fst (delete_project E req w)
      = Response 200 (JSON (VObject [("ok", VBool true);
                                     ("id", VString (params_id req))])) /\
      exists l1 l2,
        docs w = l1 ++ p :: l2 /\
        docs (snd (delete_project E req w)) = l1 ++ l2 /\
        Forall (fun d => same_id (params_id req) d = false) l1
  end.
Proof.
  intros Hv Hid.
  destruct (delete_project_cases E req w)
    as [[_ Hs] | [(_ & Hno & _) | (_ & _ & Hresp & Hw)]].
  - exfalso. revert Hs.
    unfold delete_project, through, validated.
    rewrite Hv, run_chains_idRules. cbn [set_user params_id].
    rewrite (object_id_isMongoId _ Hid).
    cbn [handleValidation]. unfold db_findByIdAndDelete. rewrite Hid.
    destruct (find _ _); cbn; intros [H | H]; discriminate.
  - congruence.
  - rewrite Hw. cbn [docs].
    destruct (find (same_id (params_id req)) (docs w)) as [p|] eqn:Hfind.
    + split; [exact Hresp|].
      destruct (remove_doc_split _ _ _ Hfind) as (l1 & l2 & H1 & H2 & H3).
      exists l1, l2. auto.
    + split; [exact Hresp|]. now apply remove_doc_none.
Qed.

Lemma delete_removes_one_witness :
  fst (delete_project sample_env
         (sample_request (Some "Bearer admin-token") "0123456789ABCDEF01234567"
            [] None) sample_world)
  = Response 200 (JSON (VObject [("ok", VBool true);
                                 ("id", VString "0123456789ABCDEF01234567")])) /\
  exists l1 l2,
    docs sample_world = l1 ++ sample_project :: l2 /\
    docs (snd (delete_project sample_env
                 (sample_request (Some "Bearer admin-token")
                    "0123456789ABCDEF01234567" [] None) sample_world))
    = l1 ++ l2 /\
    Forall (fun d => same_id "0123456789ABCDEF01234567" d = false) l1.
Proof.
  exact (delete_removes_one sample_env
           (sample_request (Some "Bearer admin-token") "0123456789ABCDEF01234567"
              [] None) sample_world (VString "admin") eq_refl eq_refl).
Defined.

(** X5. Where identifiers are unique, a document that was deleted is gone:
    fetching the same identifier afterwards is answered 404, and so is
    deleting it again. *)
Theorem delete_then_get (E : env) (req : request) (w : world) :
  unique_ids (docs w) ->
  status (fst (delete_project E req w)) = 200 ->
  unique_ids (docs (snd (delete_project E req w))) /\
  (forall E' req',
     params_id req' = params_id req ->
     status (fst (get_project E' req' (snd (delete_project E req w)))) = 404) /\
  status (fst (delete_project E req (snd (delete_project E req w)))) = 404.
Proof.
  intros Hu H200.
  destruct (delete_project_cases E req w)
    as [[_ [Hs | Hs]] | [(_ & _ & _ & Hs & _) | (Hid & [u Hv] & Hresp & Hw)]];
    try congruence.
  destruct (find (same_id (params_id req)) (docs w)) as [p|] eqn:Hfind;
    [|rewrite Hresp in H200; discriminate].
  destruct (remove_doc_split _ _ _ Hfind) as (l1 & l2 & H1 & H2 & H3).
  assert (Hgone : find (same_id (params_id req))
                    (docs (snd (delete_project E req w))) = None).
  { rewrite Hw. cbn [docs]. rewrite H2.
    apply (unique_ids_find_none _ l1 l2 p); [now rewrite <- H1|].
    now apply find_some in Hfind. }
  split; [|split].
  - rewrite Hw. cbn [docs]. rewrite H2.
    apply (unique_ids_remove l1 l2 p). now rewrite <- H1.
  - intros E' req' Hsame.
    unfold get_project, validated, db_findById.
    rewrite run_chains_idRules, Hsame, (object_id_isMongoId _ Hid), Hid.
    cbn [handleValidation]. rewrite Hgone. reflexivity.
  - unfold delete_project at 1. unfold through, validated.
    rewrite Hv, run_chains_idRules. cbn [set_user params_id].
    rewrite (object_id_isMongoId _ Hid).
    cbn [handleValidation]. unfold db_findByIdAndDelete. rewrite Hid, Hgone.
    reflexivity.
Qed.

Lemma delete_then_get_witness :
  status (fst (get_project sample_env
                 (sample_request None "0123456789abcdef01234567" [] None)
                 (snd (delete_project sample_env
                         (sample_request (Some "Bearer admin-token")
                            "0123456789abcdef01234567" [] None)
                         sample_world)))) = 404.
Proof.
  refine (proj1 (proj2
    (delete_then_get sample_env
       (sample_request (Some "Bearer admin-token") "0123456789abcdef01234567"
          [] None) sample_world _ eq_refl)) sample_env _ eq_refl).
  unfold unique_ids. cbn.
  repeat constructor; cbn; intuition discriminate.
Defined.

(** ** Update *)

Lemma replace_doc_split (id : string) (saved proj : project) (l : list project) :
  find (same_id id) l = Some proj ->
  _id saved = _id proj ->
  exists l1 l2,
    l = l1 ++ proj :: l2 /\ replace_doc saved l = l1 ++ saved :: l2 /\
    Forall (fun d => same_id id d = false) l1.
Proof.
  intros Hfind Hid.
  pose proof (find_some _ _ Hfind) as [_ Hproj].
  apply String.eqb_eq in Hproj.
  induction l as [|d rest IH]; simpl in *; [discriminate|].
  destruct (same_id id d) eqn:Hd.
  - injection Hfind as ->.
    unfold same_id at 1. rewrite Hid, String.eqb_refl.
    exists [], rest. repeat split. constructor.
  - assert (Hsd : same_id (_id saved) d = false).
    { unfold same_id in *. now rewrite Hid, Hproj. }
    rewrite Hsd. destruct (IH Hfind) as (l1 & l2 & -> & -> & Hl1).
    exists (d :: l1), l2. repeat split. now constructor.
Qed.

Lemma updateRules_id (E : env) (req req' : request) :
  run_chains E updateRules req = Ok (req', []) ->
  isMongoId (params_id req) = true.
Proof.
  intros H. unfold updateRules in H.
  apply run_chains_cons_inv in H as (req1 & e1 & e2 & H1 & _ & Happ).
  rewrite run_chain_id in H1. injection H1 as _ <-.
  destruct (isMongoId (params_id req)); [reflexivity|discriminate].
Qed.

(** A text field that passed [isString().trim().isLength(...)] has, once
    trimmed, a length within the bounds. *)
Lemma stack_text_bounds (E : env) (f : string) (a b : nat) (s : string)
    (v' : value) :
  run_stack E LBody f (Optional false) [IsString; Trim; IsLength a b] (VString s)
  = Ok (v', []) ->
  isLength a b (trim s) = true.
Proof.
  cbn -[trim isLength]. intros H.
  destruct (isLength a b (trim s)); [reflexivity|discriminate H].
Qed.

Lemma updateRules_bounds (E : env) (req req' : request) :
  run_chains E updateRules req = Ok (req', []) ->
  (forall s, get "title" (body req) = VString s ->
             isLength 2 120 (trim s) = true) /\
  (forall s, get "description" (body req) = VString s ->
             isLength 10 3000 (trim s) = true).
Proof.
  intros H. unfold updateRules in H.
  apply run_chains_cons_inv in H as (req1 & e1 & e2 & H1 & H2 & Happ).
  rewrite run_chain_id in H1. injection H1 as <- _.
  symmetry in Happ. apply app_eq_nil in Happ as [_ ->].
  apply run_chains_body in H2 as (_ & _ & _ & Hfields);
    [|repeat constructor|reflexivity].
  split; intros s Hs.
  - destruct (Hfields (body_field "title" (Optional false)
                         [IsString; Trim; IsLength 2 120]))
      as (v' & e & Hrun & _ & Hnil); [simpl; auto|].
    rewrite (Hnil eq_refl) in Hrun.
    cbn [ch_field ch_optional ch_stack body_field] in Hrun.
    rewrite Hs in Hrun. now apply stack_text_bounds in Hrun.
  - destruct (Hfields (body_field "description" (Optional false)
                         [IsString; Trim; IsLength 10 3000]))
      as (v' & e & Hrun & _ & Hnil); [simpl; auto|].
    rewrite (Hnil eq_refl) in Hrun.
    cbn [ch_field ch_optional ch_stack body_field] in Hrun.
    rewrite Hs in Hrun. now apply stack_text_bounds in Hrun.
Qed.

(** The outcomes of an update, with the place of the replaced document. *)
Lemma put_project_split (E : env) (req : request) (w : world) :
  (document (fst (put_project E req w)) = None /\
   docs (snd (put_project E req w)) = docs w) \/
  (exists u req' proj l1 l2,
     object_id (params_id req) = true /\
     run_chains E updateRules (set_user u req) = Ok (req', []) /\
     fst (put_project E req w)
     = Response 200 (Doc (merge (body req') (file req) proj)) /\
     same_id (params_id req) proj = true /\
     docs w = l1 ++ proj :: l2 /\
     docs (snd (put_project E req w))
     = l1 ++ merge (body req') (file req) proj :: l2 /\
     Forall (fun d => same_id (params_id req) d = false) l1).
Proof.
  destruct (put_project_cases E req w)
    as [H | (u & req' & proj & Hoid & _ & Hrun & Hfind & Hresp & Hdocs)];
    [now left|].
  right.
  destruct (replace_doc_split (params_id req) (merge (body req') (file req) proj)
              proj (docs w) Hfind eq_refl) as (l1 & l2 & H1 & H2 & H3).
  exists u, req', proj, l1, l2.
  rewrite Hdocs. apply find_some in Hfind as [_ Hfind]. auto 12.
Qed.

(** X6. An update never adds, removes, reorders or re-identifies a document
    and never changes a creation time; where identifiers are unique they
    stay so.  The one document it may change is the first with the
    identifier of the request, which the document sent replaces in place. *)
Theorem update_in_place (E : env) (req : request) (w : world) :
  map _id (docs (snd (put_project E req w))) = map _id (docs w) /\
  map createdAt (docs (snd (put_project E req w))) = map createdAt (docs w) /\
  (unique_ids (docs w) -> unique_ids (docs (snd (put_project E req w)))) /\
  match document (fst (put_project E req w)) with
  | None => docs (snd (put_project E req w)) = docs w
  | Some saved =>
      exists l1 proj l2,
        docs w = l1 ++ proj :: l2 /\
        docs (snd (put_project E req w)) = l1 ++ saved :: l2 /\
        same_id (params_id req) proj = true /\
        Forall (fun d => same_id (params_id req) d = false) l1
  end.
Proof.
  destruct (put_project_split E req w)
    as [[Hdoc Hdocs]
       | (u & req' & proj & l1 & l2 & _ & _ & Hresp & Hid & Hw & Hw' & Hl1)].
  - rewrite Hdoc, Hdocs. auto.
  - rewrite Hresp, Hw', Hw. unfold unique_ids, document.
    cbn [sent]. rewrite !map_app. cbn [map merge _id createdAt].
    repeat split; auto.
    exists l1, proj, l2. auto.
Qed.

Lemma update_in_place_witness :
  unique_ids (docs (snd (put_project sample_env
     (sample_request (Some "Bearer admin-token") "0123456789abcdef01234567"
        [("title", VString " Atlas ")] None) sample_world))).
Proof.
  pose proof (update_in_place sample_env
     (sample_request (Some "Bearer admin-token") "0123456789abcdef01234567"
        [("title", VString " Atlas ")] None) sample_world) as H.
  destruct H as (_ & _ & H & _).
  apply H.
  unfold unique_ids. vm_compute.
  repeat constructor; cbn; intuition discriminate.
Defined.

(** X7. An update that sends a document is read back: fetching the same
    identifier afterwards answers 200 with the very document the update
    sent. *)
Theorem update_then_get (E : env) (req : request) (w : world) (saved : project) :
  document (fst (put_project E req w)) = Some saved ->
  forall E' req',
    params_id req' = params_id req ->
    fst (get_project E' req' (snd (put_project E req w)))
    = Response 200 (Doc saved).
Proof.
  intros Hdoc E' req' Hsame.
  destruct (put_project_split E req w)
    as [[Hnone _]
       | (u & req1 & proj & l1 & l2 & Hoid & _ & Hresp & Hid & _ & Hw' & Hl1)];
    [congruence|].
  rewrite Hresp in Hdoc. cbn in Hdoc. injection Hdoc as <-.
  unfold get_project, validated, db_findById.
  rewrite run_chains_idRules, Hsame, (object_id_isMongoId _ Hoid), Hoid.
  cbn [handleValidation]. rewrite Hw'.
  assert (Hfind : find (same_id (params_id req))
                    (l1 ++ merge (body req1) (file req) proj :: l2)
                  = Some (merge (body req1) (file req) proj)).
  { clear - Hid Hl1. induction Hl1 as [|d l1 Hd _ IH]; simpl.
    - unfold same_id in *. cbn [merge _id]. now rewrite Hid.
    - now rewrite Hd. }
  rewrite Hfind. reflexivity.
Qed.

Lemma update_then_get_witness :
  fst (get_project sample_env
         (sample_request None "0123456789abcdef01234567" [] None)
         (snd (put_project sample_env
                 (sample_request (Some "Bearer admin-token")
                    "0123456789abcdef01234567"
                    [("title", VString " Atlas ")] None) sample_world)))
  = Response 200 (Doc (with_title "Atlas" sample_project)).
Proof.
  apply (update_then_get sample_env
           (sample_request (Some "Bearer admin-token") "0123456789abcdef01234567"
              [("title", VString " Atlas ")] None) sample_world
           (with_title "Atlas" sample_project)).
  - vm_compute. reflexivity.
  - reflexivity.
Defined.

(** ** Normalizer: what a normalized sequence looks like *)

Lemma mem_char_ltrim (c : ascii) (s : string) :
  mem_char c s = false -> mem_char c (ltrim s) = false.
Proof.
  induction s as [|d rest IH]; [reflexivity|].
  intros H. cbn [ltrim]. destruct (is_space d); [|exact H].
  cbn [mem_char] in H. apply orb_false_elim in H as [_ H]. auto.
Qed.

Lemma mem_char_rtrim (c : ascii) (s : string) :
  mem_char c s = false -> mem_char c (rtrim s) = false.
Proof.
  induction s as [|d rest IH]; [reflexivity|].
  intros H. cbn [mem_char] in H. apply orb_false_elim in H as [Hd H].
  specialize (IH H). cbn [rtrim].
  destruct (rtrim rest) as [|e kept].
  - destruct (is_space d); [reflexivity|].
    cbn [mem_char]. now rewrite Hd.
  - cbn [mem_char] in *. now rewrite Hd, IH.
Qed.

Lemma mem_char_trim (c : ascii) (s : string) :
  mem_char c s = false -> mem_char c (trim s) = false.
Proof.
  intros H. unfold trim. now apply mem_char_rtrim, mem_char_ltrim.
Qed.

Lemma normalized_sequence_tidy (strs : list string) :
  tidy (normalized_sequence strs).
Proof.
  unfold tidy. induction strs as [|s rest IH]; simpl; [constructor|].
  destruct (trim s) as [|c t] eqn:Hs; [exact IH|].
  constructor; [|exact IH]. split; [reflexivity|].
  rewrite <- Hs. apply trim_idempotent.
Qed.

Lemma normalized_sequence_length (strs : list string) :
  List.length (normalized_sequence strs) <= List.length strs.
Proof.
  induction strs as [|s rest IH]; simpl; [lia|].
  destruct (trim s); simpl; lia.
Qed.

Lemma normalized_sequence_from (P : string -> Prop) (strs : list string) :
  (forall s, P s -> P (trim s)) ->
  Forall P strs -> Forall P (normalized_sequence strs).
Proof.
  intros Htrim H. induction H as [|s rest Hs _ IH]; simpl; [constructor|].
  destruct (trim s) as [|c t] eqn:Heq; [exact IH|].
  constructor; [|exact IH]. rewrite <- Heq. now apply Htrim.
Qed.

Lemma mapM_length {A B : Type} (f : A -> res B) (l : list A) (l' : list B) :
  mapM f l = Ok l' -> List.length l' = List.length l.
Proof.
  intros H. apply mapM_Forall2 in H.
  induction H; simpl; congruence.
Qed.

Lemma normalizeTech_entries_tidy (v : value) (l : list string) :
  normalizeTech v = Ok l -> tidy l.
Proof.
  intros H. destruct v; simpl in H; try (injection H as <-; constructor).
  - injection H as <-. rewrite filter_map_trim. apply normalized_sequence_tidy.
  - destruct (mapM js_String elems); simpl in H; [|discriminate].
    injection H as <-. rewrite filter_map_trim. apply normalized_sequence_tidy.
Qed.

(** X8. Whatever [normalizeTech] returns, no entry of it is empty and none
    begins or ends with white space.  From a string, no entry holds a comma;
    from an array, there are at most as many entries as the array has;
    from anything else, there are none. *)
Theorem normalizeTech_tidy (v : value) (l : list string) :
  normalizeTech v = Ok l ->
  tidy l /\
  match v with
  | VString s => Forall (fun t => mem_char comma t = false) l
  | VArray elems => List.length l <= List.length elems
  | _ => l = []
  end.
Proof.
  intros H. split; [now apply (normalizeTech_entries_tidy v)|].
  destruct v; simpl in H; try (now injection H as <-).
  - injection H as <-. rewrite filter_map_trim.
    apply normalized_sequence_from; [apply mem_char_trim|].
    apply split_on_comma_free.
  - destruct (mapM js_String elems) as [strs|] eqn:Hm; simpl in H; [|discriminate].
    injection H as <-. rewrite filter_map_trim.
    rewrite <- (mapM_length _ _ _ Hm). apply normalized_sequence_length.
Qed.

Lemma normalizeTech_tidy_witness :
  tidy ["Node"; "C++"] /\
  Forall (fun t => mem_char comma t = false) ["Node"; "C++"].
Proof.
  apply (normalizeTech_tidy (VString " Node ,, C++ ,")). reflexivity.
Defined.

(** ** What stays true of the stored documents *)

Lemma remove_doc_incl (id : string) (l : list project) (p : project) :
  In p (remove_doc id l) -> In p l.
Proof.
  induction l as [|d rest IH]; simpl; [auto|].
  destruct (same_id id d); simpl; intuition.
Qed.

Lemma merge_well_formed (E : env) (req req' : request) (proj : project) :
  run_chains E updateRules req = Ok (req', []) ->
  well_formed proj ->
  well_formed (merge (body req') (file req) proj).
Proof.
  intros Hrun (Ht1 & Ht2 & Hd1 & Hd2 & Hte).
  pose proof (updateRules_bounds _ _ _ Hrun) as [Hbt Hbd].
  apply updateRules_sanitized in Hrun as (_ & _ & Ht & Hd & Htech & _).
  unfold well_formed, merge. cbn [title description tech].
  assert (Htitle :
    isLength 2 120 (match get "title" (body req') with
                    | VString s => trim s | _ => title proj end) = true /\
    trim (match get "title" (body req') with
          | VString s => trim s | _ => title proj end)
    = match get "title" (body req') with
      | VString s => trim s | _ => title proj end).
  { destruct (get "title" (body req)) as [| | | |s| |]; try contradiction;
      rewrite Ht; [auto|].
    rewrite !trim_idempotent. split; [now apply Hbt|reflexivity]. }
  assert (Hdesc :
    isLength 10 3000 (match get "description" (body req') with
                      | VString s => trim s | _ => description proj end) = true /\
    trim (match get "description" (body req') with
          | VString s => trim s | _ => description proj end)
    = match get "description" (body req') with
      | VString s => trim s | _ => description proj end).
  { destruct (get "description" (body req)) as [| | | |s| |]; try contradiction;
      rewrite Hd; [auto|].
    rewrite !trim_idempotent. split; [now apply Hbd|reflexivity]. }
  destruct Htitle as [-> ->]. destruct Hdesc as [-> ->].
  repeat split.
  destruct (truthy (get "tech" (body req))) eqn:Htr.
  - destruct Htech as (l & Hl & ->). unfold strings_value.
    rewrite as_strings_strings. now apply (normalizeTech_entries_tidy _ _ Hl).
  - rewrite Htech. destruct (get "tech" (body req)); try exact Hte.
    discriminate Htr.
Qed.

(** X9. Updates and deletes keep the stored documents well formed: if every
    stored title has 2 to 120 characters, every description 10 to 3000, both
    without white space around them, and every technology entry is non-empty
    and trimmed, the same holds after any update and after any delete,
    whatever the request. *)
Theorem stored_documents_well_formed (E : env) (req : request) (w : world) :
  Forall well_formed (docs w) ->
  Forall well_formed (docs (snd (put_project E req w))) /\
  Forall well_formed (docs (snd (delete_project E req w))).
Proof.
  intros Hwf. split.
  - destruct (put_project_split E req w)
      as [[_ ->] | (u & req' & proj & l1 & l2 & _ & Hrun & _ & _ & Hw & -> & _)];
      [exact Hwf|].
    rewrite Hw in Hwf. apply Forall_app in Hwf as [H1 H2].
    inversion H2 as [|? ? Hp H3]; subst.
    apply Forall_app. split; [exact H1|]. constructor; [|exact H3].
    change (file req) with (file (set_user u req)).
    now apply (merge_well_formed E).
  - destruct (delete_project_cases E req w)
      as [[-> _] | [(_ & _ & _ & _ & ->) | (_ & _ & _ & ->)]];
      [exact Hwf|exact Hwf|].
    cbn [docs]. rewrite Forall_forall in *.
    intros p Hp. apply Hwf. now apply remove_doc_incl in Hp.
Qed.

Lemma stored_documents_well_formed_witness :
  Forall well_formed (docs (snd (put_project sample_env
     (sample_request (Some "Bearer admin-token") "0123456789abcdef01234567"
        [("title", VString " Atlas "); ("tech", VString "a, b")] None)
     sample_world))).
Proof.
  pose proof (stored_documents_well_formed sample_env
     (sample_request (Some "Bearer admin-token") "0123456789abcdef01234567"
        [("title", VString " Atlas "); ("tech", VString "a, b")] None)
     sample_world) as H.
  apply H.
  repeat constructor.
Defined.

(** ** ImageIngestor: the declared types the filter accepts *)

Lemma to_lower_idempotent (c : ascii) : to_lower (to_lower c) = to_lower c.
Proof. destruct c as [[] [] [] [] [] [] [] []]; reflexivity. Qed.

Lemma to_lower_newline (c : ascii) :
  Ascii.eqb (to_lower c) newline = Ascii.eqb c newline.
Proof. destruct c as [[] [] [] [] [] [] [] []]; reflexivity. Qed.

Lemma deriv_to_lower (F : flags) (bol eol : bool) (c : ascii) (r : regex) :
  ignore_case F = true ->
  deriv F bol eol (to_lower c) r = deriv F bol eol c r.
Proof.
  intros Hi. induction r as [| |d| | | |r1 IH1 r2 IH2|r1 IH1 r2 IH2|r IH];
    cbn [deriv]; try reflexivity.
  - unfold char_match. now rewrite Hi, to_lower_idempotent.
  - now rewrite to_lower_newline.
  - now rewrite IH1, IH2.
  - now rewrite IH1, IH2.
  - now rewrite IH.
Qed.

Lemma at_end_lower (F : flags) (s : string) : at_end F (lower s) = at_end F s.
Proof.
  destruct s as [|c [|d rest]]; cbn [lower at_end]; try reflexivity.
  now rewrite to_lower_newline.
Qed.

Lemma prefix_match_lower (F : flags) (s : string) :
  ignore_case F = true ->
  forall bol r, prefix_match F bol r (lower s) = prefix_match F bol r s.
Proof.
  intros Hi. induction s as [|c rest IH]; intros bol r; [reflexivity|].
  change (lower (String c rest)) with (String (to_lower c) (lower rest)).
  cbn [prefix_match].
  change (String (to_lower c) (lower rest)) with (lower (String c rest)).
  rewrite at_end_lower, deriv_to_lower, IH by exact Hi. reflexivity.
Qed.

(** With the flag [i], a pattern is found in a subject exactly when it is
    found in the subject in lower case. *)
Lemma search_lower (F : flags) (s : string) :
  ignore_case F = true ->
  forall bol r, search F bol r (lower s) = search F bol r s.
Proof.
  intros Hi. induction s as [|c rest IH]; intros bol r; [reflexivity|].
  change (lower (String c rest)) with (String (to_lower c) (lower rest)).
  cbn [search].
  change (String (to_lower c) (lower rest)) with (lower (String c rest)).
  rewrite prefix_match_lower, IH by exact Hi. reflexivity.
Qed.

Lemma at_end_js (i : bool) (s : string) :
  at_end (Flags i false) s = true -> s = EmptyString.
Proof.
  destruct s as [|c [|d rest]]; cbn; [reflexivity|discriminate|discriminate].
Qed.

Lemma empty_true (s : string) : empty s = true -> s = EmptyString.
Proof. destruct s; [reflexivity|discriminate]. Qed.

Lemma char_match_ci (p : bool) (d c : ascii) :
  char_match (Flags true p) d c = true -> to_lower d = to_lower c.
Proof. unfold char_match. cbn. apply Ascii.eqb_eq. Qed.

Lemma fileFilter_image_types (u : upload) :
  fileFilter u = Ok tt <-> In (lower (mimetype u)) image_types.
Proof.
  unfold fileFilter, regex_test.
  set (r := compile "^image\/(jpe?g|png|webp)$").
  vm_compute in r. subst r. cbv iota.
  split.
  - intros H.
    destruct (search _ _ _ (mimetype u)) eqn:Hs; [|discriminate].
    clear H. apply search_matches in Hs as (pre & w & rest & Heq & Hm).
    repeat match_step;
      repeat match goal with
      | H : char_match (Flags true _) _ _ = true |- _ =>
          apply char_match_ci in H
      | H : at_end _ _ = true |- _ => apply at_end_js in H; cbn in H
      | H : true = empty _ |- _ => symmetry in H; apply empty_true in H
      end; subst; rewrite Heq; cbn [append lower];
      repeat match goal with
      | H : to_lower _ = to_lower _ |- _ => rewrite H; clear H
      end; vm_compute; tauto.
  - intros Hin.
    rewrite <- (search_lower (Flags true false) (mimetype u) eq_refl).
    destruct Hin as [<- | [<- | [<- | [<- | []]]]]; reflexivity.
Qed.

(** X10. The upload filter accepts a file exactly when its declared type is,
    letter case apart, one of [image/jpeg], [image/jpg], [image/png] and
    [image/webp]; any other declared type, a longer one as well, is turned
    down with the filter's error. *)
Theorem fileFilter_accepts (u : upload) :
  (fileFilter u = Ok tt <-> In (lower (mimetype u)) image_types) /\
  (fileFilter u <> Ok tt ->
   fileFilter u = Throw (Error "Format image invalide (JPEG/PNG/WebP)")).
Proof.
  split; [apply fileFilter_image_types|].
  unfold fileFilter. destruct (regex_test _ _ _) as [[|]|]; congruence.
Qed.

(** ** The answers of the routes and their calls to the store *)

Lemma db_create_outcome (fields : list (string * value)) (cover : option string)
    (w : world) :
  (exists p,
     db_create fields cover w
     = (Ok p, World (docs w ++ [p]) (calls w ++ [CallCreate])
                    (N.succ (next_oid w)) (Z.succ (now w)))) \/
  (exists e, db_create fields cover w = (Throw e, logged CallCreate w)).
Proof.
  unfold db_create.
  destruct (cast_string (get "title" fields)); cbn [bind]; [|eauto].
  destruct (cast_string (get "description" fields)); cbn [bind]; [|eauto].
  destruct (cast_strings (get "tech" fields)); cbn [bind]; [|eauto].
  destruct (cast_string (get "githubUrl" fields)); cbn [bind]; [|eauto].
  destruct (cast_string (get "demoUrl" fields)); cbn [bind]; [|eauto].
  destruct (cast_bool (get "featured" fields)); cbn [bind]; [|eauto].
  destruct (cast_number (get "order" fields)); cbn [bind]; [|eauto].
  left. eexists. reflexivity.
Qed.

Lemma through_auth (E : env) (req : request) (k : request -> handler) (w : world) :
  (exists r, through (verifyToken E req) k w = (r, w) /\
             status r = 401 /\ document r = None) \/
  exists u, verifyToken E req = Continue (set_user u req) /\
            through (verifyToken E req) k w = k (set_user u req) w.
Proof.
  unfold through.
  destruct (verifyToken_inv E req) as [[msg ->] | [u ->]]; cbn; eauto 7.
Qed.

Lemma through_upload (req : request) (k : request -> handler) (w : world) :
  (exists e, through (upload_single "image" req) k w = (error_handler e, w)) \/
  (upload_single "image" req = Continue req /\
   through (upload_single "image" req) k w = k req w).
Proof.
  unfold through.
  destruct (upload_single "image" req) as [req1|r|e] eqn:Hup.
  - apply upload_single_inv in Hup as [-> _]. auto.
  - now apply upload_single_not_done in Hup.
  - eauto.
Qed.

Lemma validated_cases (E : env) (rules : list chain) (req : request)
    (k : request -> handler) (w : world) :
  (exists e, validated E rules req k w = (error_handler e, w)) \/
  (exists req' errs, errs <> [] /\
     run_chains E rules req = Ok (req', errs) /\
     validated E rules req k w = (validation_answer errs, w)) \/
  exists req', run_chains E rules req = Ok (req', []) /\
               validated E rules req k w = k req' w.
Proof.
  unfold validated.
  destruct (run_chains E rules req) as [[req' errs]|e] eqn:Hrun; [|eauto].
  destruct errs as [|err errs]; [eauto|].
  right. left. exists req', (err :: errs). repeat split; congruence.
Qed.

Lemma stopped_turned_down (w : world) (r : response * world) :
  stopped w r -> turned_down r w.
Proof.
  unfold turned_down. intros [r' Hs Hd | e | errs _]; cbn; auto.
Qed.

Lemma stopped_world (w : world) (r : response * world) :
  stopped w r -> snd r = w.
Proof. now intros [r' Hs Hd | e | errs _]. Qed.

Lemma stopped_status (w : world) (r : response * world) :
  stopped w r ->
  status (fst r) = 400 \/ status (fst r) = 401 \/ status (fst r) = 500.
Proof. intros [r' Hs Hd | e | errs _]; cbn; auto. Qed.

Lemma post_project_outcome (E : env) (req : request) (w : world) :
  stopped w (post_project E req w) \/
  (status (fst (post_project E req w)) = 500 /\
   snd (post_project E req w) = logged CallCreate w) \/
  (exists p,
     post_project E req w
     = (Response 201 (Doc p),
        World (docs w ++ [p]) (calls w ++ [CallCreate])
              (N.succ (next_oid w)) (Z.succ (now w)))).
Proof.
  unfold post_project.
  match goal with
  | |- context [through (verifyToken E req) ?k w] =>
      destruct (through_auth E req k w) as [(r & -> & Hs & Hd) | (u & _ & ->)];
        [left; now apply stopped_token|]
  end.
  match goal with
  | |- context [through (upload_single "image" ?r) ?k w] =>
      destruct (through_upload r k w) as [[e ->] | [_ ->]];
        [left; apply stopped_error|]
  end.
  match goal with
  | |- context [validated E createRules ?r ?k w] =>
      destruct (validated_cases E createRules r k w)
        as [[e ->] | [(req' & errs & Hne & _ & ->) | (req' & _ & ->)]];
        [left; apply stopped_error|left; now apply stopped_rules|]
  end.
  cbv zeta.
  match goal with
  | |- context [db_create ?f ?c w] =>
      destruct (db_create_outcome f c w) as [[p ->] | [e ->]]
  end.
  - right. right. eauto.
  - right. left. split; reflexivity.
Qed.

Lemma put_project_outcome (E : env) (req : request) (w : world) :
  (stopped w (put_project E req w) /\
   (isMongoId (params_id req) = false ->
    status (fst (put_project E req w)) <> 404)) \/
  (isMongoId (params_id req) = true /\
   object_id (params_id req) = false /\
   put_project E req w
   = (put_catch (cast_error (params_id req)),
      logged (CallFindById (params_id req)) w)) \/
  (object_id (params_id req) = true /\
   find (same_id (params_id req)) (docs w) = None /\
   put_project E req w
   = (Response 404 (message "Projet introuvable"),
      logged (CallFindById (params_id req)) w)) \/
  (exists saved,
     object_id (params_id req) = true /\
     put_project E req w
     = (Response 200 (Doc saved),
        World (replace_doc saved (docs w))
              (calls w ++ [CallFindById (params_id req); CallSave (_id saved)])
              (next_oid w) (now w))).
Proof.
  unfold put_project.
  match goal with
  | |- context [through (verifyToken E req) ?k w] =>
      destruct (through_auth E req k w) as [(r & -> & Hs & Hd) | (u & _ & ->)];
        [left; split; [now apply stopped_token|cbn [fst]; intros _; congruence]|]
  end.
  match goal with
  | |- context [through (upload_single "image" ?r) ?k w] =>
      destruct (through_upload r k w) as [[e ->] | [_ ->]];
        [left; split; [apply stopped_error|discriminate]|]
  end.
  match goal with
  | |- context [validated E updateRules ?r ?k w] =>
      destruct (validated_cases E updateRules r k w)
        as [[e ->] | [(req' & errs & Hne & _ & ->) | (req' & Hrun & ->)]];
        [left; split; [apply stopped_error|discriminate]
        |left; split; [now apply stopped_rules|discriminate]|]
  end.
  pose proof (updateRules_id _ _ _ Hrun) as Hmongo.
  apply updateRules_sanitized in Hrun as (Hid & _).
  cbn [set_user params_id] in Hid, Hmongo. rewrite Hid.
  unfold db_findById, db_save.
  destruct (object_id (params_id req)) eqn:Hoid; [|right; left; auto].
  destruct (find (same_id (params_id req)) (docs w)) as [proj|] eqn:Hfind.
  - right. right. right. eexists. cbn [logged docs calls next_oid now].
    rewrite <- app_assoc. split; reflexivity.
  - right. right. left. auto.
Qed.

Lemma get_project_outcome (E : env) (req : request) (w : world) :
  (isMongoId (params_id req) = false /\
   snd (get_project E req w) = w /\
   status (fst (get_project E req w)) = 400) \/
  (isMongoId (params_id req) = true /\
   object_id (params_id req) = false /\
   snd (get_project E req w) = logged (CallFindById (params_id req)) w /\
   status (fst (get_project E req w)) = 500) \/
  (object_id (params_id req) = true /\
   snd (get_project E req w) = logged (CallFindById (params_id req)) w /\
   match find (same_id (params_id req)) (docs w) with
   | None => status (fst (get_project E req w)) = 404
   | Some p => fst (get_project E req w) = Response 200 (Doc p)
   end).
Proof.
  unfold get_project, validated. rewrite run_chains_idRules.
  destruct (isMongoId (params_id req)) eqn:Hmongo; cbn [handleValidation];
    [|left; cbn; auto].
  right. unfold db_findById.
  destruct (object_id (params_id req)) eqn:Hoid; [right|left; cbn; auto].
  destruct (find (same_id (params_id req)) (docs w)); cbn; auto.
Qed.

Lemma object_id_cases (id : string) :
  isMongoId id = false /\ object_id id = false \/
  isMongoId id = true /\ object_id id = false \/
  isMongoId id = true /\ object_id id = true.
Proof.
  destruct (object_id id) eqn:Hoid.
  - right. right. split; [now apply object_id_isMongoId|reflexivity].
  - destruct (isMongoId id); auto.
Qed.

(** X11. The status codes a route can answer with, the store failing on
    the cast of an identifier only.  A fetch by identifier answers 400
    exactly when the identifier fails [isMongoId]; 500 exactly when it
    passes [isMongoId] without being an object id (the prefix [0x] or
    [0h]); 404 exactly when it is an object id that no stored document has;
    200 exactly when it is an object id of a stored document.  A delete
    answers 200, 400, 401, 404 or 500, and 500 only for an identifier that
    passes [isMongoId] without being an object id; an update 200, 400, 401,
    404 or 500; a create 201, 400, 401 or 500. *)
Theorem route_answers (E : env) (req : request) (w : world) :
  let id := params_id req in
  (status (fst (get_project E req w)) = 400 <-> isMongoId id = false) /\
  (status (fst (get_project E req w)) = 500 <->
   isMongoId id = true /\ object_id id = false) /\
  (status (fst (get_project E req w)) = 404 <->
   object_id id = true /\ find (same_id id) (docs w) = None) /\
  (status (fst (get_project E req w)) = 200 <->
   object_id id = true /\ exists p, find (same_id id) (docs w) = Some p) /\
  In (status (fst (delete_project E req w))) [200; 400; 401; 404; 500] /\
  (status (fst (delete_project E req w)) = 500 ->
   isMongoId id = true /\ object_id id = false) /\
  In (status (fst (put_project E req w))) [200; 400; 401; 404; 500] /\
  In (status (fst (post_project E req w))) [201; 400; 401; 500].
Proof.
  cbv zeta.
  assert (Hget :
    (status (fst (get_project E req w)) = 400 /\
     isMongoId (params_id req) = false) \/
    (status (fst (get_project E req w)) = 500 /\
     isMongoId (params_id req) = true /\ object_id (params_id req) = false) \/
    (status (fst (get_project E req w)) = 404 /\
     object_id (params_id req) = true /\
     find (same_id (params_id req)) (docs w) = None) \/
    (status (fst (get_project E req w)) = 200 /\
     object_id (params_id req) = true /\
     exists p, find (same_id (params_id req)) (docs w) = Some p)).
  { destruct (get_project_outcome E req w)
      as [(Hm & _ & Hs) | [(Hm & Ho & _ & Hs) | (Ho & _ & Hs)]];
      [left; auto|right; left; auto|].
    destruct (find (same_id (params_id req)) (docs w)) as [p|];
      [|right; right; left; auto].
    right. right. right. rewrite Hs. eauto. }
  split; [|split; [|split; [|split; [|split; [|split; [|split]]]]]].
  - destruct Hget as [[Hs H] | [(Hs & H & H') | [(Hs & H & H') | (Hs & H & H')]]];
      rewrite Hs; split; try discriminate; try (intros _; exact H);
      try apply object_id_isMongoId in H; congruence.
  - destruct Hget as [[Hs H] | [(Hs & H & H') | [(Hs & H & H') | (Hs & H & H')]]];
      rewrite Hs; split; try discriminate; auto; intros [H1 H2]; congruence.
  - destruct Hget as [[Hs H] | [(Hs & H & H') | [(Hs & H & H') | (Hs & H & H')]]];
      rewrite Hs; split; try discriminate; auto; intros [H1 H2];
      try (pose proof (object_id_isMongoId _ H1)); try congruence.
    destruct H' as [p Hp]. congruence.
  - destruct Hget as [[Hs H] | [(Hs & H & H') | [(Hs & H & H') | (Hs & H & H')]]];
      rewrite Hs; split; try discriminate; auto; intros [H1 [p Hp]];
      try (pose proof (object_id_isMongoId _ H1)); congruence.
  - destruct (delete_project_cases E req w)
      as [[_ [-> | ->]] | [(_ & _ & _ & -> & _) | (_ & _ & Hr & _)]];
      [simpl; auto 7..|].
    destruct (find _ _); rewrite Hr; simpl; auto 7.
  - destruct (delete_project_cases E req w)
      as [[_ [-> | ->]] | [(Hm & Ho & _) | (_ & _ & Hr & _)]];
      try discriminate; auto.
    destruct (find _ _); rewrite Hr; discriminate.
  - destruct (put_project_outcome E req w)
      as [[Hst _] | [(_ & _ & ->) | [(_ & _ & ->) | (saved & _ & ->)]]].
    + destruct (stopped_status _ _ Hst) as [-> | [-> | ->]]; simpl; auto 7.
    + cbn [fst]. destruct (put_catch_status (cast_error (params_id req)))
        as [-> | ->]; simpl; auto 7.
    + simpl; auto 7.
    + simpl; auto.
  - destruct (post_project_outcome E req w) as [Hst | [[-> _] | [p ->]]];
      [|simpl; auto 7|simpl; auto].
    destruct (stopped_status _ _ Hst) as [-> | [-> | ->]]; simpl; auto 7.
Qed.

Example route_answers_prefixed_id :
  let req := sample_request (Some "Bearer admin-token")
               "0x0123456789abcdef012345" [] None in
  map (fun route : env -> request -> handler =>
         status (fst (route sample_env req sample_world)))
      [get_project; delete_project; put_project]
  = [500; 500; 500].
Proof. vm_compute. reflexivity. Qed.

(** X12. Only a success changes the documents: a create not answered 201,
    an update or a delete not answered 200, leaves every stored document, and
    the stored documents as a sequence, as they were.  A create, a delete or
    a fetch answered 400 or 401 leaves the whole world as it was, the log of
    the calls to the store included; so does an update answered 401, and an
    update answered with the report of the violations of its rules. *)
Theorem failure_changes_nothing (E : env) (req : request) (w : world) :
  (status (fst (post_project E req w)) <> 201 ->
   docs (snd (post_project E req w)) = docs w) /\
  (status (fst (put_project E req w)) <> 200 ->
   docs (snd (put_project E req w)) = docs w) /\
  (status (fst (delete_project E req w)) <> 200 ->
   docs (snd (delete_project E req w)) = docs w) /\
  (forall route,
     In route [post_project; delete_project; get_project] ->
     status (fst (route E req w)) = 400 \/ status (fst (route E req w)) = 401 ->
     snd (route E req w) = w) /\
  (status (fst (put_project E req w)) = 401 -> snd (put_project E req w) = w) /\
  (forall errs,
     fst (put_project E req w) = validation_answer errs ->
     snd (put_project E req w) = w).
Proof.
  split; [|split; [|split; [|split; [|split]]]].
  - destruct (post_project_outcome E req w) as [Hst | [[_ ->] | [p ->]]];
      [now rewrite (stopped_world _ _ Hst)|reflexivity|cbn; congruence].
  - destruct (put_project_outcome E req w)
      as [[Hst _] | [(_ & _ & ->) | [(_ & _ & ->) | (saved & _ & ->)]]];
      [now rewrite (stopped_world _ _ Hst)|reflexivity|reflexivity
      |cbn; congruence].
  - destruct (delete_project_cases E req w)
      as [[-> _] | [(_ & _ & _ & _ & ->) | (_ & _ & Hr & ->)]];
      [reflexivity|reflexivity|].
    cbn [docs].
    destruct (find (same_id (params_id req)) (docs w)) eqn:Hfind;
      [rewrite Hr; cbn; congruence|].
    intros _. now apply remove_doc_none.
  - intros route [<- | [<- | [<- | []]]] Hs.
    + destruct (post_project_outcome E req w)
        as [Hst | [[H500 _] | [p Hp]]]; [exact (stopped_world _ _ Hst)| |];
        [rewrite H500 in Hs | rewrite Hp in Hs]; cbn in Hs;
        destruct Hs; discriminate.
    + destruct (delete_project_cases E req w)
        as [[Hw _] | [(_ & _ & _ & H500 & _) | (_ & _ & Hr & _)]];
        [exact Hw|rewrite H500 in Hs; destruct Hs; discriminate|].
      destruct (find _ _); rewrite Hr in Hs; destruct Hs; discriminate.
    + destruct (get_project_outcome E req w)
        as [(_ & Hw & _) | [(_ & _ & _ & H) | (_ & _ & H)]];
        [exact Hw|rewrite H in Hs; destruct Hs; discriminate|].
      destruct (find _ _); rewrite H in Hs; destruct Hs; discriminate.
  - intros Hs.
    destruct (put_project_outcome E req w)
      as [[Hst _] | [(_ & _ & Hp) | [(_ & _ & Hp) | (saved & _ & Hp)]]];
      [exact (stopped_world _ _ Hst)| | |]; rewrite Hp in Hs; cbn [fst] in Hs;
      try discriminate.
    destruct (put_catch_status (cast_error (params_id req))); congruence.
  - intros errs Hr.
    destruct (put_project_outcome E req w)
      as [[Hst _] | [(_ & _ & Hp) | [(_ & _ & Hp) | (saved & _ & Hp)]]];
      [exact (stopped_world _ _ Hst)| | |]; rewrite Hp in Hr; cbn [fst] in Hr;
      try discriminate.
    unfold put_catch in Hr. destruct (_ || _); discriminate.
Qed.

Lemma failure_changes_nothing_witness :
  docs (snd (put_project sample_env
               (sample_request (Some "Bearer admin-token")
                  "0123456789abcdef01234567" [("title", VString "x")] None)
               sample_world))
  = docs sample_world.
Proof.
  pose proof (failure_changes_nothing sample_env
               (sample_request (Some "Bearer admin-token")
                  "0123456789abcdef01234567" [("title", VString "x")] None)
               sample_world) as (_ & H & _).
  apply H. vm_compute. discriminate.
Defined.

(** X13. The calls a route makes to the store, in their order.  A create
    makes none or one [create], and one when it answers 201.  An update
    makes none, one [findById], or a [findById] followed by the [save] of
    the document it sends: both when it sends a document, the first alone
    when it answers 404, none when it answers 401 or when the identifier
    fails [isMongoId].  A delete makes one [findByIdAndDelete] unless it
    answers 400 or 401, a fetch one [findById] unless it answers 400: the
    store is called also with an identifier that passes [isMongoId] without
    being an object id, and the answer is then 500.  A call is made with the
    identifier of the request. *)
Theorem store_calls (E : env) (req : request) (w : world) :
  (exists added,
     new_calls w (snd (post_project E req w)) added /\
     (added = [] \/ added = [CallCreate]) /\
     (status (fst (post_project E req w)) = 201 -> added = [CallCreate])) /\
  (exists added,
     new_calls w (snd (put_project E req w)) added /\
     (added = [] \/ added = [CallFindById (params_id req)] \/
      exists saved,
        document (fst (put_project E req w)) = Some saved /\
        added = [CallFindById (params_id req); CallSave (_id saved)]) /\
     (forall saved,
        document (fst (put_project E req w)) = Some saved ->
        added = [CallFindById (params_id req); CallSave (_id saved)]) /\
     (status (fst (put_project E req w)) = 404 ->
      added = [CallFindById (params_id req)]) /\
     (status (fst (put_project E req w)) = 401 -> added = []) /\
     (isMongoId (params_id req) = false -> added = [])) /\
  new_calls w (snd (delete_project E req w))
    (if ((status (fst (delete_project E req w)) =? 400)
         || (status (fst (delete_project E req w)) =? 401))%nat
     then [] else [CallFindByIdAndDelete (params_id req)]) /\
  new_calls w (snd (get_project E req w))
    (if (status (fst (get_project E req w)) =? 400)%nat
     then [] else [CallFindById (params_id req)]).
Proof.
  unfold new_calls. split; [|split; [|split]].
  - destruct (post_project_outcome E req w) as [Hst | [[Hs ->] | [p ->]]].
    + exists []. rewrite app_nil_r, (stopped_world _ _ Hst).
      repeat split; auto.
      intros H. destruct (stopped_status _ _ Hst) as [Hs | [Hs | Hs]];
        congruence.
    + exists [CallCreate]. repeat split; auto.
    + exists [CallCreate]. repeat split; auto.
  - destruct (put_project_outcome E req w)
      as [[Hst H404] | [(Hm & _ & Hp) | [(Ho & _ & Hp) | (saved & Ho & Hp)]]].
    + exists []. rewrite app_nil_r, (stopped_world _ _ Hst).
      pose proof (stopped_turned_down _ _ Hst) as (_ & Hdoc & _).
      split; [reflexivity|]. split; [auto|].
      split; [intros saved H; congruence|].
      split; [|auto].
      intros H. inversion Hst as [r Hs Hd Hr | e Hr | errs Hne Hr];
        rewrite <- Hr in H; cbn in H; congruence.
    + exists [CallFindById (params_id req)]. rewrite Hp. cbn [fst snd].
      split; [reflexivity|]. split; [auto|].
      split; [intros saved H; rewrite put_catch_document in H; discriminate|].
      split; [reflexivity|].
      split; [|congruence].
      intros H. destruct (put_catch_status (cast_error (params_id req)));
        congruence.
    + exists [CallFindById (params_id req)]. rewrite Hp. cbn [fst snd].
      apply object_id_isMongoId in Ho.
      split; [reflexivity|]. split; [auto|].
      split; [discriminate|]. split; [reflexivity|].
      split; [discriminate|congruence].
    + exists [CallFindById (params_id req); CallSave (_id saved)].
      rewrite Hp. cbn [fst snd calls document sent].
      apply object_id_isMongoId in Ho.
      split; [reflexivity|]. split; [eauto|].
      split; [intros s H; now injection H as <-|].
      split; [discriminate|]. split; [discriminate|congruence].
  - destruct (delete_project_cases E req w)
      as [[Hw Hs] | [(_ & _ & _ & Hs & Hw) | (_ & _ & Hr & Hw)]].
    + rewrite Hw. destruct Hs as [Hs | Hs]; rewrite Hs; simpl;
        now rewrite app_nil_r.
    + rewrite Hw, Hs. reflexivity.
    + rewrite Hw. cbn [calls].
      destruct (find _ _); rewrite Hr; reflexivity.
  - destruct (get_project_outcome E req w)
      as [(_ & Hw & Hs) | [(_ & _ & Hw & Hs) | (_ & Hw & Hs)]];
      rewrite Hw; [rewrite Hs; simpl; now rewrite app_nil_r
                  |rewrite Hs; reflexivity|].
    destruct (find _ _); rewrite Hs; reflexivity.
Qed.

(** ** The application: allowed origins *)

Lemma filter_nil_iff {A : Type} (f : A -> bool) (l : list A) :
  List.filter f l = [] <-> forall x, In x l -> f x = false.
Proof.
  induction l as [|a rest IH]; simpl.
  - split; [intros _ x []|reflexivity].
  - destruct (f a) eqn:Ha.
    + split; [discriminate|]. intros H. specialize (H a (or_introl eq_refl)).
      congruence.
    + rewrite IH. split.
      * intros H x [<- | Hx]; auto.
      * intros H x Hx. apply H. now right.
Qed.

Lemma nonempty_false (s : string) : nonempty s = false <-> s = EmptyString.
Proof. destruct s; simpl; split; congruence. Qed.

Lemma allowed_origins_entry (cfg : option string) (o : string) :
  In o (allowed_origins cfg) <->
  o <> EmptyString /\
  exists seg,
    In seg (split_on comma (match cfg with Some s => s | None => EmptyString end))
    /\ trim seg = o.
Proof.
  unfold allowed_origins. rewrite filter_In, in_map_iff. split.
  - intros [(seg & Htrim & Hseg) Hne]. split; [|eauto].
    intros ->. discriminate.
  - intros [Hne (seg & Hseg & Htrim)]. split; [eauto|].
    destruct o; [congruence|reflexivity].
Qed.

Lemma allowed_origins_none (cfg : option string) :
  allowed_origins cfg = [] <->
  forall seg,
    In seg (split_on comma (match cfg with Some s => s | None => EmptyString end))
    -> trim seg = EmptyString.
Proof.
  unfold allowed_origins. rewrite filter_nil_iff. split.
  - intros H seg Hseg. apply nonempty_false. apply H. now apply in_map.
  - intros H x Hx. apply in_map_iff in Hx as (seg & <- & Hseg).
    apply nonempty_false. now apply H.
Qed.

(** X14. A request passes the origin check exactly when it names no origin
    (or an empty one), or the list read from [ALLOWED_ORIGINS] is empty, or
    its origin is, character for character, one of the entries between the
    commas of [ALLOWED_ORIGINS] once the white space around the entry is
    removed.  The list is empty exactly when every entry is blank, as when
    the variable is not set.  Any other request gets the error
    "Not allowed by CORS". *)
Theorem cors_origin_allows (cfg : option string) (origin : option string) :
  let segs := split_on comma (match cfg with
                              | Some s => s
                              | None => EmptyString
                              end) in
  (cors_origin (allowed_origins cfg) origin = Ok true <->
   match origin with
   | None | Some EmptyString => True
   | Some o =>
       (forall seg, In seg segs -> trim seg = EmptyString) \/
       (exists seg, In seg segs /\ trim seg = o)
   end) /\
  (cors_origin (allowed_origins cfg) origin <> Ok true ->
   cors_origin (allowed_origins cfg) origin = Throw (Error "Not allowed by CORS")) /\
  tidy (allowed_origins cfg).
Proof.
  intros segs. split; [|split].
  - destruct origin as [[|c o]|]; cbn [cors_origin]; [tauto| |tauto].
    destruct (allowed_origins cfg) as [|a rest] eqn:Ha.
    + cbn. split; [|reflexivity]. intros _. left.
      now apply allowed_origins_none.
    + cbn [List.length Nat.eqb orb]. rewrite <- Ha.
      destruct (existsb (String.eqb (String c o)) (allowed_origins cfg)) eqn:Hex.
      * split; [|reflexivity]. intros _. right.
        apply existsb_exists in Hex as (x & Hx & Heq).
        apply String.eqb_eq in Heq. subst x.
        now apply allowed_origins_entry in Hx as [_ Hx].
      * split; [discriminate|]. intros [Hnone | (seg & Hseg & Htrim)].
        -- apply allowed_origins_none in Hnone. congruence.
        -- assert (Hin : In (String c o) (allowed_origins cfg)).
           { apply allowed_origins_entry. split; [discriminate|eauto]. }
           assert (Hex' : existsb (String.eqb (String c o)) (allowed_origins cfg)
                          = true).
           { apply existsb_exists. exists (String c o).
             split; [exact Hin|apply String.eqb_refl]. }
           congruence.
  - destruct origin as [[|c o]|]; cbn [cors_origin]; try congruence.
    destruct (_ || _); congruence.
  - unfold allowed_origins. rewrite filter_map_trim.
    apply normalized_sequence_tidy.
Qed.

(** ** Start-up *)

Lemma start_cases (P : process_env)
    (connect : string -> connect_options -> res unit)
    (listen : value -> string -> res unit) :
  ((MONGODB_URI P = None \/ MONGODB_URI P = Some EmptyString) /\
   start P connect listen
   = [ConsoleError "MONGODB_URI manquant dans .env"; ProcessExit 1]) \/
  (exists uri,
     MONGODB_URI P = Some uri /\ uri <> EmptyString /\
     connect uri opts = Ok tt /\
     listen (listen_port P) (listen_host P) = Ok tt /\
     start P connect listen
     = [SetStrictQuery; MongooseConnect uri opts; ConsoleLog;
        ConnectionOn "error"; ConnectionOn "disconnected";
        Listen (listen_port P) (listen_host P); ConsoleLog]) \/
  (exists uri err,
     MONGODB_URI P = Some uri /\ uri <> EmptyString /\
     connect uri opts = Ok tt /\
     listen (listen_port P) (listen_host P) = Throw err /\
     start P connect listen
     = [SetStrictQuery; MongooseConnect uri opts; ConsoleLog;
        ConnectionOn "error"; ConnectionOn "disconnected";
        Listen (listen_port P) (listen_host P);
        ConsoleError (exn_message err); ProcessExit 1]) \/
  (exists uri err,
     MONGODB_URI P = Some uri /\ uri <> EmptyString /\
     connect uri opts = Throw err /\
     start P connect listen
     = [SetStrictQuery; MongooseConnect uri opts; ConsoleError (exn_message err);
        ConsoleError (exn_message err); ProcessExit 1]).
Proof.
  unfold start, connectDB.
  destruct (MONGODB_URI P) as [[|c uri]|]; [left; auto| |left; auto].
  right. destruct (connect (String c uri) opts) as [[]|err] eqn:Hc.
  - destruct (listen (listen_port P) (listen_host P)) as [[]|err] eqn:Hl.
    + left. exists (String c uri).
      repeat split; (exact Hc || reflexivity || discriminate).
    + right. left. exists (String c uri), err.
      repeat split; (exact Hc || reflexivity || discriminate).
  - right. right. exists (String c uri), err.
    repeat split; (exact Hc || reflexivity || discriminate).
Qed.

(** X15. [listen] is called exactly when [MONGODB_URI] is set, not empty,
    and the connection to it succeeded.  The process exits exactly when the
    connection was not made or the call of [listen] throws (a port out of
    range), and then with code 1; the server that listens logs its address
    and the process does not exit.  A connection is attempted only to the
    configured address, with the options of [connectDB] (IPv4, 10 s to
    select a server), and always before [listen] is called, which is with
    the port and the host of the environment or their defaults. *)
Theorem start_listens_iff_connected (P : process_env)
    (connect : string -> connect_options -> res unit)
    (listen : value -> string -> res unit) :
  let connected :=
    exists uri, MONGODB_URI P = Some uri /\ uri <> EmptyString /\
                connect uri opts = Ok tt in
  ((exists port host, In (Listen port host) (start P connect listen)) <->
   connected) /\
  ((exists code, In (ProcessExit code) (start P connect listen)) <->
   ~ (connected /\ listen (listen_port P) (listen_host P) = Ok tt)) /\
  (connected /\ listen (listen_port P) (listen_host P) = Ok tt ->
   exists done,
     start P connect listen
     = done ++ [Listen (listen_port P) (listen_host P); ConsoleLog]) /\
  (forall code, In (ProcessExit code) (start P connect listen) -> code = 1%Z) /\
  (forall uri o, In (MongooseConnect uri o) (start P connect listen) ->
                 MONGODB_URI P = Some uri /\ uri <> EmptyString /\ o = opts) /\
  (forall pre port host post,
     start P connect listen = pre ++ Listen port host :: post ->
     port = listen_port P /\ host = listen_host P /\
     exists uri, In (MongooseConnect uri opts) pre).
Proof.
  cbv zeta.
  destruct (start_cases P connect listen)
    as [[Hnone ->]
       | [(uri & Hu & Hne & Hc & Hl & ->)
         | [(uri & err & Hu & Hne & Hc & Hl & ->)
           | (uri & err & Hu & Hne & Hc & ->)]]].
  - split; [|split; [|split; [|split; [|split]]]].
    + split.
      * intros (port & host & H). simpl in H. intuition discriminate.
      * intros (uri & Hu & Hne & _). destruct Hnone; congruence.
    + split.
      * intros _ [(uri & Hu & Hne & _) _]. destruct Hnone; congruence.
      * intros _. exists 1%Z. simpl. auto.
    + intros [(uri & Hu & Hne & _) _]. destruct Hnone; congruence.
    + intros code H. simpl in H. intuition congruence.
    + intros uri o H. simpl in H. intuition discriminate.
    + intros pre port host post H.
      destruct pre as [|e1 [|e2 [|e3 pre]]]; discriminate.
  - split; [|split; [|split; [|split; [|split]]]].
    + split; [eauto|]. intros _. eexists. eexists. simpl. eauto 10.
    + split.
      * intros (code & H). simpl in H. intuition discriminate.
      * intros H. exfalso. apply H. eauto 10.
    + intros _.
      exists [SetStrictQuery; MongooseConnect uri opts; ConsoleLog;
              ConnectionOn "error"; ConnectionOn "disconnected"].
      reflexivity.
    + intros code H. simpl in H. intuition discriminate.
    + intros uri' o H. simpl in H.
      destruct H as [H | [H | H]]; [discriminate| |intuition discriminate].
      injection H as <- <-. auto.
    + intros pre port host post H.
      do 5 (destruct pre as [|? pre]; [discriminate|]).
      destruct pre as [|? pre].
      * injection H as <- <- <- <- <- <- <- _.
        repeat split. exists uri. simpl. auto.
      * do 2 (destruct pre as [|? pre]; [discriminate|]). discriminate.
  - split; [|split; [|split; [|split; [|split]]]].
    + split; [eauto|]. intros _. eexists. eexists. simpl. eauto 10.
    + split.
      * intros _ [_ H]. congruence.
      * intros _. exists 1%Z. simpl. auto 10.
    + intros [_ H]. congruence.
    + intros code H. simpl in H. intuition congruence.
    + intros uri' o H. simpl in H.
      destruct H as [H | [H | H]]; [discriminate| |intuition discriminate].
      injection H as <- <-. auto.
    + intros pre port host post H.
      do 5 (destruct pre as [|? pre]; [discriminate|]).
      destruct pre as [|? pre].
      * injection H as <- <- <- <- <- <- <- _.
        repeat split. exists uri. simpl. auto.
      * do 3 (destruct pre as [|? pre]; [discriminate|]). discriminate.
  - split; [|split; [|split; [|split; [|split]]]].
    + split.
      * intros (port & host & H). simpl in H. intuition discriminate.
      * intros (uri' & Hu' & _ & Hc'). congruence.
    + split.
      * intros _ [(uri' & Hu' & _ & Hc') _]. congruence.
      * intros _. exists 1%Z. simpl. auto 10.
    + intros [(uri' & Hu' & _ & Hc') _]. congruence.
    + intros code H. simpl in H. intuition congruence.
    + intros uri' o H. simpl in H.
      destruct H as [H | [H | H]]; [discriminate| |intuition discriminate].
      injection H as <- <-. auto.
    + intros pre port host post H.
      do 5 (destruct pre as [|? pre]; [discriminate|]). destruct pre; discriminate.
Qed.

Example start_port_out_of_range :
  start (ProcessEnv (Some "mongodb://localhost/portfolio") (Some "70000") None)
        (fun _ _ => Ok tt)
        (fun port _ =>
           match port with
           | VString "70000" => Throw (Error "options.port should be >= 0 and < 65536")
           | _ => Ok tt
           end)
  = [SetStrictQuery; MongooseConnect "mongodb://localhost/portfolio" opts;
     ConsoleLog; ConnectionOn "error"; ConnectionOn "disconnected";
     Listen (VString "70000") "0.0.0.0";
     ConsoleError "options.port should be >= 0 and < 65536"; ProcessExit 1].
Proof. reflexivity. Qed.

(** ** Create *)

(** A required text field that passed [isString().trim().isLength(...)]. *)
Lemma stack_text_required (E : env) (f : string) (a b : nat) (v v' : value) :
  run_stack E LBody f Required [IsString; Trim; IsLength a b] v = Ok (v', []) ->
  exists s, v = VString s /\ v' = VString (trim s) /\
            isLength a b (trim s) = true.
Proof.
  intros H. destruct v as [| |b0|n|s|elems|props]; cbn -[trim isLength] in H;
    try discriminate H;
    try (apply bind_inv in H as (r' & _ & H); discriminate H).
  destruct (isLength a b (trim s)) eqn:Hlen; cbn in H; [|discriminate H].
  injection H as <-. eauto.
Qed.

Lemma createRules_sanitized (E : env) (req req' : request) :
  run_chains E createRules req = Ok (req', []) ->
  file req' = file req /\
  (exists s, get "title" (body req) = VString s /\
             get "title" (body req') = VString (trim s) /\
             isLength 2 120 (trim s) = true) /\
  (exists s, get "description" (body req) = VString s /\
             get "description" (body req') = VString (trim s) /\
             isLength 10 3000 (trim s) = true) /\
  (if truthy (get "tech" (body req))
   then exists l, normalizeTech (get "tech" (body req)) = Ok l /\
                  get "tech" (body req') = strings_value l
   else get "tech" (body req') = get "tech" (body req)) /\
  get "githubUrl" (body req') = get "githubUrl" (body req) /\
  get "demoUrl" (body req') = get "demoUrl" (body req) /\
  (get "featured" (body req) = VUndefined ->
   get "featured" (body req') = VUndefined) /\
  (get "order" (body req) = VUndefined ->
   get "order" (body req') = VUndefined).
Proof.
  intros H. unfold createRules in H.
  apply run_chains_body in H as (_ & Hfile & _ & Hfields);
    [|repeat constructor|reflexivity].
  split; [exact Hfile|].
  repeat split.
  - destruct (Hfields (body_field "title" Required
                         [IsString; Trim; IsLength 2 120]))
      as (v' & e & Hrun & Hget & Hnil); [simpl; auto|].
    rewrite (Hnil eq_refl) in Hrun. apply stack_text_required in Hrun.
    cbn [ch_field body_field] in *. rewrite Hget.
    destruct Hrun as (s & Hs & -> & Hlen). eauto.
  - destruct (Hfields (body_field "description" Required
                         [IsString; Trim; IsLength 10 3000]))
      as (v' & e & Hrun & Hget & Hnil); [simpl; auto|].
    rewrite (Hnil eq_refl) in Hrun. apply stack_text_required in Hrun.
    cbn [ch_field body_field] in *. rewrite Hget.
    destruct Hrun as (s & Hs & -> & Hlen). eauto.
  - destruct (Hfields (body_field "tech" (Optional true)
                         [CustomSanitizer normalizeTech]))
      as (v' & e & Hrun & Hget & Hnil); [simpl; auto 10|].
    apply stack_tech in Hrun.
    cbn [ch_field body_field] in *. rewrite Hget. exact Hrun.
  - destruct (Hfields (body_field "githubUrl" (Optional true) [IsURL]))
      as (v' & e & Hrun & Hget & Hnil); [simpl; auto 10|].
    apply stack_validator in Hrun.
    cbn [ch_field body_field] in *. now rewrite Hget.
  - destruct (Hfields (body_field "demoUrl" (Optional true) [IsURL]))
      as (v' & e & Hrun & Hget & Hnil); [simpl; auto 10|].
    apply stack_validator in Hrun.
    cbn [ch_field body_field] in *. now rewrite Hget.
  - intros Hu.
    destruct (Hfields (body_field "featured" (Optional false) [ToBoolean]))
      as (v' & e & Hrun & Hget & Hnil); [simpl; auto 10|].
    cbn [ch_field ch_optional ch_stack body_field] in *.
    rewrite Hu in Hrun. cbn in Hrun. injection Hrun as <- _. exact Hget.
  - intros Hu.
    destruct (Hfields (body_field "order" (Optional false) [ToInt]))
      as (v' & e & Hrun & Hget & Hnil); [simpl; auto 10|].
    cbn [ch_field ch_optional ch_stack body_field] in *.
    rewrite Hu in Hrun. cbn in Hrun. injection Hrun as <- _. exact Hget.
Qed.

Lemma db_create_inv (fields : list (string * value)) (cover : option string)
    (w w' : world) (p : project) :
  db_create fields cover w = (Ok p, w') ->
  get "title" fields = VString (title p) /\
  get "description" fields = VString (description p) /\
  cast_strings (get "tech" fields) = Ok (tech p) /\
  get "githubUrl" fields = VString (githubUrl p) /\
  get "demoUrl" fields = VString (demoUrl p) /\
  get "featured" fields = VBool (featured p) /\
  get "order" fields = VNumber (Int (order p)) /\
  _id p = hex 24 (next_oid w) EmptyString /\
  createdAt p = now w /\
  coverImage p = cover /\
  w' = World (docs w ++ [p]) (calls w ++ [CallCreate])
             (N.succ (next_oid w)) (Z.succ (now w)).
Proof.
  unfold db_create.
  destruct (get "title" fields) as [| | | |t| |]; cbn [cast_string bind];
    try discriminate.
  destruct (get "description" fields) as [| | | |d| |]; cbn [cast_string bind];
    try discriminate.
  destruct (cast_strings (get "tech" fields)) as [te|]; cbn [bind];
    [|discriminate].
  destruct (get "githubUrl" fields) as [| | | |g| |]; cbn [cast_string bind];
    try discriminate.
  destruct (get "demoUrl" fields) as [| | | |dm| |]; cbn [cast_string bind];
    try discriminate.
  destruct (get "featured" fields) as [| |f| | | |]; cbn [cast_bool bind];
    try discriminate.
  destruct (get "order" fields) as [| | |[o| | |]| | |]; cbn [cast_number bind];
    try discriminate.
  intros H. injection H as <- <-. cbn. repeat split.
Qed.

Lemma cast_strings_strings (l : list string) :
  cast_strings (strings_value l) = Ok l.
Proof.
  unfold strings_value. cbn [cast_strings].
  induction l as [|s rest IH]; simpl; [reflexivity|]. now rewrite IH.
Qed.

(** X16. What a create stores, with the store's [create] as modelled: the
    document sent is appended to the stored ones; its title and description
    are those of the request with the white space around them removed, of 2
    to 120 and of 10 to 3000 characters; a technology field that is truthy
    is stored normalized, its entries non-empty and trimmed; a field the
    request leaves out has its default (no technology, empty links, not
    featured, order 0); without a file there is no cover, and with a file
    the cover is a data URL of the declared type of the file whose base64
    text decodes to the bytes of the file.  Of a technology field that is
    there and falsy, which the route hands to the store as it came, nothing
    is stated. *)
Theorem created_document (E : env) (req : request) (w : world) (p : project) :
  document (fst (post_project E req w)) = Some p ->
  fst (post_project E req w) = Response 201 (Doc p) /\
  docs (snd (post_project E req w)) = docs w ++ [p] /\
  (exists s, get "title" (body req) = VString s /\ title p = trim s /\
             isLength 2 120 (title p) = true) /\
  (exists s, get "description" (body req) = VString s /\
             description p = trim s /\
             isLength 10 3000 (description p) = true) /\
  (truthy (get "tech" (body req)) = true ->
   normalizeTech (get "tech" (body req)) = Ok (tech p) /\ tidy (tech p)) /\
  (get "tech" (body req) = VUndefined -> tech p = []) /\
  (get "githubUrl" (body req) = VUndefined -> githubUrl p = EmptyString) /\
  (get "demoUrl" (body req) = VUndefined -> demoUrl p = EmptyString) /\
  (get "featured" (body req) = VUndefined -> featured p = false) /\
  (get "order" (body req) = VUndefined -> order p = 0%Z) /\
  match file req with
  | None => coverImage p = None
  | Some u => exists s, coverImage p = Some s /\
                        data_url (mimetype u) (buffer u) s
  end /\
  createdAt p = now w.
Proof.
  unfold post_project.
  match goal with
  | |- context [through (verifyToken E req) ?k w] =>
      destruct (through_auth E req k w) as [(r & -> & _ & Hnone) | (u & _ & ->)];
        [cbn [fst]; congruence|]
  end.
  match goal with
  | |- context [through (upload_single "image" ?r) ?k w] =>
      destruct (through_upload r k w) as [[e ->] | [Hu ->]]; [discriminate|]
  end.
  apply upload_single_inv in Hu as [_ Hup]. cbn [set_user file] in Hup.
  match goal with
  | |- context [validated E createRules ?r ?k w] =>
      destruct (validated_cases E createRules r k w)
        as [[e ->] | [(req' & errs & _ & _ & ->) | (req' & Hrun & ->)]];
        [discriminate|discriminate|]
  end.
  cbv zeta.
  apply createRules_sanitized in Hrun
    as (Hfile & (t & Ht & Ht' & Htlen) & (d & Hd & Hd' & Hdlen) & Htech & Hg & Hdm
        & Hf & Ho).
  cbn [set_user body file] in *.
  match goal with
  | |- context [db_create ?f ?c w] =>
      destruct (db_create f c w) as [[p'|e] w'] eqn:Hc
  end; [|discriminate].
  cbn [fst snd]. intros Hp. injection Hp as ->.
  apply db_create_inv in Hc
    as (Kt & Kd & Kte & Kg & Kdm & Kf & Ko & _ & Kc & Kcover & ->).
  cbn in Kt, Kd, Kte, Kg, Kdm, Kf, Ko.
  rewrite Ht' in Kt. injection Kt as Kt.
  rewrite Hd' in Kd. injection Kd as Kd.
  rewrite Hg in Kg. rewrite Hdm in Kdm.
  split; [reflexivity|]. split; [reflexivity|].
  split; [exists t; rewrite <- Kt; auto|].
  split; [exists d; rewrite <- Kd; auto|].
  split.
  { intros Htr. rewrite Htr in Htech. destruct Htech as (l & Hl & Hl').
    rewrite Hl' in Kte. cbn [default strings_value] in Kte.
    change (VArray (map VString l)) with (strings_value l) in Kte.
    rewrite cast_strings_strings in Kte. injection Kte as <-.
    split; [exact Hl|now apply (normalizeTech_entries_tidy _ _ Hl)]. }
  split.
  { intros Hu. rewrite Hu in Htech. cbn [truthy] in Htech.
    rewrite Htech in Kte. cbn in Kte. now injection Kte as <-. }
  split; [intros Hu; rewrite Hu in Kg; cbn in Kg; congruence|].
  split; [intros Hu; rewrite Hu in Kdm; cbn in Kdm; congruence|].
  split; [intros Hu; rewrite (Hf Hu) in Kf; cbn in Kf; congruence|].
  split; [intros Hu; rewrite (Ho Hu) in Ko; cbn in Ko; congruence|].
  split; [|exact Kc].
  rewrite Kcover, Hfile.
  destruct (file req) as [up|]; [|reflexivity].
  apply bufferToDataUrl_data_url. now apply fileFilter_mimetype.
Qed.

Lemma created_document_witness :
  exists s,
    coverImage (Project "000000000000000000000064" "Atlas" "A description of it"
                        ["a"; "b"] "" "" false 0
                        (Some "data:image/png;base64,iVBORw0KGgo=") 1000)
    = Some s /\
    data_url "image/png" png_signature s.
Proof.
  pose proof (created_document sample_env
    (sample_request (Some "Bearer admin-token") ""
       [("title", VString " Atlas "); ("description", VString "A description of it");
        ("tech", VString "a, b")]
       (Some (Upload "image" "image/png" png_signature)))
    sample_world
    (Project "000000000000000000000064" "Atlas" "A description of it" ["a"; "b"]
             "" "" false 0 (Some "data:image/png;base64,iVBORw0KGgo=") 1000)) as H.
  apply H. vm_compute. reflexivity.
Defined.

(** X17. A document created or updated with a file has for cover a data
    URL of the declared type of that file, whose base64 text decodes to the
    bytes of the file; the declared type is one of the four image types,
    letter case apart; the file came in the field [image] and has at most
    4194304 bytes. *)
Theorem stored_cover_is_image (E : env) (req : request) (w : world)
    (p : project) (u : upload) :
  file req = Some u ->
  document (fst (post_project E req w)) = Some p \/
  document (fst (put_project E req w)) = Some p ->
  (exists s, coverImage p = Some s /\ data_url (mimetype u) (buffer u) s) /\
  In (lower (mimetype u)) image_types /\
  fieldname u = "image" /\
  (N.of_nat (List.length (buffer u)) <= 4194304)%N.
Proof.
  intros Hf Hdoc.
  assert (Hup : exists x,
             upload_single "image" (set_user x req) = Continue (set_user x req)).
  { destruct Hdoc as [Hdoc | Hdoc].
    - revert Hdoc. unfold post_project.
      match goal with
      | |- context [through (verifyToken E req) ?k w] =>
          destruct (through_auth E req k w)
            as [(r & -> & _ & Hnone) | (x & _ & ->)];
            [cbn [fst]; congruence|]
      end.
      intros Hdoc. exists x. unfold through in Hdoc.
      destruct (upload_single "image" (set_user x req)) as [req1|r|e] eqn:Hu.
      + apply upload_single_inv in Hu as [-> _]. reflexivity.
      + now apply upload_single_not_done in Hu.
      + discriminate.
    - destruct (put_project_cases E req w)
        as [[Hnone _] | (x & req' & proj & _ & Hu & _)]; [congruence|eauto]. }
  destruct Hup as [x Hup].
  apply upload_single_inv in Hup as [_ Hup].
  cbn [set_user file] in Hup. rewrite Hf in Hup.
  destruct Hup as (Hname & Hfilter & Hsize).
  assert (Hcover : coverImage p = bufferToDataUrl (file req)).
  { destruct Hdoc as [Hdoc | Hdoc].
    - now apply (post_project_cover E req w).
    - now apply (put_project_cover E req w p u). }
  rewrite Hcover, Hf.
  repeat split;
    [apply bufferToDataUrl_data_url; now apply fileFilter_mimetype
    |now apply fileFilter_image_types|exact Hname|exact Hsize].
Qed.

Lemma stored_cover_is_image_witness :
  (exists s,
     coverImage
       (Project "0123456789abcdef01234567" "abc" "A first description"
                ["node"; "C++"] "" "" false 2
                (Some "data:image/png;base64,iVBORw0KGgo=") 10)
     = Some s /\
     data_url "image/png" png_signature s) /\
  In (lower "image/png") image_types /\
  "image" = "image" /\
  (N.of_nat (List.length png_signature) <= 4194304)%N.
Proof.
  apply (stored_cover_is_image sample_env
           (sample_request (Some "Bearer admin-token") "0123456789abcdef01234567"
              [] (Some (Upload "image" "image/png" png_signature)))
           sample_world _ (Upload "image" "image/png" png_signature) eq_refl).
  right. vm_compute. reflexivity.
Defined.

(** X18. A create, an update or a delete is answered 401 exactly when the
    token check does not let the request through; past the check, whatever
    the file, the fields and the store, the answer is never 401. *)
Theorem unauthorized_iff (E : env) (req : request) (w : world) :
  forall route,
    In route [post_project; put_project; delete_project] ->
    (status (fst (route E req w)) = 401 <->
     forall req', verifyToken E req <> Continue req').
Proof.
  intros route Hin.
  destruct (verifyToken_inv E req) as [[msg Hv] | [u Hv]].
  - split.
    + intros _ req'. rewrite Hv. discriminate.
    + intros _.
      destruct Hin as [<- | [<- | [<- | []]]];
        unfold post_project, put_project, delete_project, through;
        rewrite Hv; reflexivity.
  - split; [|intros H; now apply H in Hv].
    intros H401. exfalso. revert H401.
    destruct Hin as [<- | [<- | [<- | []]]];
      unfold post_project, put_project, delete_project;
      rewrite Hv; unfold through at 1.
    + apply uploaded_not_401. intros req1 w1.
      apply validated_not_401. intros req2 w2.
      destruct (db_create _ _ w2) as [[p|e] w3]; simpl; discriminate.
    + apply uploaded_not_401. intros req1 w1.
      apply validated_not_401. intros req2 w2.
      unfold db_findById, db_save.
      destruct (object_id _); [destruct (find _ _); simpl; discriminate|].
      cbn [fst]. destruct (put_catch_status (cast_error (params_id req2)))
        as [-> | ->]; discriminate.
    + apply validated_not_401. intros req2 w2.
      unfold db_findByIdAndDelete.
      destruct (object_id _); [destruct (find _ _)|]; simpl; discriminate.
Qed.

Lemma unauthorized_iff_witness :
  status (fst (delete_project sample_env
                 (sample_request (Some "Bearer forged") "0123456789abcdef01234567"
                    [] None) sample_world)) = 401.
Proof.
  apply (unauthorized_iff sample_env
           (sample_request (Some "Bearer forged") "0123456789abcdef01234567"
              [] None) sample_world delete_project).
  - simpl. auto.
  - intros req'. vm_compute. discriminate.
Defined.

(** ** The catch of the update handler *)

(** X19. The [catch] of the update handler answers 400, with the message of
    the error, exactly when the error is a multer error or its message holds
    the text "Format image invalide" in any letter case; every other error
    goes to the error handler of the application, which answers 500.  The
    error of the upload filter is one it answers 400. *)
Theorem put_catch_answer (e : exn) :
  (status (put_catch e) = 400 <->
   (exists code, e = MulterError code) \/
   (exists pre mid post,
      exn_message e = (pre ++ mid ++ post)%string /\
      lower mid = "format image invalide")) /\
  (status (put_catch e) = 400 ->
   put_catch e = Response 400 (message (exn_message e))) /\
  (status (put_catch e) <> 400 ->
   put_catch e = error_handler e /\ status (put_catch e) = 500) /\
  (forall u, fileFilter u = Throw e -> status (put_catch e) = 400).
Proof.
  assert (Htest : regex_test (Flags true false) "Format image invalide"
                    (exn_message e)
                  = Some (ci_contains "Format image invalide" (exn_message e))).
  { unfold regex_test. rewrite (compile_literal "Format image invalide" eq_refl).
    now rewrite search_lits. }
  assert (Hocc : ci_contains "Format image invalide" (exn_message e) = true <->
                 exists pre mid post,
                   exn_message e = (pre ++ mid ++ post)%string /\
                   lower mid = "format image invalide").
  { apply (ci_contains_occurs "Format image invalide"). }
  unfold put_catch. rewrite Htest.
  destruct (ci_contains "Format image invalide" (exn_message e)) eqn:Hc.
  - rewrite orb_true_r. cbn [status].
    repeat split; try reflexivity; try congruence.
    intros _. right. now apply Hocc.
  - rewrite orb_false_r.
    assert (Hno : ~ exists pre mid post,
               exn_message e = (pre ++ mid ++ post)%string /\
               lower mid = "format image invalide").
    { intros H. apply Hocc in H. discriminate. }
    assert (Hfilter : forall u, fileFilter u = Throw e -> False).
    { intros u Hu. unfold fileFilter in Hu.
      destruct (regex_test _ _ (mimetype u)) as [[|]|];
        try discriminate; injection Hu as <-; discriminate Hc. }
    destruct e as [msg|code|msg]; cbn [status error_handler orb];
      (split; [|split; [|split]]);
      try (intros u Hu; exfalso; now apply (Hfilter u));
      try (intros H; discriminate H);
      try (intros _; reflexivity);
      try (intros H; exfalso; now apply H);
      try (intros _; split; reflexivity);
      try (split; [discriminate|];
           intros [[code' H] | H]; [discriminate|contradiction]).
    split; [intros _|reflexivity]. eauto.
Qed.
